(** * Employees table: validator pipeline, sort engine, inline editor

    A shallow embedding of the grid controller of the employees table
    (scripts [fieldValidator.js], [fieldFormatter.js],
    [fieldGenerator.js], [inlineEditor.js],
    [customNotificationManager.js] and the main script holding
    [EmployeesTable]) together with the properties its specification
    states about it, and further properties the scripts show.

    Layout: the JavaScript runtime pieces the code leans on ([JS]), the
    validator pipeline ([Validator]), the sort engine ([Sorter]), the
    document and the inline editor ([Grid]), the money formatter's
    settings ([Money]), row selection ([Selection]), then the theorems.

    Conventions.  Strings are sequences of code units below U+0100;
    numbers are IEEE 754 binary64 values, decimal literals rounded to
    nearest even.  Elements and validator objects live in the state under
    identifiers, so that two references to one object see the same
    fields.  What the host decides (the collator, the currency format) is
    a parameter.  A listener that throws leaves the page in the state it
    had reached; the texts of such errors are those of V8.  Focus is the
    user's: losing focus and pressing [Enter] are events, and the
    scripts' own [focus()] and [blur()] calls trigger no listener here
    (the control they are called on has just been created, or has had its
    [focusout] listener taken off). *)

From Stdlib Require Import ZArith List String Ascii Bool Lia.
From Stdlib Require Import Floats.SpecFloat.
From Stdlib Require Import Numbers.DecimalString.
From stdpp Require Import base option list gmap strings.

Import ListNotations.
Local Open Scope string_scope.

(** ** The runtime: strings, regular expressions, numbers *)

Module JS.

(** A string is a sequence of code units; the development works with the
    code units U+0000..U+00FF, one [ascii] each. *)

Definition code (c : ascii) : nat := nat_of_ascii c.

(** [WhiteSpace] and [LineTerminator] of the language, as [trim] and the
    class [\s] use them: TAB, LF, VT, FF, CR, SP and NBSP in this range. *)
Definition isWhiteSpace (c : ascii) : bool :=
  (((9 <=? code c) && (code c <=? 13)) || (code c =? 32) || (code c =? 160))%nat.

Definition isDigit (c : ascii) : bool :=
  ((48 <=? code c) && (code c <=? 57))%nat.

Definition isEmpty (s : string) : bool :=
  match s with EmptyString => true | String _ _ => false end.

Fixpoint trimStart (s : string) : string :=
  match s with
  | EmptyString => EmptyString
  | String c r => if isWhiteSpace c then trimStart r else s
  end.

Fixpoint trimEnd (s : string) : string :=
  match s with
  | EmptyString => EmptyString
  | String c r =>
      let t := trimEnd r in
      if isWhiteSpace c && isEmpty t then EmptyString else String c t
  end.

(** [s.trim()] *)
Definition trim (s : string) : string := trimEnd (trimStart s).

(** [s.replace(/<class>/g, '')]: every code unit of the class is dropped. *)
Fixpoint removeAll (cls : ascii -> bool) (s : string) : string :=
  match s with
  | EmptyString => EmptyString
  | String c r => if cls c then removeAll cls r else String c (removeAll cls r)
  end.

(** [parts.join(sep)] *)
Fixpoint join (sep : string) (parts : list string) : string :=
  match parts with
  | [] => ""
  | [p] => p
  | p :: ps => p ++ sep ++ join sep ps
  end.

(** Every code unit of [s] is of the class [p]. *)
Fixpoint every (p : ascii -> bool) (s : string) : bool :=
  match s with
  | EmptyString => true
  | String c r => p c && every p r
  end.

(** *** Regular expressions

    The fragment the scripts use: classes, sequence, alternative, option
    and one-or-more, always anchored at both ends ([^ ... $], no flag
    [m]).  Matching is by derivatives. *)

Inductive regex : Type :=
| Void
| Eps
| Class (p : ascii -> bool)
| Seq (r1 r2 : regex)
| Alt (r1 r2 : regex)
| Star (r : regex).

Definition Opt (r : regex) : regex := Alt r Eps.
Definition Plus (r : regex) : regex := Seq r (Star r).
Definition Chr (c : ascii) : regex := Class (fun x => Ascii.eqb x c).

Fixpoint nullable (r : regex) : bool :=
  match r with
  | Void => false
  | Eps => true
  | Class _ => false
  | Seq r1 r2 => nullable r1 && nullable r2
  | Alt r1 r2 => nullable r1 || nullable r2
  | Star _ => true
  end.

Fixpoint deriv (c : ascii) (r : regex) : regex :=
  match r with
  | Void => Void
  | Eps => Void
  | Class p => if p c then Eps else Void
  | Seq r1 r2 =>
      if nullable r1
      then Alt (Seq (deriv c r1) r2) (deriv c r2)
      else Seq (deriv c r1) r2
  | Alt r1 r2 => Alt (deriv c r1) (deriv c r2)
  | Star r1 => Seq (deriv c r1) (Star r1)
  end.

(** [s.match(/^r$/)] read as a truth value *)
Fixpoint matches (r : regex) (s : string) : bool :=
  match s with
  | EmptyString => nullable r
  | String c t => matches (deriv c r) t
  end.

(** What it is for a string to match a pattern, stated on the pattern:
    the reading that [matches] decides. *)
Inductive accepts : regex -> string -> Prop :=
| acc_eps : accepts Eps ""
| acc_class (p : ascii -> bool) (c : ascii) :
    p c = true -> accepts (Class p) (String c "")
| acc_seq (r1 r2 : regex) (s1 s2 : string) :
    accepts r1 s1 -> accepts r2 s2 -> accepts (Seq r1 r2) (s1 ++ s2)
| acc_alt_l (r1 r2 : regex) (s : string) :
    accepts r1 s -> accepts (Alt r1 r2) s
| acc_alt_r (r1 r2 : regex) (s : string) :
    accepts r2 s -> accepts (Alt r1 r2) s
| acc_star_nil (r : regex) : accepts (Star r) ""
| acc_star_more (r : regex) (c : ascii) (s1 s2 : string) :
    accepts r (String c s1) -> accepts (Star r) s2 ->
    accepts (Star r) (String c s1 ++ s2).

(** *** Numbers: IEEE 754 binary64 *)

Definition number : Type := spec_float.

Definition prec : Z := 53.
Definition emax : Z := 1024.

Definition NaN : number := S754_nan.
Definition zero : number := S754_zero false.

(** the number an integer literal denotes (rounded to nearest even) *)
Definition ofZ (z : Z) : number := binary_normalize prec emax z 0 false.

Definition isNaN (x : number) : bool :=
  match x with S754_nan => true | _ => false end.

(** [Number.isFinite(x)] *)
Definition isFinite (x : number) : bool :=
  match x with
  | S754_zero _ | S754_finite _ _ _ => true
  | S754_infinity _ | S754_nan => false
  end.

Definition lt (x y : number) : bool := SFltb x y.
Definition gt (x y : number) : bool := SFltb y x.
Definition sub (x y : number) : number := SFsub prec emax x y.
Definition mul (x y : number) : number := SFmul prec emax x y.
Definition neg (x : number) : number := SFopp x.

(** the numbers above zero *)
Definition isPositive (x : number) : bool :=
  match x with
  | S754_finite false _ _ | S754_infinity false => true
  | _ => false
  end.

(** *** Numeric literals in strings *)

Fixpoint spanDigits (s : string) : string * string :=
  match s with
  | EmptyString => (EmptyString, EmptyString)
  | String c r =>
      if isDigit c
      then let '(d, t) := spanDigits r in (String c d, t)
      else (EmptyString, s)
  end.

Definition digitVal (c : ascii) : Z := Z.of_nat (code c) - 48.

Fixpoint digitsValueFrom (acc : Z) (s : string) : Z :=
  match s with
  | EmptyString => acc
  | String c r => digitsValueFrom (acc * 10 + digitVal c) r
  end.

Definition digitsValue (s : string) : Z := digitsValueFrom 0 s.

(** The number [(-1)^sgn * m * 10^e], rounded to nearest even; [m >= 0]. *)
Definition decimalValue (sgn : bool) (m e : Z) : number :=
  match m with
  | Zpos p =>
      if (0 <=? e)%Z
      then binary_normalize prec emax (cond_Zopp sgn (m * 10 ^ e)) 0 sgn
      else SFdiv prec emax (S754_finite sgn p 0)
                           (S754_finite false (Z.to_pos (10 ^ (- e))) 0)
  | _ => S754_zero sgn
  end.

Fixpoint stripPrefix (p s : string) : option string :=
  match p, s with
  | EmptyString, _ => Some s
  | String a p', String b s' => if Ascii.eqb a b then stripPrefix p' s' else None
  | String _ _, EmptyString => None
  end.

(** [ExponentPart]: [e] or [E], an optional sign, at least one digit.
    Returns the exponent and what follows; when the part is malformed
    nothing is consumed. *)
Definition scanExponent (s : string) : Z * string :=
  match s with
  | String c r =>
      if Ascii.eqb c "e" || Ascii.eqb c "E" then
        let '(sg, r1) :=
          match r with
          | String "+" t => (false, t)
          | String "-" t => (true, t)
          | _ => (false, r)
          end in
        let '(d, r2) := spanDigits r1 in
        if isEmpty d then (0%Z, s) else (cond_Zopp sg (digitsValue d), r2)
      else (0%Z, s)
  | EmptyString => (0%Z, s)
  end.

(** The longest prefix of [s] that is a [StrDecimalLiteral], with its
    value, and the rest of [s]. *)
Definition scanDecimal (s : string) : option (number * string) :=
  let '(sgn, s1) :=
    match s with
    | String "+" r => (false, r)
    | String "-" r => (true, r)
    | _ => (false, s)
    end in
  match stripPrefix "Infinity" s1 with
  | Some r => Some (S754_infinity sgn, r)
  | None =>
      let '(ip, r1) := spanDigits s1 in
      let '(fp, r2) :=
        match r1 with
        | String "." t =>
            let '(f, t') := spanDigits t in
            if isEmpty ip && isEmpty f then (EmptyString, r1) else (f, t')
        | _ => (EmptyString, r1)
        end in
      if isEmpty ip && isEmpty fp then None
      else
        let '(ex, r3) := scanExponent r2 in
        Some (decimalValue sgn (digitsValue (ip ++ fp))
                           (ex - Z.of_nat (String.length fp)), r3)
  end.

(** [parseFloat(s)] *)
Definition parseFloat (s : string) : number :=
  match scanDecimal (trimStart s) with
  | Some (v, _) => v
  | None => NaN
  end.

(** Digits of a radix literal ([0x..], [0o..], [0b..]). *)
Definition radixDigit (radix : Z) (c : ascii) : option Z :=
  let n := Z.of_nat (code c) in
  let v :=
    if (48 <=? n)%Z && (n <=? 57)%Z then Some (n - 48)%Z
    else if (97 <=? n)%Z && (n <=? 102)%Z then Some (n - 87)%Z
    else if (65 <=? n)%Z && (n <=? 70)%Z then Some (n - 55)%Z
    else None in
  match v with
  | Some d => if (d <? radix)%Z then Some d else None
  | None => None
  end.

Fixpoint radixValueFrom (radix acc : Z) (s : string) : option Z :=
  match s with
  | EmptyString => Some acc
  | String c r =>
      match radixDigit radix c with
      | Some d => radixValueFrom radix (acc * radix + d) r
      | None => None
      end
  end.

Definition scanRadix (s : string) : option number :=
  match s with
  | String "0" (String k r) =>
      let radix :=
        if Ascii.eqb k "x" || Ascii.eqb k "X" then Some 16%Z
        else if Ascii.eqb k "o" || Ascii.eqb k "O" then Some 8%Z
        else if Ascii.eqb k "b" || Ascii.eqb k "B" then Some 2%Z
        else None in
      match radix with
      | Some b =>
          if isEmpty r then None
          else option_map ofZ (radixValueFrom b 0 r)
      | None => None
      end
  | _ => None
  end.

(** [Number(s)] for a string [s] *)
Definition Number (s : string) : number :=
  let t := trim s in
  if isEmpty t then zero
  else
    match scanDecimal t with
    | Some (v, EmptyString) => v
    | _ =>
        match scanRadix t with
        | Some v => v
        | None => NaN
        end
    end.

(** [String(z)] for an integer the template literals print *)
Definition showZ (z : Z) : string := NilZero.string_of_int (Z.to_int z).

End JS.

(** ** The validator pipeline ([fieldValidator.js]) *)

Module Validator.

(** [BaseValidationResult] *)
Record BaseValidationResult : Type :=
  { success : bool; message : string }.

(** What calling a rule's [func] on a value does: it returns an object
    with [success] and possibly [message], or it throws an error that
    carries a message text. *)
Inductive RuleOutcome : Type :=
| Returned (ok : bool) (msg : option string)
| Thrown (text : string).

(** A rule [{ name, func }]; [func = None] is a [func] that is not a
    function. *)
Record Rule : Type :=
  { name : string; func : option (string -> RuleOutcome) }.

(** The state of the [forEach] loop of [validate]: the two variables
    [success] and [messages] of the code, and (as a ghost) the names of
    the rules whose [func] was called so far. *)
Record LoopState : Type :=
  { ok_so_far : bool; messages : list string; called : list string }.

Definition loopStart : LoopState :=
  {| ok_so_far := true; messages := []; called := [] |}.

(** One iteration of the loop body on [rule].  A [message] that is
    [undefined] is pushed as such and joined as the empty text. *)
Definition loopBody (value : string) (st : LoopState) (rule : Rule) : LoopState :=
  match func rule with
  | None =>
      {| ok_so_far := false;
         messages := messages st ++ ["Validation " ++ name rule ++ " is not defined"];
         called := called st |}
  | Some f =>
      match f value with
      | Returned true _ =>
          {| ok_so_far := ok_so_far st;
             messages := messages st;
             called := called st ++ [name rule] |}
      | Returned false m =>
          {| ok_so_far := false;
             messages := messages st ++ [default "" m];
             called := called st ++ [name rule] |}
      | Thrown e =>
          {| ok_so_far := false;
             messages := messages st ++ ["Validation " ++ name rule ++ " failed: " ++ e];
             called := called st ++ [name rule] |}
      end
  end.

Definition runRules (rules : list Rule) (value : string) : LoopState :=
  fold_left (loopBody value) rules loopStart.

(** [validate()], for a validator with the rules [rules] whose [_field]
    is unbound ([None]) or bound to an element whose [value] reads
    [Some v]. *)
Definition validate (rules : list Rule) (field : option string) : BaseValidationResult :=
  match field with
  | None => {| success := false; message := "Field not bound" |}
  | Some v =>
      let value := JS.trim v in
      let st := runRules rules value in
      {| success := ok_so_far st; message := JS.join "; " (messages st) |}
  end.

(** The names of the rules that [validate()] calls, in call order. *)
Definition calledRules (rules : list Rule) (field : option string) : list string :=
  match field with
  | None => []
  | Some v => called (runRules rules (JS.trim v))
  end.

(** [MinStrLenValidator(fieldName, minLenValue)] *)
Definition MinStrLenValidator (fieldName : string) (minLenValue : Z) : list Rule :=
  [ {| name := "minLen";
       func := Some (fun value =>
         if JS.isEmpty value || (Z.of_nat (String.length value) <? minLenValue)%Z
         then Returned false
                (Some ("Minimum " ++ fieldName ++ " length is " ++ JS.showZ minLenValue))
         else Returned true None) |} ].

(** The two rule functions of [NumScopeValidator(fieldName, minValue, maxValue)] *)
Definition minRule (fieldName : string) (minValue : Z) (value : string) : RuleOutcome :=
  let num := JS.Number value in
  if JS.isNaN num then
    Returned false (Some (fieldName ++ " must be a number"))
  else if JS.lt num (JS.ofZ minValue) then
    Returned false (Some ("Minimum " ++ fieldName ++ " is " ++ JS.showZ minValue))
  else Returned true None.

Definition maxRule (fieldName : string) (maxValue : Z) (value : string) : RuleOutcome :=
  let num := JS.Number value in
  if JS.isNaN num then
    Returned false (Some (fieldName ++ " must be a number"))
  else if JS.gt num (JS.ofZ maxValue) then
    Returned false (Some ("Maximum " ++ fieldName ++ " is " ++ JS.showZ maxValue))
  else Returned true None.

Definition NumScopeValidator (fieldName : string) (minValue maxValue : Z) : list Rule :=
  [ {| name := "min"; func := Some (minRule fieldName minValue) |};
    {| name := "max"; func := Some (maxRule fieldName maxValue) |} ].

(** The shapes of value the not-empty rule tells apart. *)
Inductive Shape : Type :=
| Nullish
| Str (s : string)
| Arr (len : nat)
| Obj (keys : nat)
| Num (x : JS.number)
| Other.

Definition notEmpty (value : Shape) : bool :=
  match value with
  | Nullish => false
  | Str s => negb (JS.isEmpty (JS.trim s))
  | Arr len => (0 <? len)%nat
  | Obj keys => (0 <? keys)%nat
  | Num _ => true
  | Other => true
  end.

(** [NotEmptyValidator(fieldName)]; [validate()] hands the rule a string. *)
Definition NotEmptyValidator (fieldName : string) : list Rule :=
  [ {| name := "notEmpty";
       func := Some (fun value =>
         let result := notEmpty (Str value) in
         if result then Returned true None
         else Returned false
                (Some ("Field ' " ++ fieldName ++ " should not be empty"))) |} ].

(** *** Reading the pipeline rule by rule *)

(** The message a rule fails with on [value], if it fails: a rule without
    function, a rule that returns a failure, a rule that throws. *)
Definition failure (value : string) (rule : Rule) : option string :=
  match func rule with
  | None => Some ("Validation " ++ name rule ++ " is not defined")
  | Some f =>
      match f value with
      | Returned true _ => None
      | Returned false m => Some (default "" m)
      | Thrown e => Some ("Validation " ++ name rule ++ " failed: " ++ e)
      end
  end.

Definition passes (value : string) (rule : Rule) : bool :=
  match failure value rule with
  | None => true
  | Some _ => false
  end.

Definition hasFunc (rule : Rule) : bool :=
  match func rule with
  | Some _ => true
  | None => false
  end.

End Validator.

(** ** The sort engine: direction, comparator, header classes *)

Module Sorter.

(** [EmployeesTable.STATE] *)
Definition ASC : Z := 1.
Definition DESC : Z := -1.
Definition NONE : Z := 0.

(** [EmployeesTable.STATE_CLASS[sort]]; a key outside the table reads
    [undefined]. *)
Definition STATE_CLASS (sort : Z) : string :=
  if (sort =? ASC)%Z then "sorted-asc"
  else if (sort =? DESC)%Z then "sorted-desc"
  else if (sort =? NONE)%Z then "sorted-none"
  else "undefined".

(** [Object.values(EmployeesTable.STATE_CLASS)]: the keys [0] and [1]
    come first, as array indices, then the key [-1]. *)
Definition sortClasses : list string :=
  ["sorted-none"; "sorted-asc"; "sorted-desc"].

(** [_sorterState] *)
Record SorterState : Type :=
  { COLUMN_INDEX : Z; SORT : Z }.

Definition initialState : SorterState :=
  {| COLUMN_INDEX := -1; SORT := NONE |}.

(** The state update of [_sortByColumnHandler(colIndex)], before it
    calls [_sortByColumn]. *)
Definition clicked (st : SorterState) (colIndex : Z) : SorterState :=
  if (COLUMN_INDEX st =? colIndex)%Z
  then {| COLUMN_INDEX := COLUMN_INDEX st; SORT := SORT st * -1 |}
  else {| COLUMN_INDEX := colIndex; SORT := ASC |}.

(** [/^-?\d+([.,]\d+)?$/] *)
Definition signedDecimal : JS.regex :=
  JS.Seq (JS.Opt (JS.Chr "-"))
    (JS.Seq (JS.Plus (JS.Class JS.isDigit))
       (JS.Opt (JS.Seq (JS.Alt (JS.Chr ".") (JS.Chr ","))
                  (JS.Plus (JS.Class JS.isDigit))))).

(** the class of [/\s|,/] *)
Definition spaceOrComma (c : ascii) : bool :=
  JS.isWhiteSpace c || Ascii.eqb c ",".

(** The sort state of a page: no column yet and no direction, or a
    column and one of the two directions. *)
Definition sortStateOk (st : SorterState) : Prop :=
  (COLUMN_INDEX st = (-1)%Z /\ SORT st = NONE)
  \/ ((0 <= COLUMN_INDEX st)%Z /\ (SORT st = ASC \/ SORT st = DESC)).

(** A comparator takes the two cell texts and the sort type. *)
Definition Comparator : Type := string -> string -> JS.number -> JS.number.

Section DefaultComparator.

(** [x.localeCompare(y, undefined, { sensitivity: 'base' })], which the
    host's collator decides. *)
Variable localeCompare : string -> string -> JS.number.

Definition bothNumeric (normA normB : string) : bool :=
  let numA := JS.parseFloat (JS.removeAll spaceOrComma normA) in
  let numB := JS.parseFloat (JS.removeAll spaceOrComma normB) in
  JS.isFinite numA && JS.isFinite numB
  && JS.matches signedDecimal normA && JS.matches signedDecimal normB.

(** [_defaultComparator(a, b, sortType)] *)
Definition _defaultComparator : Comparator := fun a b sortType =>
  let normA := JS.trim a in
  let normB := JS.trim b in
  if JS.isEmpty normA && JS.isEmpty normB then JS.zero
  else if JS.isEmpty normA then JS.neg sortType
  else if JS.isEmpty normB then sortType
  else
    let numA := JS.parseFloat (JS.removeAll spaceOrComma normA) in
    let numB := JS.parseFloat (JS.removeAll spaceOrComma normB) in
    if bothNumeric normA normB
    then JS.mul (JS.sub numA numB) sortType
    else JS.mul (localeCompare normA normB) sortType.

End DefaultComparator.

(** *** Reading the comparator *)

(** The number a cell text stands for: [parseFloat] of the text without
    white space and commas. *)
Definition numberOf (norm : string) : JS.number :=
  JS.parseFloat (JS.removeAll spaceOrComma norm).

(** A trimmed cell text counts as numeric when the text itself matches
    the signed-decimal pattern and its number is finite. *)
Definition numeric (norm : string) : bool :=
  JS.matches signedDecimal norm && JS.isFinite (numberOf norm).

(** The other reading of the numeric rule: the pattern matched against
    the text after white space and commas are taken out. *)
Definition numericStripped (a b : string) : bool :=
  JS.matches signedDecimal (JS.removeAll spaceOrComma (JS.trim a))
  && JS.matches signedDecimal (JS.removeAll spaceOrComma (JS.trim b)).

(** The comparator's result is the numeric comparison of the two texts. *)
Definition comparedNumerically (localeCompare : string -> string -> JS.number)
    (a b : string) (sortType : JS.number) : Prop :=
  _defaultComparator localeCompare a b sortType =
    JS.mul (JS.sub (numberOf (JS.trim a)) (numberOf (JS.trim b))) sortType.

(** A collator to evaluate concrete inputs with: code units compared one
    by one, letters without regard to case, the shorter text first on a
    common prefix.  On texts made of letters, digits and spaces this is
    the order of the host's collator at sensitivity [base]. *)
Definition foldCase (c : ascii) : nat :=
  let n := JS.code c in
  if ((65 <=? n) && (n <=? 90))%nat then (n + 32)%nat else n.

Fixpoint collate (x y : string) : Z :=
  match x, y with
  | EmptyString, EmptyString => 0
  | EmptyString, String _ _ => -1
  | String _ _, EmptyString => 1
  | String a x', String b y' =>
      if (foldCase a <? foldCase b)%nat then -1
      else if (foldCase b <? foldCase a)%nat then 1
      else collate x' y'
  end.

Definition refCollator (x y : string) : JS.number := JS.ofZ (collate x y).

End Sorter.

(** ** The document, the inline editor and the grid controller *)

Module Grid.

Import Validator Sorter.

(** *** Notifications ([CustomNotificationManager]) *)

Inductive NotificationType : Type :=
| NOTIFICATION_TYPE_SUCCESS
| NOTIFICATION_TYPE_ERROR.

(** A notification as [pushNotification(title, description, type)] shows
    it.  The state keeps every notification pushed, oldest first; their
    removal after the timeout is not part of the model. *)
Record Notification : Type :=
  { title : string; description : string; kind : NotificationType }.

(** *** Field configuration ([EmployeesTable.FIELDS]) *)

Inductive Generator : Type :=
| InputFieldGenerator
| SelectFieldGenerator.

(** The values that travel through [args] and the generators' parameters. *)
Inductive Arg : Type :=
| Undefined
| Text (s : string)
| Items (l : list string)
| Flag (b : bool).

Inductive Formatter : Type :=
| MoneyAmountFormatter.

Module Field.
Record t : Type :=
  { GeneratorClass : Generator;
    tag : string;
    args : list Arg;
    required : bool;
    type : string;
    validator : option nat;
    formatter : option Formatter }.
End Field.

(** A validator object: the element it is bound to and its rules. *)
Module BaseValidator.
Record t : Type :=
  { _field : option nat; _rules : list Rule }.
End BaseValidator.

(** The four validator objects that [FIELDS] creates with [new], in the
    order of their creation; [FIELDS] names them by their place here. *)
Definition VALIDATORS : list BaseValidator.t :=
  map (fun rules => {| BaseValidator._field := None; BaseValidator._rules := rules |})
    [ MinStrLenValidator "name" 4;
      NotEmptyValidator "position";
      NumScopeValidator "age" 18 90;
      NotEmptyValidator "salary" ].

Definition FIELDS : list Field.t :=
  [ {| Field.GeneratorClass := InputFieldGenerator;
       Field.tag := "input";
       Field.args := [Text "name"];
       Field.required := true;
       Field.type := "text";
       Field.validator := Some 0%nat;
       Field.formatter := None |};
    {| Field.GeneratorClass := InputFieldGenerator;
       Field.tag := "input";
       Field.args := [Text "position"];
       Field.required := true;
       Field.type := "text";
       Field.validator := Some 1%nat;
       Field.formatter := None |};
    {| Field.GeneratorClass := SelectFieldGenerator;
       Field.tag := "select";
       Field.args := [Text "office";
                      Items ["Tokyo"; "Singapore"; "London"; "New York";
                             "Edinburgh"; "San Francisco"]];
       Field.required := true;
       Field.type := "select";
       Field.validator := None;
       Field.formatter := None |};
    {| Field.GeneratorClass := InputFieldGenerator;
       Field.tag := "input";
       Field.args := [Text "age"];
       Field.required := true;
       Field.type := "number";
       Field.validator := Some 2%nat;
       Field.formatter := None |};
    {| Field.GeneratorClass := InputFieldGenerator;
       Field.tag := "input";
       Field.args := [Text "salary"];
       Field.required := true;
       Field.type := "number";
       Field.validator := Some 3%nat;
       Field.formatter := Some MoneyAmountFormatter |} ].

(** *** Elements *)

(** The object an [InlineEditor] is: its four properties.  The elements
    are named by their identifiers in the state below; a property that
    was never assigned is [None] ([false] for the callback). *)
Module Editor.
Record t : Type :=
  { originElement : option nat;
    targetElement : option nat;
    validator : option nat;
    onComplete : bool }.
End Editor.

Inductive TagName : Type := INPUT | SELECT.

(** An [input] or [select] element.  [validator] is the property the
    scripts hang on it, a validator object.  [editor] is the editor whose
    [complete] the element's [keydown] and [focusout] listeners call;
    [focusout] tells whether the [focusout] listener is still attached. *)
Module Control.
Record t : Type :=
  { tagName : TagName;
    name : string;
    type : string;
    required : bool;
    options : list string;
    value : string;
    validator : option nat;
    editor : option Editor.t;
    focusout : bool }.
End Control.

(** A [td] element: its own text when it holds text only, its class
    list, and the control it wraps when it is an editor's container. *)
Module Cell.
Record t : Type :=
  { text : string;
    classList : list string;
    child : option nat }.
End Cell.

(** [classList.add] and [classList.remove] *)
Definition classAdd (c : string) (l : list string) : list string :=
  if existsb (String.eqb c) l then l else l ++ [c].

Definition classRemove (c : string) (l : list string) : list string :=
  List.filter (fun x => negb (String.eqb c x)) l.

(** *** The field generators ([fieldGenerator.js]) *)

Definition truthy (a : Arg) : bool :=
  match a with
  | Undefined => false
  | Text s => negb (JS.isEmpty s)
  | Items _ => true
  | Flag b => b
  end.

(** [String(a)], as [setAttribute] applies it *)
Definition toText (a : Arg) : string :=
  match a with
  | Undefined => "undefined"
  | Text s => s
  | Items l => JS.join "," l
  | Flag true => "true"
  | Flag false => "false"
  end.

(** What building an element gives: the element, or an error thrown. *)
Inductive Built (A : Type) : Type :=
| Ok (a : A)
| Throws (text : string).
Arguments Ok {A} a.
Arguments Throws {A} text.

(** [BaseFieldGenerator._createBaseFieldElement(name, required, type)];
    the parameter [type] defaults to ['text']. *)
Definition createInput (name required type : Arg) : Control.t :=
  {| Control.tagName := INPUT;
     Control.name := toText name;
     Control.type := match type with Undefined => "text" | _ => toText type end;
     Control.required := truthy required;
     Control.options := [];
     Control.value := "";
     Control.validator := None;
     Control.editor := None;
     Control.focusout := false |}.

(** [SelectFieldGenerator._createBaseFieldElement(name, required, options)];
    [options.forEach] throws unless [options] is an array.  A fresh
    [select] shows its first option. *)
Definition createSelect (name required options : Arg) : Built Control.t :=
  match options with
  | Items l =>
      Ok {| Control.tagName := SELECT;
            Control.name := toText name;
            Control.type := "select-one";
            Control.required := truthy required;
            Control.options := l;
            Control.value := hd "" l;
            Control.validator := None;
            Control.editor := None;
            Control.focusout := false |}
  | Undefined =>
      Throws "Cannot read properties of undefined (reading 'forEach')"
  | Text _ | Flag _ =>
      Throws "options.forEach is not a function"
  end.

(** The control of [generateElement(container, required, type, name,
    options)]; with [container] the control comes wrapped in a label,
    which changes nothing of the control itself. *)
Definition generateElement (g : Generator)
    (required type name options : Arg) : Built Control.t :=
  match g with
  | InputFieldGenerator => Ok (createInput name required type)
  | SelectFieldGenerator => createSelect name required options
  end.

Definition arg (l : list Arg) (i : nat) : Arg := nth i l Undefined.

(** The value an element takes when a script assigns [v] to [value]:
    a text input drops line breaks, a [select] takes [v] when it is one
    of its options and shows nothing otherwise.  (Inputs of other types
    are never assigned a value by the scripts.) *)
Definition lineBreak (c : ascii) : bool :=
  ((JS.code c =? 10) || (JS.code c =? 13))%nat.

Definition assigned (c : Control.t) (v : string) : string :=
  match Control.tagName c with
  | INPUT =>
      if String.eqb (Control.type c) "text" then JS.removeAll lineBreak v else v
  | SELECT =>
      if existsb (String.eqb v) (Control.options c) then v else ""
  end.

Definition setValue (v : string) (c : Control.t) : Control.t :=
  {| Control.tagName := Control.tagName c;
     Control.name := Control.name c;
     Control.type := Control.type c;
     Control.required := Control.required c;
     Control.options := Control.options c;
     Control.value := v;
     Control.validator := Control.validator c;
     Control.editor := Control.editor c;
     Control.focusout := Control.focusout c |}.

Definition setFocusout (b : bool) (c : Control.t) : Control.t :=
  {| Control.tagName := Control.tagName c;
     Control.name := Control.name c;
     Control.type := Control.type c;
     Control.required := Control.required c;
     Control.options := Control.options c;
     Control.value := Control.value c;
     Control.validator := Control.validator c;
     Control.editor := Control.editor c;
     Control.focusout := b |}.

(** *** The state of the page *)

(** The table ([header], [tbody]), the elements by identifier ([cells],
    [controls]; an element keeps its identifier when it moves or leaves
    the document), the form's controls, the validator objects, and the
    controller's own fields. *)
Record State : Type :=
  { header : list (list string);
    tbody : list (list nat);
    cells : list Cell.t;
    controls : list Control.t;
    form : list nat;
    validators : list BaseValidator.t;
    _sorterState : SorterState;
    _activeEditor : option Editor.t;
    notifications : list Notification }.

Definition setHeader (v : list (list string)) (g : State) : State :=
  {| header := v; tbody := tbody g; cells := cells g; controls := controls g;
     form := form g; validators := validators g; _sorterState := _sorterState g;
     _activeEditor := _activeEditor g; notifications := notifications g |}.

Definition setTbody (v : list (list nat)) (g : State) : State :=
  {| header := header g; tbody := v; cells := cells g; controls := controls g;
     form := form g; validators := validators g; _sorterState := _sorterState g;
     _activeEditor := _activeEditor g; notifications := notifications g |}.

Definition setCells (v : list Cell.t) (g : State) : State :=
  {| header := header g; tbody := tbody g; cells := v; controls := controls g;
     form := form g; validators := validators g; _sorterState := _sorterState g;
     _activeEditor := _activeEditor g; notifications := notifications g |}.

Definition setControls (v : list Control.t) (g : State) : State :=
  {| header := header g; tbody := tbody g; cells := cells g; controls := v;
     form := form g; validators := validators g; _sorterState := _sorterState g;
     _activeEditor := _activeEditor g; notifications := notifications g |}.

Definition setValidators (v : list BaseValidator.t) (g : State) : State :=
  {| header := header g; tbody := tbody g; cells := cells g; controls := controls g;
     form := form g; validators := v; _sorterState := _sorterState g;
     _activeEditor := _activeEditor g; notifications := notifications g |}.

Definition setSorterState (v : SorterState) (g : State) : State :=
  {| header := header g; tbody := tbody g; cells := cells g; controls := controls g;
     form := form g; validators := validators g; _sorterState := v;
     _activeEditor := _activeEditor g; notifications := notifications g |}.

Definition setActiveEditor (v : option Editor.t) (g : State) : State :=
  {| header := header g; tbody := tbody g; cells := cells g; controls := controls g;
     form := form g; validators := validators g; _sorterState := _sorterState g;
     _activeEditor := v; notifications := notifications g |}.

Definition setNotifications (v : list Notification) (g : State) : State :=
  {| header := header g; tbody := tbody g; cells := cells g; controls := controls g;
     form := form g; validators := validators g; _sorterState := _sorterState g;
     _activeEditor := _activeEditor g; notifications := v |}.

(** [pushNotification(title, description, type)] *)
Definition pushNotification (t d : string) (k : NotificationType) (g : State) : State :=
  setNotifications
    (notifications g ++ [{| title := t; description := d; kind := k |}]) g.

(** What running a piece of script gives: it ends ([Done]) or an error
    leaves it uncaught ([Uncaught]); either way the page is in a state. *)
Inductive Result (A : Type) : Type :=
| Done (a : A) (g : State)
| Uncaught (text : string) (g : State).
Arguments Done {A} a g.
Arguments Uncaught {A} text g.

Definition bind {A B : Type} (r : Result A) (k : A -> State -> Result B) : Result B :=
  match r with
  | Done a g => k a g
  | Uncaught t g => Uncaught t g
  end.

Definition stateOf {A : Type} (r : Result A) : State :=
  match r with
  | Done _ g => g
  | Uncaught _ g => g
  end.

(** *** The document tree *)

Fixpoint indexOf (id : nat) (row : list nat) : option nat :=
  match row with
  | [] => None
  | x :: r => if (x =? id)%nat then Some 0%nat else S <$> indexOf id r
  end.

Fixpoint cellIndexIn (rows : list (list nat)) (id : nat) : option nat :=
  match rows with
  | [] => None
  | row :: rs =>
      match indexOf id row with
      | Some i => Some i
      | None => cellIndexIn rs id
      end
  end.

(** [td.cellIndex] of the cell [id], when it sits in a row *)
Definition cellIndex (g : State) (id : nat) : option nat :=
  cellIndexIn (tbody g) id.

(** [td.parentNode] read as a truth value *)
Definition hasParent (g : State) (id : nat) : bool :=
  existsb (existsb (Nat.eqb id)) (tbody g).

Fixpoint insertAfter (id new : nat) (row : list nat) : list nat :=
  match row with
  | [] => []
  | x :: r => if (x =? id)%nat then x :: new :: r else x :: insertAfter id new r
  end.

(** [origin.after(new)] *)
Definition after (origin new : nat) (g : State) : State :=
  setTbody (map (insertAfter origin new) (tbody g)) g.

(** [id.parentNode.removeChild(id)] *)
Definition removeChild (id : nat) (g : State) : State :=
  setTbody (map (List.filter (fun x => negb (x =? id)%nat)) (tbody g)) g.

(** [td.textContent]: the text of the cell; for a cell that wraps a
    control, the text of the control's options (an [input] has none). *)
Definition textContent (g : State) (id : nat) : string :=
  match cells g !! id with
  | Some c =>
      match Cell.child c with
      | None => Cell.text c
      | Some k =>
          match controls g !! k with
          | Some ctl => String.concat "" (Control.options ctl)
          | None => ""
          end
      end
  | None => ""
  end.

(** [td.textContent = v]: the cell's children give way to the text. *)
Definition setTextContent (id : nat) (v : string) (g : State) : State :=
  setCells
    (alter (fun c => {| Cell.text := v;
                        Cell.classList := Cell.classList c;
                        Cell.child := None |}) id (cells g)) g.

Definition setClassList (id : nat) (f : list string -> list string) (g : State) : State :=
  setCells
    (alter (fun c => {| Cell.text := Cell.text c;
                        Cell.classList := f (Cell.classList c);
                        Cell.child := Cell.child c |}) id (cells g)) g.

(** [td.firstChild]: nothing, a text node, or the control it wraps *)
Inductive ChildNode : Type :=
| NoChild
| TextNode
| Element (ctl : nat).

Definition firstChild (g : State) (id : nat) : ChildNode :=
  match cells g !! id with
  | Some c =>
      match Cell.child c with
      | Some k => Element k
      | None => if JS.isEmpty (Cell.text c) then NoChild else TextNode
      end
  | None => NoChild
  end.

(** The editor containers that sit in the table body: the cells of the
    rows that wrap a control. *)
Definition isContainer (g : State) (id : nat) : bool :=
  match cells g !! id with
  | Some c => bool_decide (is_Some (Cell.child c))
  | None => false
  end.

Definition openControls (g : State) : list nat :=
  List.filter (isContainer g) (concat (tbody g)).

(** *** Validator objects *)

(** [validator.bindField(field)] *)
Definition bindField (v ctl : nat) (g : State) : State :=
  setValidators
    (alter (fun o => {| BaseValidator._field := Some ctl;
                        BaseValidator._rules := BaseValidator._rules o |})
           v (validators g)) g.

(** [validator.validate()] for the validator object [v]: the rules run on
    the value that the bound element has now. *)
Definition validateObject (g : State) (v : nat) : BaseValidationResult :=
  match validators g !! v with
  | Some o =>
      validate (BaseValidator._rules o)
        (match BaseValidator._field o with
         | Some ctl => Control.value <$> (controls g !! ctl)
         | None => None
         end)
  | None => validate [] None
  end.

(** *** The controller ([EmployeesTable]) and the editor ([InlineEditor]) *)

(** [Array.prototype.sort(compare)]: the sort is stable, and [compare]
    tells that [x] goes after [y] by a result above zero ([NaN] counts as
    zero).  For a comparator that orders the items consistently this is
    the insertion sort below. *)
Definition goesAfter (v : JS.number) : bool := JS.lt JS.zero v.

Fixpoint insertSorted {A : Type} (compare : A -> A -> JS.number) (x : A) (l : list A) : list A :=
  match l with
  | [] => [x]
  | y :: r =>
      if goesAfter (compare x y) then y :: insertSorted compare x r
      else x :: y :: r
  end.

Definition sort {A : Type} (compare : A -> A -> JS.number) (l : list A) : list A :=
  fold_right (insertSorted compare) [] l.

(** the code units other than the comma *)
Definition notComma (c : ascii) : bool := negb (Ascii.eqb c ",").

(** the class of [/[^0-9,.-]/] *)
Definition notAmountChar (c : ascii) : bool :=
  negb (JS.isDigit c || Ascii.eqb c "," || Ascii.eqb c "." || Ascii.eqb c "-").

Section Controller.

(** What the host decides: the collator behind [localeCompare] and the
    number format behind [MoneyAmountFormatter]; and the comparators
    handed to the constructor, as pairs of [index] and [comparator]. *)
Variable localeCompare : string -> string -> JS.number.
Variable formatCurrency : JS.number -> string.
Variable customComparators : list (Z * Comparator).

(** The loop of the constructor over [customComparators]. *)
Definition _customComparators : gmap Z Comparator :=
  fold_left (fun m p => <[fst p := snd p]> m) customComparators ∅.

(** [_extractCellValue(row, colIndex)] *)
Definition _extractCellValue (g : State) (row : list nat) (colIndex : Z) : string :=
  if (colIndex <? 0)%Z then ""
  else
    match row !! Z.to_nat colIndex with
    | Some id => JS.trim (textContent g id)
    | None => ""
    end.

(** The header part of [_sortByColumn]: every sort class leaves each
    [th]; the [th] at [COLUMN_INDEX] takes the class of [SORT]. *)
Definition markHeader (st : SorterState) (i : nat) (classes : list string) : list string :=
  let cleaned := fold_left (fun l c => classRemove c l) sortClasses classes in
  if (Z.of_nat i =? COLUMN_INDEX st)%Z
  then classAdd (STATE_CLASS (SORT st)) cleaned
  else cleaned.

(** [_sortByColumn(columnIndex)]; [None] is the call without argument. *)
Definition _sortByColumn (columnIndex : option Z) (g : State) : State :=
  let colIndex := default 0%Z columnIndex in
  let st := _sorterState g in
  let g1 := setHeader (imap (markHeader st) (header g)) g in
  let compareFunc :=
    match _customComparators !! colIndex with
    | Some f => f
    | None => _defaultComparator localeCompare
    end in
  let items :=
    sort (fun rowA rowB =>
            compareFunc (_extractCellValue g1 rowA colIndex)
                        (_extractCellValue g1 rowB colIndex)
                        (JS.ofZ (SORT st)))
         (tbody g1) in
  setTbody items g1.

(** [_sortByColumnHandler(colIndex)] *)
Definition _sortByColumnHandler (colIndex : Z) (g : State) : State :=
  let g1 := setSorterState (clicked (_sorterState g) colIndex) g in
  _sortByColumn (Some colIndex) g1.

(** The callback the controller hands to every editor. *)
Definition onCompleteCallback (g : State) : State :=
  let g1 := setActiveEditor None g in
  if (0 <=? COLUMN_INDEX (_sorterState g1))%Z
  then _sortByColumn (Some (COLUMN_INDEX (_sorterState g1))) g1
  else g1.

(** The part of [complete()] after the validation, with [v] the
    [value] read off the target's first child. *)
Definition commit (ed : Editor.t) (target : nat) (v : string) (g : State) : Result unit :=
  let g1 :=
    pushNotification "Success" "New row was successfully added."
      NOTIFICATION_TYPE_SUCCESS g in
  match Editor.originElement ed with
  | None =>
      Uncaught "Cannot set properties of undefined (setting 'textContent')" g1
  | Some origin =>
      let g2 := setTextContent origin v g1 in
      let g3 := if hasParent g2 target then removeChild target g2 else g2 in
      let g4 := setClassList origin (classRemove "hidden") g3 in
      Done tt (if Editor.onComplete ed then onCompleteCallback g4 else g4)
  end.

(** [InlineEditor.complete()] *)
Definition complete (ed : Editor.t) (g : State) : Result unit :=
  match Editor.targetElement ed with
  | None =>
      Done tt (pushNotification "Error"
                 "Cannot read properties of undefined (reading 'firstChild')"
                 NOTIFICATION_TYPE_ERROR g)
  | Some target =>
      match firstChild g target with
      | NoChild =>
          Done tt (pushNotification "Error"
                     "Cannot read properties of null (reading 'validator')"
                     NOTIFICATION_TYPE_ERROR g)
      | TextNode => commit ed target "" g
      | Element k =>
          let ctl := controls g !! k in
          match ctl ≫= Control.validator with
          | Some v =>
              let validationResult := validateObject g v in
              if success validationResult
              then commit ed target (default "" (Control.value <$> ctl)) g
              else Done tt (pushNotification "Validation failed"
                              (message validationResult)
                              NOTIFICATION_TYPE_ERROR g)
          | None => commit ed target (default "" (Control.value <$> ctl)) g
          end
      end
  end.

(** [InlineEditor.buildTargetElement(fieldConfiguration)]: the control of
    the new container, with its two listeners attached. *)
Definition buildTargetElement (fieldConfiguration : Field.t) : Built Control.t :=
  let a := Field.args fieldConfiguration in
  generateElement (Field.GeneratorClass fieldConfiguration)
    (arg a 0) (arg a 1) (arg a 2) (arg a 3).

(** An editor none of whose properties was assigned. *)
Definition blankEditor : Editor.t :=
  {| Editor.originElement := None;
     Editor.targetElement := None;
     Editor.validator := None;
     Editor.onComplete := false |}.

(** [fields[originElement.cellIndex]], with the cell it was read for;
    [None] when it is [undefined]. *)
Definition configurationOf (g : State) (fields : list Field.t)
    (originElement : option nat) : option (nat * Field.t) :=
  match originElement with
  | Some origin =>
      match cellIndex g origin with
      | Some i =>
          match fields !! i with
          | Some fieldConfiguration => Some (origin, fieldConfiguration)
          | None => None
          end
      | None => None
      end
  | None => None
  end.

(** [new InlineEditor(originElement, fields, onComplete)], with the
    controller's callback for [onComplete].  [originElement] is the
    element the event hit: a [td] by its identifier, or [None] for an
    element that is no cell (it has no [cellIndex]). *)
Definition newInlineEditor (originElement : option nat) (fields : list Field.t)
    (g : State) : Result Editor.t :=
  match configurationOf g fields originElement with
  | None => Done blankEditor g
  | Some (origin, fieldConfiguration) =>
      match buildTargetElement fieldConfiguration with
      | Throws text => Uncaught text g
      | Ok element =>
          let ctl := length (controls g) in
          let target := length (cells g) in
          let this :=
            {| Editor.originElement := Some origin;
               Editor.targetElement := Some target;
               Editor.validator := Field.validator fieldConfiguration;
               Editor.onComplete := true |} in
          let targetInput :=
            {| Control.tagName := Control.tagName element;
               Control.name := Control.name element;
               Control.type := Control.type element;
               Control.required := Control.required element;
               Control.options := Control.options element;
               Control.value := assigned element (textContent g origin);
               Control.validator := Field.validator fieldConfiguration;
               Control.editor := Some this;
               Control.focusout := true |} in
          let container :=
            {| Cell.text := "";
               Cell.classList := ["container--cell-input"];
               Cell.child := Some ctl |} in
          let g1 := setControls (controls g ++ [targetInput]) g in
          let g2 := setCells (cells g1 ++ [container]) g1 in
          let g3 := setClassList origin (classAdd "hidden") g2 in
          let g4 := after origin target g3 in
          let g5 :=
            match Field.validator fieldConfiguration with
            | Some v => bindField v ctl g4
            | None => g4
            end in
          Done this g5
      end
  end.

(** The [dblclick] listener of the table body. *)
Definition onDblClick (target : option nat) (g : State) : Result unit :=
  bind (match _activeEditor g with
        | Some ed => complete ed g
        | None => Done tt g
        end)
    (fun _ g1 =>
       bind (newInlineEditor target FIELDS g1)
         (fun ed g2 => Done tt (setActiveEditor (Some ed) g2))).

(** The [focusout] listener of an editor's control. *)
Definition onFocusOut (ctl : nat) (g : State) : Result unit :=
  match controls g !! ctl with
  | Some c =>
      match Control.editor c with
      | Some ed => if Control.focusout c then complete ed g else Done tt g
      | None => Done tt g
      end
  | None => Done tt g
  end.

(** The [keydown] listener of an editor's control, for the key [Enter]:
    the [focusout] listener is taken off, then [complete()] runs. *)
Definition onKeydownEnter (ctl : nat) (g : State) : Result unit :=
  match controls g !! ctl with
  | Some c =>
      match Control.editor c with
      | Some ed => complete ed (setControls (alter (setFocusout false) ctl (controls g)) g)
      | None => Done tt g
      end
  | None => Done tt g
  end.

(** *** The form *)

(** [validateEmployee(employeeFields)] *)
Definition validateField (acc : bool * State) (field : nat) : bool * State :=
  let '(ok, g) := acc in
  match controls g !! field ≫= Control.validator with
  | Some v =>
      let validationResult := validateObject g v in
      (ok && success validationResult,
       if success validationResult then g
       else pushNotification "Validation failed" (message validationResult)
              NOTIFICATION_TYPE_ERROR g)
  | None => (ok, g)
  end.

Definition validateEmployee (employeeFields : list nat) (g : State) : bool * State :=
  let '(ok, g1) := fold_left validateField employeeFields (true, g) in
  (ok,
   if ok then pushNotification "Success" "New row was successfully added."
                NOTIFICATION_TYPE_SUCCESS g1
   else g1).

(** [MoneyAmountFormatter.format(value)] for a string *)
Definition format (value : string) : string :=
  if JS.isEmpty value then ""
  else
    let number := JS.Number (JS.removeAll notAmountChar value) in
    if JS.isFinite number then formatCurrency number else value.

(** [applyFormatter(def, value)] *)
Definition applyFormatter (def : Field.t) (value : string) : string :=
  match Field.formatter def with
  | Some MoneyAmountFormatter => format value
  | None => value
  end.

(** [employeeFieldsByName.get(n)]: of the fields named [n], the last. *)
Definition fieldByName (g : State) (employeeFields : list nat) (n : string) : option Control.t :=
  last (List.filter (fun c => String.eqb (Control.name c) n && negb (JS.isEmpty n))
          (omap (fun id => controls g !! id) employeeFields)).

(** [_buildEmployeeRow(employeeFields)]: the texts of the new row's cells *)
Definition _buildEmployeeRow (g : State) (employeeFields : list nat) : list string :=
  map (fun field =>
         let fieldElement :=
           match arg (Field.args field) 0 with
           | Text n => fieldByName g employeeFields n
           | _ => None
           end in
         let fieldElementVal := default "" (Control.value <$> fieldElement) in
         applyFormatter field fieldElementVal)
      FIELDS.

(** [tBody.appendChild(row)] for a new row with the given cell texts *)
Definition appendRow (texts : list string) (g : State) : State :=
  let first := length (cells g) in
  let g1 :=
    setCells (cells g ++ map (fun t => {| Cell.text := t;
                                          Cell.classList := [];
                                          Cell.child := None |}) texts) g in
  setTbody (tbody g1 ++ [seq first (length texts)]) g1.

(** [form.reset()] *)
Definition resetControl (c : Control.t) : Control.t :=
  setValue (match Control.tagName c with
            | INPUT => ""
            | SELECT => hd "" (Control.options c)
            end) c.

Definition reset (g : State) : State :=
  setControls
    (fold_left (fun l id => alter resetControl id l) (form g) (controls g)) g.

(** [_saveEmployee(event)] *)
Definition _saveEmployee (g : State) : State :=
  let employeeFields := form g in
  let '(ok, g1) := validateEmployee employeeFields g in
  if ok then
    let g2 := appendRow (_buildEmployeeRow g1 employeeFields) g1 in
    let g3 := _sortByColumn (Some (COLUMN_INDEX (_sorterState g2))) g2 in
    reset g3
  else g1.

(** *** Events *)

(** What the user does: a click on the header cell [colIndex]; a double
    click in the table body, on the cell [target] or on an element that is
    no cell; an edit that leaves the control [ctl] with the value [v];
    the control [ctl] losing focus; [Enter] pressed in [ctl]; the form
    submitted. *)
Inductive Event : Type :=
| HeaderClick (colIndex : nat)
| DblClick (target : option nat)
| Edit (ctl : nat) (v : string)
| FocusOut (ctl : nat)
| KeydownEnter (ctl : nat)
| Submit.

Definition handle (e : Event) (g : State) : Result unit :=
  match e with
  | HeaderClick colIndex =>
      if (colIndex <? length (header g))%nat
      then Done tt (_sortByColumnHandler (Z.of_nat colIndex) g)
      else Done tt g
  | DblClick target => onDblClick target g
  | Edit ctl v => Done tt (setControls (alter (setValue v) ctl (controls g)) g)
  | FocusOut ctl => onFocusOut ctl g
  | KeydownEnter ctl => onKeydownEnter ctl g
  | Submit => Done tt (_saveEmployee g)
  end.

(** The page after a sequence of events; an error a listener leaves
    uncaught ends that listener only. *)
Definition run (events : list Event) (g : State) : State :=
  fold_left (fun g e => stateOf (handle e g)) events g.

(** *** The constructor *)

(** The control [_createEmployeeForm] makes for one field. *)
Definition formControl (field : Field.t) : Built Control.t :=
  generateElement (Field.GeneratorClass field)
    (Flag (Field.required field)) (Text (Field.type field))
    (arg (Field.args field) 0) (arg (Field.args field) 1).

(** One turn of the loop of [_createEmployeeForm]: the control joins the
    form, and the field's validator, if any, is bound to it. *)
Definition addFormControl (acc : Built State) (field : Field.t) : Built State :=
  match acc with
  | Throws t => Throws t
  | Ok g =>
      match formControl field with
      | Throws t => Throws t
      | Ok element =>
          let ctl := length (controls g) in
          let element' :=
            {| Control.tagName := Control.tagName element;
               Control.name := Control.name element;
               Control.type := Control.type element;
               Control.required := Control.required element;
               Control.options := Control.options element;
               Control.value := Control.value element;
               Control.validator := Field.validator field;
               Control.editor := None;
               Control.focusout := false |} in
          let g1 := setControls (controls g ++ [element']) g in
          let g2 :=
            {| header := header g1; tbody := tbody g1; cells := cells g1;
               controls := controls g1; form := form g1 ++ [ctl];
               validators := validators g1; _sorterState := _sorterState g1;
               _activeEditor := _activeEditor g1;
               notifications := notifications g1 |} in
          Ok (match Field.validator field with
              | Some v => bindField v ctl g2
              | None => g2
              end)
      end
  end.

(** [new EmployeesTable(...)] on a table whose header cells carry the
    class lists [headerClasses] and whose body rows hold the cell texts
    [rows]. *)
Definition construct (headerClasses : list (list string)) (rows : list (list string)) : Built State :=
  let empty :=
    {| header := headerClasses; tbody := []; cells := []; controls := [];
       form := []; validators := VALIDATORS; _sorterState := initialState;
       _activeEditor := None; notifications := [] |} in
  fold_left addFormControl FIELDS (Ok (fold_left (fun g texts => appendRow texts g) rows empty)).

(** The states the page can be in: what the constructor builds, and
    what an event makes of such a state. *)
Inductive reachable : State -> Prop :=
| reach_construct (headerClasses : list (list string)) (rows : list (list string)) (g : State) :
    construct headerClasses rows = Ok g -> reachable g
| reach_event (e : Event) (g : State) :
    reachable g -> reachable (stateOf (handle e g)).

End Controller.

(** *** Reading the form submission and the header *)

(** The results of the validators of the fields that have one, in field
    order. *)
Definition fieldResults (g : State) (employeeFields : list nat) : list BaseValidationResult :=
  omap (fun field =>
          match controls g !! field with
          | Some c => validateObject g <$> Control.validator c
          | None => None
          end) employeeFields.

Definition failureNotice (r : BaseValidationResult) : Notification :=
  {| title := "Validation failed"; description := message r;
     kind := NOTIFICATION_TYPE_ERROR |}.

Definition failureNotices (results : list BaseValidationResult) : list Notification :=
  map failureNotice (List.filter (fun r => negb (success r)) results).

Definition successNotice : Notification :=
  {| title := "Success"; description := "New row was successfully added.";
     kind := NOTIFICATION_TYPE_SUCCESS |}.

(** The header as the claim on the sort classes words it: the header cell
    of the active column carries the class of the direction, every other
    header cell carries [sorted-none]. *)
Definition headerAsStated (st : SorterState) (hs : list (list string)) : Prop :=
  forall (i : nat) (classes : list string),
    hs !! i = Some classes ->
    if (Z.of_nat i =? COLUMN_INDEX st)%Z
    then In (STATE_CLASS (SORT st)) classes
    else In "sorted-none" classes.

(** *** Reading the form *)

(** The [value] of the control [id]. *)
Definition valueOf (g : State) (id : nat) : string :=
  default "" (Control.value <$> controls g !! id).

(** [c] is the form's control for [field]: named by the field's first
    argument, with the field's validator hung on it; an [input] for
    the one generator, for the other a [select] with the options the
    field's second argument lists. *)
Definition formField (field : Field.t) (c : Control.t) : Prop :=
  Control.name c = toText (arg (Field.args field) 0)
  /\ Control.validator c = Field.validator field
  /\ Control.tagName c =
       match Field.GeneratorClass field with
       | InputFieldGenerator => INPUT
       | SelectFieldGenerator => SELECT
       end
  /\ Control.options c =
       match Field.GeneratorClass field, arg (Field.args field) 1 with
       | SelectFieldGenerator, Items l => l
       | _, _ => []
       end.

(** The form holds one control for every entry of [FIELDS], in the
    order of [FIELDS]; they are the first controls the page created. *)
Definition formOk (g : State) : Prop :=
  form g = seq 0 (length FIELDS)
  /\ Forall2 formField FIELDS (take (length FIELDS) (controls g)).

(** The validator objects have the rules [FIELDS] gave them. *)
Definition rulesOk (g : State) : Prop :=
  map BaseValidator._rules (validators g) = map BaseValidator._rules VALIDATORS.

(** [l'] holds every control of [l] at its place, with the name, the
    validator, the tag and the options it had. *)
Definition sameControls (l l' : list Control.t) : Prop :=
  forall (i : nat) (c : Control.t),
    l !! i = Some c ->
    exists c' : Control.t,
      l' !! i = Some c'
      /\ Control.name c' = Control.name c
      /\ Control.validator c' = Control.validator c
      /\ Control.tagName c' = Control.tagName c
      /\ Control.options c' = Control.options c.

(** From [g] to [g'] the form, the controls' names, validators, tags
    and options, and the validators' rules are kept. *)
Definition keeps (g g' : State) : Prop :=
  form g' = form g
  /\ sameControls (controls g) (controls g')
  /\ map BaseValidator._rules (validators g') = map BaseValidator._rules (validators g).

(** *** Reading the sort *)

(** The comparison of two rows that [_sortByColumn] hands to [sort], on
    the page [g] and for the column [colIndex]. *)
Definition rowComparator (localeCompare : string -> string -> JS.number)
    (customComparators : list (Z * Comparator)) (g : State) (colIndex : Z)
    : list nat -> list nat -> JS.number :=
  fun rowA rowB =>
    match _customComparators customComparators !! colIndex with
    | Some f => f
    | None => _defaultComparator localeCompare
    end (_extractCellValue g rowA colIndex)
        (_extractCellValue g rowB colIndex)
        (JS.ofZ (SORT (_sorterState g))).

(** No item of [l] stands right before an item that [compare] tells it
    goes after. *)
Fixpoint inOrder {A : Type} (compare : A -> A -> JS.number) (l : list A) : bool :=
  match l with
  | [] => true
  | x :: r =>
      match r with
      | [] => true
      | y :: _ => negb (goesAfter (compare x y)) && inOrder compare r
      end
  end.

(** The sign of a comparator's result as [sort] reads it; [NaN] counts
    as zero. *)
Definition signOf (v : JS.number) : Z :=
  if JS.lt JS.zero v then 1 else if JS.lt v JS.zero then -1 else 0.

(** [compare] orders the items of [l] consistently: taken the other way
    round two items give the opposite sign, and when [a] does not go
    after [b] nor [b] after [c], then [a] does not go after [c]. *)
Definition consistentOn {A : Type} (compare : A -> A -> JS.number) (l : list A) : bool :=
  forallb (fun a =>
    forallb (fun b =>
      (signOf (compare a b) =? - signOf (compare b a))%Z
      && forallb (fun c =>
           implb ((signOf (compare a b) <=? 0)%Z && (signOf (compare b c) <=? 0)%Z)
                 (signOf (compare a c) <=? 0)%Z) l) l) l.

(** What the controller's script hands to the constructor: a comparator
    for the salary column. *)
Definition notDigitDotComma (c : ascii) : bool :=
  negb (JS.isDigit c || Ascii.eqb c "." || Ascii.eqb c ",").

Definition salaryComparator : Comparator := fun a b sortType =>
  JS.mul (JS.sub (JS.parseFloat (JS.removeAll notDigitDotComma a))
                 (JS.parseFloat (JS.removeAll notDigitDotComma b)))
         sortType.

Definition ourComparators : list (Z * Comparator) := [(4%Z, salaryComparator)].

(** The state a constructor call leaves, for a call that does not throw. *)
Definition emptyState : State :=
  {| header := []; tbody := []; cells := []; controls := []; form := [];
     validators := []; _sorterState := initialState; _activeEditor := None;
     notifications := [] |}.

Definition built (b : Built State) : State :=
  match b with
  | Ok g => g
  | Throws _ => emptyState
  end.

End Grid.

(** ** The money formatter and its settings ([fieldFormatter.js]) *)

Module Money.

(** The values an option, or an argument of [format], can be. *)
Inductive Value : Type :=
| Undefined
| Null
| Bool (b : bool)
| Num (x : JS.number)
| Str (s : string).

(** An options object: its own properties, in the order of their
    creation. *)
Definition Options : Type := list (string * Value).

(** [o[k]]; a property that is not there reads [undefined]. *)
Fixpoint get (k : string) (o : Options) : Value :=
  match o with
  | [] => Undefined
  | (k', v) :: r => if String.eqb k' k then v else get k r
  end.

(** [k in o] *)
Fixpoint has (k : string) (o : Options) : bool :=
  match o with
  | [] => false
  | (k', _) :: r => String.eqb k' k || has k r
  end.

(** [o[k] = v]: the property keeps its place when it is there already
    and comes last otherwise. *)
Fixpoint set (k : string) (v : Value) (o : Options) : Options :=
  match o with
  | [] => [(k, v)]
  | (k', v') :: r =>
      if String.eqb k' k then (k', v) :: r else (k', v') :: set k v r
  end.

(** [{ ...a, ...b }]: the properties of [a], then those of [b] assigned
    one by one. *)
Definition spread (a b : Options) : Options :=
  fold_left (fun o p => set (fst p) (snd p) o) b a.

Definition isZero (x : JS.number) : bool :=
  match x with S754_zero _ => true | _ => false end.

(** [!!v] *)
Definition truthy (v : Value) : bool :=
  match v with
  | Undefined | Null => false
  | Bool b => b
  | Num x => negb (JS.isNaN x || isZero x)
  | Str s => negb (JS.isEmpty s)
  end.

(** What [new Intl.NumberFormat(locale, options)] was built from; the
    constructor reads both once. *)
Record NumberFormat : Type :=
  { nfLocale : string; nfOptions : Options }.

(** The static fields of [MoneyAmountFormatter]. *)
Record Statics : Type :=
  { locale : string;
    config : Options;
    _formatter : option NumberFormat;
    _cacheKey : string }.

Definition defaultLocale : string := "en-US".

Definition defaultConfig : Options :=
  [ ("style", Str "currency");
    ("currency", Str "USD");
    ("minimumFractionDigits", Num JS.zero);
    ("maximumFractionDigits", Num JS.zero) ].

(** The fields as the class body initialises them. *)
Definition initial : Statics :=
  {| locale := defaultLocale;
     config := spread [] defaultConfig;
     _formatter := None;
     _cacheKey := "" |}.

(** The argument of [setConfig]: a string, an object, or anything else
    ([null], [undefined], a number, ...). *)
Inductive ConfigArg : Type :=
| Currency (c : string)
| Partial (o : Options)
| Neither.

(** [setLocale(locale)] *)
Definition setLocale (l : string) (st : Statics) : Statics :=
  {| locale := l; config := config st;
     _formatter := _formatter st; _cacheKey := "" |}.

(** [setConfig(configOrCurrency)] *)
Definition setConfig (configOrCurrency : ConfigArg) (st : Statics) : Statics :=
  let c1 :=
    match configOrCurrency with
    | Currency c => set "currency" (Str c) (config st)
    | Partial o => spread (config st) o
    | Neither => config st
    end in
  let c2 :=
    if truthy (get "style" c1) then c1 else set "style" (Str "currency") c1 in
  {| locale := locale st; config := c2;
     _formatter := _formatter st; _cacheKey := "" |}.

(** What a call of a static method gives: a result, or an error thrown;
    either way the fields are in a state. *)
Inductive Outcome (A : Type) : Type :=
| Returns (a : A) (st : Statics)
| Throws (text : string) (st : Statics).
Arguments Returns {A} a st.
Arguments Throws {A} text st.

Definition fieldsAfter {A : Type} (r : Outcome A) : Statics :=
  match r with
  | Returns _ st => st
  | Throws _ st => st
  end.

(** [String(x)] for a number that is not finite *)
Definition nonFiniteText (x : JS.number) : string :=
  match x with
  | S754_infinity false => "Infinity"
  | S754_infinity true => "-Infinity"
  | _ => "NaN"
  end.

Section Host.

(** What the host decides: the text [JSON.stringify] gives for an
    options object; the error with which [new Intl.NumberFormat] refuses
    a locale and options, if it does; the text a number format gives for
    a number. *)
Variable stringify : Options -> string.
Variable rangeError : string -> Options -> option string.
Variable formatNumber : NumberFormat -> JS.number -> string.

Definition keyOf (st : Statics) : string :=
  locale st ++ "|" ++ stringify (config st).

(** [_getFormatter()] *)
Definition _getFormatter (st : Statics) : Outcome (option NumberFormat) :=
  let key := keyOf st in
  if negb (String.eqb (_cacheKey st) key) then
    match rangeError (locale st) (config st) with
    | Some text => Throws text st
    | None =>
        let f := {| nfLocale := locale st; nfOptions := config st |} in
        Returns (Some f)
          {| locale := locale st; config := config st;
             _formatter := Some f; _cacheKey := key |}
    end
  else Returns (_formatter st) st.

(** [this._getFormatter().format(number)] *)
Definition formatted (number : JS.number) (st : Statics) : Outcome string :=
  match _getFormatter st with
  | Throws text st' => Throws text st'
  | Returns None st' =>
      Throws "Cannot read properties of null (reading 'format')" st'
  | Returns (Some f) st' => Returns (formatNumber f number) st'
  end.

(** [format(value)] *)
Definition format (value : Value) (st : Statics) : Outcome string :=
  match value with
  | Undefined | Null => Returns "" st
  | Bool b => Returns (if b then "true" else "false") st
  | Num x =>
      if JS.isFinite x then formatted x st else Returns (nonFiniteText x) st
  | Str s =>
      if JS.isEmpty s then Returns "" st
      else
        let number := JS.Number (JS.removeAll Grid.notAmountChar s) in
        if JS.isFinite number then formatted number st else Returns s st
  end.

(** The calls a script can make on the class. *)
Inductive Call : Type :=
| SetLocale (l : string)
| SetConfig (configOrCurrency : ConfigArg)
| Format (value : Value).

Definition call (c : Call) (st : Statics) : Statics :=
  match c with
  | SetLocale l => setLocale l st
  | SetConfig a => setConfig a st
  | Format value => fieldsAfter (format value st)
  end.

Definition calls (cs : list Call) (st : Statics) : Statics :=
  fold_left (fun st c => call c st) cs st.

(** The cache holds the formatter of the current settings, or nothing
    the next call would use. *)
Definition cacheOk (st : Statics) : Prop :=
  _cacheKey st = keyOf st ->
  _formatter st = Some {| nfLocale := locale st; nfOptions := config st |}
  /\ rangeError (locale st) (config st) = None.

End Host.

(** The options an argument of [setConfig] names. *)
Definition given (configOrCurrency : ConfigArg) : Options :=
  match configOrCurrency with
  | Currency c => [("currency", Str c)]
  | Partial o => o
  | Neither => []
  end.

End Money.

(** ** Row selection (the [click] listener of the table body) *)

Module Selection.

(** A [tr] element of the document: its class list, and whether it lies
    within the table. *)
Record Row : Type :=
  { classList : list string; inTable : bool }.

Definition ACTIVE_ROW_CLASS : string := "active".

Definition withClasses (f : list string -> list string) (r : Row) : Row :=
  {| classList := f (classList r); inTable := inTable r |}.

(** The listener on the [tr] elements of the document, with [targetRow]
    what [event.target.closest('tr')] finds: a [tr] by its place, or
    nothing. *)
Definition onClick (targetRow : option nat) (rows : list Row) : list Row :=
  match targetRow with
  | None => rows
  | Some i =>
      alter (withClasses (Grid.classAdd ACTIVE_ROW_CLASS)) i
        (map (fun r =>
                if inTable r
                then withClasses (Grid.classRemove ACTIVE_ROW_CLASS) r
                else r) rows)
  end.

End Selection.

(** ** Concrete inputs *)

Module Example.

Import Validator Sorter Grid.

(** A rule that throws, a rule without function, and the name rule. *)
Definition rules : list Rule :=
  [ {| name := "boom"; func := Some (fun _ => Thrown "bad input") |};
    {| name := "later"; func := None |} ]
  ++ MinStrLenValidator "name" 4.

(** The digit [9], [n] times. *)
Fixpoint nines (n : nat) : string :=
  match n with
  | O => ""
  | S k => String "9" (nines k)
  end.

(** A stand-in for the host's currency format. *)
Definition currency (x : JS.number) : string := "$".

(** A page: five header cells, two rows.  The cells of the first row are
    the [td] 0 to 4, those of the second row the [td] 5 to 9; the form's
    controls are the controls 0 to 4, so the first editor's control is the
    control 5 and its container the [td] 10. *)
Definition page : State :=
  built (construct [[]; []; []; []; []]
           [ ["Bob Smith"; "Developer"; "London"; "30"; "$1,000"];
             ["Alice Jones"; "Tester"; "Tokyo"; "25"; "$2,000"] ]).

(** The same page with every header cell tagged [sorted-none]. *)
Definition taggedPage : State :=
  built (construct [["sorted-none"]; ["sorted-none"]; ["sorted-none"];
                    ["sorted-none"]; ["sorted-none"]]
           [ ["Bob Smith"; "Developer"; "London"; "30"; "$1,000"];
             ["Alice Jones"; "Tester"; "Tokyo"; "25"; "$2,000"] ]).

(** A page whose rows have a sixth cell, for which [FIELDS] has no entry:
    the [td] 5 of the first row. *)
Definition widePage : State :=
  built (construct [[]; []; []; []; []; []]
           [ ["Bob Smith"; "Developer"; "London"; "30"; "$1,000"; "edit"] ]).

Definition events (es : list Event) (g : State) : State :=
  run refCollator currency ourComparators es g.

(** The form of [page] filled in with values that pass. *)
Definition filled : State :=
  events [Edit 0 "Carol White"; Edit 1 "Manager"; Edit 3 "41"; Edit 4 "900"] page.

(** An editor open on the first name cell of [page], holding a name that
    passes, and one holding a name that does not; the editor object. *)
Definition editing : State :=
  events [DblClick (Some 0%nat); Edit 5 "Robert Smith"] page.

Definition rejected : State :=
  events [DblClick (Some 0%nat); Edit 5 "ab"] page.

Definition nameEditor : Editor.t :=
  {| Editor.originElement := Some 0%nat;
     Editor.targetElement := Some 10%nat;
     Editor.validator := Some 0%nat;
     Editor.onComplete := true |}.

(** [page] as a click on the age header leaves it before the sort runs. *)
Definition byAge : State :=
  setSorterState (clicked (_sorterState page) 3) page.

(** Two field configurations, as [FIELDS] has them. *)
Definition ageField : Field.t :=
  {| Field.GeneratorClass := InputFieldGenerator;
     Field.tag := "input";
     Field.args := [Text "age"];
     Field.required := true;
     Field.type := "number";
     Field.validator := Some 2%nat;
     Field.formatter := None |}.

Definition nameField : Field.t :=
  {| Field.GeneratorClass := InputFieldGenerator;
     Field.tag := "input";
     Field.args := [Text "name"];
     Field.required := true;
     Field.type := "text";
     Field.validator := Some 0%nat;
     Field.formatter := None |}.

(** The [tr] elements of a document: the header row and two body rows of
    the table, the first body row selected; and a selected row of another
    table. *)
Definition trs : list Selection.Row :=
  [ {| Selection.classList := []; Selection.inTable := true |};
    {| Selection.classList := ["active"]; Selection.inTable := true |};
    {| Selection.classList := ["odd"]; Selection.inTable := true |};
    {| Selection.classList := ["active"]; Selection.inTable := false |} ].

(** Stand-ins for the host of the money formatter: a key text, a host
    that accepts every setting, and a number format that prints its
    locale. *)
Definition stringify (o : Money.Options) : string := JS.join "," (map fst o).

Definition noError (l : string) (o : Money.Options) : option string := None.

Definition localeOf (f : Money.NumberFormat) (x : JS.number) : string :=
  Money.nfLocale f.

End Example.

(** * Properties *)

Import Validator Sorter Grid.

(** ** Patterns: the matcher against the patterns' reading *)

Lemma append_cons (c : ascii) (s1 s2 : string) :
  String c s1 ++ s2 = String c (s1 ++ s2).
Proof. reflexivity. Qed.

Lemma append_empty_l (s : string) : "" ++ s = s.
Proof. reflexivity. Qed.

Lemma append_is_empty (s1 s2 : string) : s1 ++ s2 = "" -> s1 = "" /\ s2 = "".
Proof.
  destruct s1; [rewrite append_empty_l; auto|rewrite append_cons; discriminate].
Qed.

Lemma accepts_void (s : string) : JS.accepts JS.Void s -> False.
Proof. inversion 1. Qed.

Lemma accepts_eps (s : string) : JS.accepts JS.Eps s -> s = "".
Proof. inversion 1. reflexivity. Qed.

Lemma accepts_class (p : ascii -> bool) (s : string) :
  JS.accepts (JS.Class p) s -> exists c, s = String c "" /\ p c = true.
Proof. inversion 1; subst. eauto. Qed.

Lemma accepts_seq (r1 r2 : JS.regex) (s : string) :
  JS.accepts (JS.Seq r1 r2) s ->
  exists s1 s2, s = s1 ++ s2 /\ JS.accepts r1 s1 /\ JS.accepts r2 s2.
Proof. inversion 1; subst. eauto. Qed.

Lemma accepts_alt (r1 r2 : JS.regex) (s : string) :
  JS.accepts (JS.Alt r1 r2) s -> JS.accepts r1 s \/ JS.accepts r2 s.
Proof. inversion 1; subst; auto. Qed.

Lemma accepts_star (r : JS.regex) (s : string) :
  JS.accepts (JS.Star r) s ->
  s = "" \/ exists c s1 s2,
      s = String c s1 ++ s2 /\ JS.accepts r (String c s1) /\ JS.accepts (JS.Star r) s2.
Proof. inversion 1; subst; [left; reflexivity|right; eauto 6]. Qed.

Lemma nullable_accepts (r : JS.regex) : JS.nullable r = true <-> JS.accepts r "".
Proof.
  induction r as [| |p|r1 IH1 r2 IH2|r1 IH1 r2 IH2|r IH]; simpl.
  - split; [discriminate|intros H; destruct (accepts_void _ H)].
  - split; [constructor|reflexivity].
  - split; [discriminate|].
    intros H. apply accepts_class in H as (c & E & _). discriminate E.
  - rewrite andb_true_iff, IH1, IH2. split.
    + intros [H1 H2]. apply (JS.acc_seq r1 r2 "" "" H1 H2).
    + intros H. apply accepts_seq in H as (s1 & s2 & E & H1 & H2).
      symmetry in E. apply append_is_empty in E as [-> ->]. auto.
  - rewrite orb_true_iff, IH1, IH2. split.
    + intros [H|H]; [apply JS.acc_alt_l|apply JS.acc_alt_r]; exact H.
    + apply accepts_alt.
  - split; [constructor|reflexivity].
Qed.

Lemma accepts_seq_cons (r1 r2 : JS.regex) (c : ascii) (s : string) :
  JS.accepts (JS.Seq r1 r2) (String c s) ->
  (JS.accepts r1 "" /\ JS.accepts r2 (String c s))
  \/ exists s1 s2, s = s1 ++ s2 /\ JS.accepts r1 (String c s1) /\ JS.accepts r2 s2.
Proof.
  intros H. apply accepts_seq in H as (s1 & s2 & E & H1 & H2).
  destruct s1 as [|c1 s1].
  - rewrite append_empty_l in E. subst s2. left. auto.
  - rewrite append_cons in E. injection E as -> ->. right. eauto.
Qed.

Lemma deriv_accepts (r : JS.regex) (c : ascii) (s : string) :
  JS.accepts (JS.deriv c r) s <-> JS.accepts r (String c s).
Proof.
  revert s. induction r as [| |p|r1 IH1 r2 IH2|r1 IH1 r2 IH2|r IH]; intros s; simpl.
  - split; intros H; destruct (accepts_void _ H).
  - split; intros H; [destruct (accepts_void _ H)|].
    apply accepts_eps in H. discriminate H.
  - destruct (p c) eqn:E; split; intros H.
    + apply accepts_eps in H as ->. constructor. exact E.
    + apply accepts_class in H as (c' & [= -> ->] & _). constructor.
    + destruct (accepts_void _ H).
    + apply accepts_class in H as (c' & [= -> ->] & Hp). congruence.
  - assert (Hseq : JS.accepts (JS.Seq (JS.deriv c r1) r2) s <->
                   exists s1 s2, s = s1 ++ s2 /\ JS.accepts r1 (String c s1) /\ JS.accepts r2 s2).
    { split.
      - intros H. apply accepts_seq in H as (s1 & s2 & -> & H1 & H2).
        apply IH1 in H1. eauto.
      - intros (s1 & s2 & -> & H1 & H2). apply JS.acc_seq; [apply IH1; exact H1|exact H2]. }
    destruct (JS.nullable r1) eqn:N; split; intros H.
    + apply accepts_alt in H as [H|H].
      * apply Hseq in H as (s1 & s2 & -> & H1 & H2).
        apply (JS.acc_seq r1 r2 (String c s1) s2 H1 H2).
      * apply IH2 in H. apply nullable_accepts in N.
        apply (JS.acc_seq r1 r2 "" (String c s) N H).
    + apply accepts_seq_cons in H as [[_ H2]|H].
      * apply JS.acc_alt_r, IH2, H2.
      * apply JS.acc_alt_l, Hseq, H.
    + apply Hseq in H as (s1 & s2 & -> & H1 & H2).
      apply (JS.acc_seq r1 r2 (String c s1) s2 H1 H2).
    + apply accepts_seq_cons in H as [[H1 _]|H].
      * apply nullable_accepts in H1. congruence.
      * apply Hseq, H.
  - split; intros H; apply accepts_alt in H as [H|H];
      [apply JS.acc_alt_l, IH1, H|apply JS.acc_alt_r, IH2, H
      |apply JS.acc_alt_l, IH1, H|apply JS.acc_alt_r, IH2, H].
  - split; intros H.
    + apply accepts_seq in H as (s1 & s2 & -> & H1 & H2).
      apply IH in H1. apply (JS.acc_star_more r c s1 s2 H1 H2).
    + apply accepts_star in H as [E|(c1 & s1 & s2 & E & H1 & H2)]; [discriminate E|].
      rewrite append_cons in E. injection E as -> ->.
      apply JS.acc_seq; [apply IH; exact H1|exact H2].
Qed.

(** [matches] decides the patterns. *)
Lemma matches_accepts (r : JS.regex) (s : string) :
  JS.matches r s = true <-> JS.accepts r s.
Proof.
  revert r. induction s as [|c s IH]; intros r; simpl.
  - apply nullable_accepts.
  - rewrite IH. apply deriv_accepts.
Qed.

(** ** Numbers: integers above zero stay above zero *)

Lemma iter_pos_nat {A : Type} (f : A -> A) (n : positive) (x : A) :
  SpecFloat.iter_pos f n x = Nat.iter (Pos.to_nat n) f x.
Proof.
  revert x; induction n as [n IH|n IH|]; intros x; simpl SpecFloat.iter_pos.
  - rewrite !IH, Pos2Nat.inj_xI, <- Nat.iter_succ_r, <- Nat.iter_add.
    f_equal. lia.
  - rewrite !IH, Pos2Nat.inj_xO. rewrite <- Nat.iter_add. f_equal. lia.
  - reflexivity.
Qed.

Lemma shr_1_m (mrs : shr_record) :
  (0 <= shr_m mrs)%Z -> shr_m (shr_1 mrs) = (shr_m mrs / 2)%Z.
Proof.
  destruct mrs as [m r s]; cbn [shr_m]. intros Hm.
  destruct m as [|[p|p|]|p]; cbn [shr_1 shr_m]; try lia; try reflexivity.
  - rewrite Pos2Z.inj_xI. apply Z.div_unique with (r := 1%Z); lia.
  - rewrite Pos2Z.inj_xO. apply Z.div_unique with (r := 0%Z); lia.
Qed.

Lemma iter_shr_1_m (n : nat) (mrs : shr_record) :
  (0 <= shr_m mrs)%Z ->
  shr_m (Nat.iter n shr_1 mrs) = (shr_m mrs / 2 ^ Z.of_nat n)%Z.
Proof.
  intros Hm. induction n as [|n IH].
  - simpl. rewrite Z.div_1_r. reflexivity.
  - simpl Nat.iter. rewrite shr_1_m.
    + rewrite IH, Nat2Z.inj_succ, Z.pow_succ_r by lia.
      rewrite Z.div_div by lia. f_equal. lia.
    + rewrite IH. apply Z.div_pos; lia.
Qed.

Lemma digits2_pos_size (p : positive) : digits2_pos p = Pos.size p.
Proof. induction p; simpl; congruence. Qed.

Lemma digits2_pos_le (p : positive) :
  (2 ^ (Zpos (digits2_pos p) - 1) <= Zpos p)%Z.
Proof.
  rewrite digits2_pos_size.
  pose proof (Pos.size_le p) as H.
  assert (H2 : (2 ^ Zpos (Pos.size p) <= 2 * Zpos p)%Z).
  { change 2%Z with (Zpos 2) at 1. rewrite <- Pos2Z.inj_pow. lia. }
  replace (Zpos (Pos.size p)) with (Z.succ (Zpos (Pos.size p) - 1))%Z in H2 by lia.
  rewrite Z.pow_succ_r in H2 by lia. lia.
Qed.

Lemma shr_record_of_loc_m (m : Z) (l : location) :
  shr_m (shr_record_of_loc m l) = m.
Proof. destruct l as [|[]]; reflexivity. Qed.

(** Shifting a mantissa down to the precision never empties it. *)
Lemma shr_fexp_positive (m : positive) (e : Z) (l : location) :
  (emin JS.prec JS.emax <= e)%Z ->
  (0 < shr_m (fst (shr_fexp JS.prec JS.emax (Zpos m) e l)))%Z
  /\ (e <= snd (shr_fexp JS.prec JS.emax (Zpos m) e l))%Z.
Proof.
  intros He. unfold shr_fexp, shr.
  pose proof (digits2_pos_le m) as Hd.
  destruct (fexp JS.prec JS.emax (Zdigits2 (Z.pos m) + e) - e)%Z as [|k|k] eqn:Hn;
    cbn [fst snd]; rewrite ?shr_record_of_loc_m; try lia.
  rewrite iter_pos_nat, iter_shr_1_m by (rewrite shr_record_of_loc_m; lia).
  rewrite shr_record_of_loc_m, positive_nat_Z. split; [|lia].
  apply Z.div_str_pos. split; [apply Z.pow_pos_nonneg; lia|].
  etransitivity; [|exact Hd].
  apply Z.pow_le_mono_r; [lia|].
  revert Hn He. unfold fexp, emin, JS.prec, JS.emax. cbn [Zdigits2]. lia.
Qed.

Lemma round_nearest_even_positive (m : Z) (l : location) :
  (0 < m)%Z -> (0 < round_nearest_even m l)%Z.
Proof.
  intros Hm. destruct l as [|[]]; cbn [round_nearest_even]; try lia.
  destruct (Z.even m); lia.
Qed.

Lemma binary_round_aux_positive (m : positive) (e : Z) (l : location) :
  (emin JS.prec JS.emax <= e)%Z ->
  JS.isPositive (binary_round_aux JS.prec JS.emax false (Zpos m) e l) = true.
Proof.
  intros He. unfold binary_round_aux.
  destruct (shr_fexp_positive m e l He) as [H1 H1'].
  destruct (shr_fexp JS.prec JS.emax (Z.pos m) e l) as [mrs' e'] eqn:E1.
  cbn [fst snd] in H1, H1'.
  pose proof (round_nearest_even_positive _ (loc_of_shr_record mrs') H1) as H2.
  destruct (round_nearest_even (shr_m mrs') (loc_of_shr_record mrs')) as [|m2|m2];
    try lia.
  destruct (shr_fexp_positive m2 e' loc_Exact ltac:(lia)) as [H3 _].
  destruct (shr_fexp JS.prec JS.emax (Z.pos m2) e' loc_Exact) as [mrs'' e''].
  cbn [fst] in H3.
  destruct (shr_m mrs'') as [|m3|m3]; try lia.
  destruct (e'' <=? JS.emax - JS.prec)%Z; reflexivity.
Qed.

Lemma ofZ_positive (z : Z) : (0 < z)%Z -> JS.isPositive (JS.ofZ z) = true.
Proof.
  intros Hz. destruct z as [|p|p]; try lia.
  unfold JS.ofZ, binary_normalize, binary_round, shl_align.
  destruct (fexp JS.prec JS.emax (Z.pos (digits2_pos p) + 0) - 0)%Z eqn:E;
    apply binary_round_aux_positive;
    unfold fexp, emin, JS.prec, JS.emax in *; lia.
Qed.

Lemma lt_zero_ofZ (z : Z) : (0 < z)%Z -> JS.lt JS.zero (JS.ofZ z) = true.
Proof.
  intros Hz. pose proof (ofZ_positive z Hz) as H.
  destruct (JS.ofZ z) as [s|s| |s m e]; try destruct s; try discriminate; reflexivity.
Qed.

Lemma gt_zero_ofZ (z : Z) : (0 <= z)%Z -> JS.gt JS.zero (JS.ofZ z) = false.
Proof.
  intros Hz. destruct (Z.eq_dec z 0%Z) as [->|Hne]; [reflexivity|].
  pose proof (ofZ_positive z ltac:(lia)) as H.
  destruct (JS.ofZ z) as [s|s| |s m e]; try destruct s; try discriminate; reflexivity.
Qed.

(** ** The validator pipeline *)

Lemma forallb_one_false {A : Type} (f : A -> bool) (l : list A) (x : A) :
  In x l -> f x = false -> forallb f l = false.
Proof.
  induction l as [|y l IH]; simpl; [tauto|].
  intros [->|Hin] Hx.
  - rewrite Hx. reflexivity.
  - rewrite (IH Hin Hx). apply andb_false_r.
Qed.

Lemma loopBody_failure (value : string) (st : LoopState) (rule : Rule) :
  loopBody value st rule =
    {| ok_so_far := ok_so_far st && passes value rule;
       messages := messages st ++ option_list (failure value rule);
       called := called st ++ (if hasFunc rule then [name rule] else []) |}.
Proof.
  destruct st as [ok ms cs].
  unfold loopBody, passes, failure, hasFunc; simpl.
  destruct (func rule) as [f|]; simpl.
  - destruct (f value) as [[|] m|e]; simpl;
      rewrite ?andb_true_r, ?andb_false_r, ?app_nil_r; reflexivity.
  - rewrite andb_false_r, app_nil_r; reflexivity.
Qed.

Lemma fold_loopBody (value : string) (rules : list Rule) (st : LoopState) :
  fold_left (loopBody value) rules st =
    {| ok_so_far := ok_so_far st && forallb (passes value) rules;
       messages := messages st ++ omap (failure value) rules;
       called := called st ++ map name (List.filter hasFunc rules) |}.
Proof.
  revert st; induction rules as [|rule rules IH]; intros st; simpl.
  - destruct st; simpl; rewrite andb_true_r, !app_nil_r; reflexivity.
  - rewrite IH, loopBody_failure; simpl.
    rewrite <- andb_assoc, <- !app_assoc. f_equal.
    + destruct (failure value rule); reflexivity.
    + destruct (hasFunc rule); reflexivity.
Qed.

(** C5.  [validate()] on an unbound validator gives the failure
    [Field not bound].  On a bound one, with [value] the trimmed value of
    the field: every rule that has a function is called, in registration
    order, whatever the rules before it gave; [success] is the conjunction
    of the rules' outcomes; [message] is the failing rules' messages, in
    rule order, joined with ["; "]; and a rule that throws counts as a
    failure whose message carries the error text, the pipeline still
    returning a result. *)
Theorem validate_pipeline (rules : list Rule) (field : option string) :
  match field with
  | None =>
      validate rules field = {| success := false; message := "Field not bound" |}
  | Some v =>
      let value := JS.trim v in
      calledRules rules field = map name (List.filter hasFunc rules)
      /\ success (validate rules field) = forallb (passes value) rules
      /\ message (validate rules field) = JS.join "; " (omap (failure value) rules)
      /\ forall rule f e,
           In rule rules -> func rule = Some f -> f value = Thrown e ->
           passes value rule = false
           /\ failure value rule = Some ("Validation " ++ name rule ++ " failed: " ++ e)
           /\ success (validate rules field) = false
           /\ In ("Validation " ++ name rule ++ " failed: " ++ e)
                 (omap (failure value) rules)
  end.
Proof.
  destruct field as [v|]; [|reflexivity].
  cbv zeta. unfold calledRules, validate, runRules.
  rewrite fold_loopBody; simpl.
  split; [reflexivity|]. split; [reflexivity|]. split; [reflexivity|].
  intros rule f e Hin Hf He.
  assert (Hfail : failure (JS.trim v) rule =
                  Some ("Validation " ++ name rule ++ " failed: " ++ e)).
  { unfold failure. rewrite Hf, He. reflexivity. }
  assert (Hpass : passes (JS.trim v) rule = false).
  { unfold passes. rewrite Hfail. reflexivity. }
  split; [exact Hpass|]. split; [exact Hfail|]. split.
  - apply (forallb_one_false _ _ rule Hin Hpass).
  - apply list_elem_of_In, list_elem_of_omap. exists rule.
    split; [apply list_elem_of_In; exact Hin|exact Hfail].
Qed.

(** The pipeline on the example rules: the throwing rule and the rule
    without function fail with their texts, and the third rule still
    runs. *)
Lemma validate_pipeline_example :
  calledRules Example.rules (Some " ab ") = ["boom"; "minLen"]
  /\ success (validate Example.rules (Some " ab ")) = false
  /\ message (validate Example.rules (Some " ab ")) =
       "Validation boom failed: bad input; Validation later is not defined; Minimum name length is 4".
Proof.
  destruct (validate_pipeline Example.rules (Some " ab ")) as (Hc & Hs & Hm & _).
  rewrite Hc, Hs, Hm. vm_compute. repeat split.
Defined.

(** ** The numeric range validator *)

(** C9.  The validator of the age field, with the bounds 18 and 90. *)
Theorem age_range_validator :
  let age := NumScopeValidator "age" 18 90 in
  validate age (Some "17") = {| success := false; message := "Minimum age is 18" |}
  /\ (minRule "age" 18 "17" = Returned false (Some "Minimum age is 18")
      /\ maxRule "age" 90 "17" = Returned true None)
  /\ validate age (Some "91") = {| success := false; message := "Maximum age is 90" |}
  /\ (minRule "age" 18 "91" = Returned true None
      /\ maxRule "age" 90 "91" = Returned false (Some "Maximum age is 90"))
  /\ validate age (Some "18") = {| success := true; message := "" |}
  /\ validate age (Some "90") = {| success := true; message := "" |}
  /\ validate age (Some "abc") =
       {| success := false; message := "age must be a number; age must be a number" |}
  /\ (minRule "age" 18 "abc" = Returned false (Some "age must be a number")
      /\ maxRule "age" 90 "abc" = Returned false (Some "age must be a number"))
  /\ forall (fieldName : string) (minValue maxValue : Z) (value : string),
       JS.isNaN (JS.Number value) = true ->
       minRule fieldName minValue value =
         Returned false (Some (fieldName ++ " must be a number"))
       /\ maxRule fieldName maxValue value =
            Returned false (Some (fieldName ++ " must be a number")).
Proof.
  cbv zeta.
  do 8 (split; [try split; vm_compute; reflexivity|]).
  intros fieldName minValue maxValue value Hnan.
  unfold minRule, maxRule. rewrite Hnan. split; reflexivity.
Qed.

(** The general part of C9 at the value [abc]. *)
Lemma age_range_validator_example :
  minRule "age" 18 "abc" = Returned false (Some "age must be a number")
  /\ maxRule "age" 90 "abc" = Returned false (Some "age must be a number").
Proof.
  destruct age_range_validator as (_ & _ & _ & _ & _ & _ & _ & _ & H).
  apply (H "age" 18%Z 90%Z "abc"). vm_compute. reflexivity.
Defined.

(** C10.  A range with a minimum above zero, and a field whose value is
    empty or white space only: the rules see the empty text, which reads
    as the number zero; the min rule fails with its range message, the max
    rule passes, and the pipeline reports the min message alone. *)
Theorem blank_value_reads_as_zero
    (fieldName : string) (minValue maxValue : Z) (v : string) :
  (0 < minValue)%Z -> (minValue <= maxValue)%Z -> JS.trim v = "" ->
  JS.Number (JS.trim v) = JS.zero
  /\ minRule fieldName minValue (JS.trim v) =
       Returned false (Some ("Minimum " ++ fieldName ++ " is " ++ JS.showZ minValue))
  /\ maxRule fieldName maxValue (JS.trim v) = Returned true None
  /\ validate (NumScopeValidator fieldName minValue maxValue) (Some v) =
       {| success := false;
          message := "Minimum " ++ fieldName ++ " is " ++ JS.showZ minValue |}.
Proof.
  intros Hmin Hmax Hv.
  assert (Hmn : minRule fieldName minValue "" =
                Returned false (Some ("Minimum " ++ fieldName ++ " is " ++ JS.showZ minValue))).
  { unfold minRule. change (JS.Number "") with JS.zero.
    cbn [JS.isNaN JS.zero]. rewrite (lt_zero_ofZ minValue Hmin). reflexivity. }
  assert (Hmx : maxRule fieldName maxValue "" = Returned true None).
  { unfold maxRule. change (JS.Number "") with JS.zero.
    cbn [JS.isNaN JS.zero]. rewrite (gt_zero_ofZ maxValue) by lia. reflexivity. }
  rewrite Hv. split; [reflexivity|]. split; [exact Hmn|]. split; [exact Hmx|].
  unfold validate, runRules, NumScopeValidator. rewrite Hv.
  cbn [fold_left loopBody func name]. rewrite Hmn, Hmx. reflexivity.
Qed.

(** The age field left blank. *)
Lemma blank_value_reads_as_zero_witness :
  validate (NumScopeValidator "age" 18 90) (Some "   ") =
    {| success := false; message := "Minimum age is 18" |}.
Proof.
  destruct (blank_value_reads_as_zero "age" 18 90 "   ") as (_ & _ & _ & H);
    [lia | lia | reflexivity | exact H].
Defined.

(** ** The default comparator *)

Lemma isEmpty_true (s : string) : JS.isEmpty s = true <-> s = "".
Proof. destruct s; simpl; split; congruence. Qed.

Lemma isEmpty_false (s : string) : JS.isEmpty s = false <-> s <> "".
Proof. destruct s; simpl; split; congruence. Qed.

Lemma bothNumeric_numeric (normA normB : string) :
  bothNumeric normA normB = numeric normA && numeric normB.
Proof.
  unfold bothNumeric, numeric, numberOf.
  destruct (JS.isFinite _), (JS.isFinite _), (JS.matches _ normA), (JS.matches _ normB);
    reflexivity.
Qed.

(** Whatever the collator, the texts [1 0] and [5] are compared as
    strings: the pattern is tried on [1 0] with its inner space. *)
Lemma inner_space_is_not_numeric
    (localeCompare : string -> string -> JS.number) (sortType : JS.number) :
  _defaultComparator localeCompare "1 0" "5" sortType =
    JS.mul (localeCompare "1 0" "5") sortType.
Proof. reflexivity. Qed.

(** A digit string too long for a finite number matches the pattern and
    is compared as a string all the same. *)
Lemma overflow_is_not_numeric
    (localeCompare : string -> string -> JS.number) (sortType : JS.number) :
  JS.matches signedDecimal (Example.nines 310) = true
  /\ numberOf (Example.nines 310) = S754_infinity false
  /\ _defaultComparator localeCompare (Example.nines 310) "5" sortType =
       JS.mul (localeCompare (Example.nines 310) "5") sortType.
Proof.
  split; [vm_compute; reflexivity|]. split; [vm_compute; reflexivity|].
  unfold _defaultComparator.
  replace (bothNumeric (JS.trim (Example.nines 310)) (JS.trim "5")) with false
    by (vm_compute; reflexivity).
  replace (JS.isEmpty (JS.trim (Example.nines 310))) with false
    by (vm_compute; reflexivity).
  replace (JS.trim (Example.nines 310)) with (Example.nines 310)
    by (vm_compute; reflexivity).
  reflexivity.
Qed.

(** C3, as stated, fails: taken out the inner space, [1 0] and [5] both
    match the pattern, yet they are not compared as the numbers 10 and 5
    (ascending, that would be 5, above zero; the result is -1). *)
Lemma stripped_match_is_not_compared_numerically :
  numericStripped "1 0" "5" = true
  /\ _defaultComparator refCollator "1 0" "5" (JS.ofZ ASC) = JS.ofZ (-1)
  /\ JS.mul (JS.sub (numberOf "1 0") (numberOf "5")) (JS.ofZ ASC) = JS.ofZ 5
  /\ ~ comparedNumerically refCollator "1 0" "5" (JS.ofZ ASC).
Proof.
  split; [vm_compute; reflexivity|].
  split; [vm_compute; reflexivity|].
  split; [vm_compute; reflexivity|].
  unfold comparedNumerically. vm_compute. discriminate.
Qed.

(** C3, amended.  With [normA] and [normB] the trimmed texts: both empty
    give zero; one empty gives the sort type negated when it is the first
    text and the sort type itself when it is the second, so that the empty
    text sorts lower; when both trimmed texts, as they stand, match the
    signed-decimal pattern and their numbers (read after white space and
    commas are taken out) are finite, the result is the difference of the
    numbers times the sort type; in every other case it is the collator's
    result times the sort type.  For the sort types 1 and -1 the two
    results for an empty text are -1 and 1 times the sort type. *)
Theorem defaultComparator_cases
    (localeCompare : string -> string -> JS.number)
    (a b : string) (sortType : JS.number) :
  let normA := JS.trim a in
  let normB := JS.trim b in
  let result := _defaultComparator localeCompare a b sortType in
  (normA = "" -> normB = "" -> result = JS.zero)
  /\ (normA = "" -> normB <> "" -> result = JS.neg sortType)
  /\ (normA <> "" -> normB = "" -> result = sortType)
  /\ (normA <> "" -> normB <> "" ->
      numeric normA = true -> numeric normB = true ->
      result = JS.mul (JS.sub (numberOf normA) (numberOf normB)) sortType)
  /\ (normA <> "" -> normB <> "" ->
      numeric normA && numeric normB = false ->
      result = JS.mul (localeCompare normA normB) sortType)
  /\ (sortType = JS.ofZ ASC \/ sortType = JS.ofZ DESC ->
      JS.neg sortType = JS.mul (JS.ofZ (-1)) sortType
      /\ sortType = JS.mul (JS.ofZ 1) sortType).
Proof.
  cbv zeta. unfold _defaultComparator.
  repeat match goal with |- _ /\ _ => split end.
  - intros HA HB. rewrite HA, HB. reflexivity.
  - intros HA HB. apply isEmpty_false in HB. rewrite HA, HB. reflexivity.
  - intros HA HB. apply isEmpty_false in HA. rewrite HA, HB. reflexivity.
  - intros HA HB NA NB. apply isEmpty_false in HA, HB.
    rewrite HA, HB, bothNumeric_numeric, NA, NB. reflexivity.
  - intros HA HB N. apply isEmpty_false in HA, HB.
    rewrite HA, HB, bothNumeric_numeric, N. reflexivity.
  - intros [->| ->]; split; vm_compute; reflexivity.
Qed.

(** The comparator on the cell pairs [10], [9] and [Bob], [alice], and
    on an empty text, ascending and descending. *)
Lemma defaultComparator_cases_witness :
  _defaultComparator refCollator "10" "9" (JS.ofZ ASC) = JS.ofZ 1
  /\ _defaultComparator refCollator "Bob" "alice" (JS.ofZ ASC) = JS.ofZ 1
  /\ _defaultComparator refCollator " " "x" (JS.ofZ ASC) = JS.ofZ (-1)
  /\ _defaultComparator refCollator "x" "" (JS.ofZ DESC) = JS.ofZ (-1)
  /\ _defaultComparator refCollator "" " " (JS.ofZ DESC) = JS.zero.
Proof.
  split; [|split; [|split; [|split]]].
  - destruct (defaultComparator_cases refCollator "10" "9" (JS.ofZ ASC))
      as (_ & _ & _ & H & _).
    rewrite H; [vm_compute; reflexivity|discriminate|discriminate|reflexivity|reflexivity].
  - destruct (defaultComparator_cases refCollator "Bob" "alice" (JS.ofZ ASC))
      as (_ & _ & _ & _ & H & _).
    rewrite H; [vm_compute; reflexivity|discriminate|discriminate|reflexivity].
  - destruct (defaultComparator_cases refCollator " " "x" (JS.ofZ ASC))
      as (_ & H & _).
    rewrite H; [vm_compute; reflexivity|reflexivity|discriminate].
  - destruct (defaultComparator_cases refCollator "x" "" (JS.ofZ DESC))
      as (_ & _ & H & _).
    rewrite H; [vm_compute; reflexivity|discriminate|reflexivity].
  - destruct (defaultComparator_cases refCollator "" " " (JS.ofZ DESC))
      as (H & _).
    rewrite H; reflexivity.
Defined.

(** ** Sorting: the header classes and the rows *)

Lemma In_classRemove (c x : string) (l : list string) :
  In c (classRemove x l) <-> In c l /\ c <> x.
Proof.
  unfold classRemove. rewrite filter_In, negb_true_iff, String.eqb_neq.
  split; intros [H1 H2]; split; congruence.
Qed.

Lemma In_classAdd (c x : string) (l : list string) :
  In c (classAdd x l) <-> c = x \/ In c l.
Proof.
  unfold classAdd. destruct (existsb (String.eqb x) l) eqn:E.
  - apply existsb_exists in E as (y & Hy & Heq). apply String.eqb_eq in Heq.
    subst y. split; [tauto|]. intros [->|H]; assumption.
  - rewrite in_app_iff. simpl. split; [intros [H|[H|[]]]|intros [H|H]]; auto.
Qed.

Lemma In_cleaned (c : string) (classes : list string) :
  In c (fold_left (fun l x => classRemove x l) sortClasses classes)
  <-> In c classes /\ ~ In c sortClasses.
Proof.
  unfold sortClasses. cbn [fold_left]. rewrite !In_classRemove. simpl.
  split.
  - intros [[[H0 H1] H2] H3]. split; [assumption|]. intros [H|[H|[H|[]]]]; congruence.
  - intros [H0 H]. repeat split; try assumption; intros ->; apply H; auto.
Qed.

Lemma In_markHeader (st : SorterState) (i : nat) (classes : list string) (c : string) :
  In c sortClasses ->
  (In c (markHeader st i classes)
   <-> Z.of_nat i = COLUMN_INDEX st /\ c = STATE_CLASS (SORT st)).
Proof.
  intros Hc. unfold markHeader.
  destruct (Z.eqb_spec (Z.of_nat i) (COLUMN_INDEX st)) as [E|E].
  - rewrite In_classAdd, In_cleaned. tauto.
  - rewrite In_cleaned. tauto.
Qed.

Lemma STATE_CLASS_direction (st : SorterState) (i : nat) :
  sortStateOk st -> Z.of_nat i = COLUMN_INDEX st ->
  STATE_CLASS (SORT st) = "sorted-asc" \/ STATE_CLASS (SORT st) = "sorted-desc".
Proof.
  intros [[H _]|[_ [H|H]]] Hi; [lia| |]; rewrite H; [left|right]; reflexivity.
Qed.

Lemma In_markHeader_ok (st : SorterState) (i : nat) (classes : list string) (c : string) :
  sortStateOk st ->
  In c sortClasses ->
  (In c (markHeader st i classes)
   <-> Z.of_nat i = COLUMN_INDEX st
       /\ c = STATE_CLASS (SORT st)
       /\ (c = "sorted-asc" \/ c = "sorted-desc")).
Proof.
  intros Hok Hc. rewrite (In_markHeader _ _ _ _ Hc).
  split; [|intros (Hi & Hc' & _); split; assumption].
  intros [Hi ->]. split; [exact Hi|]. split; [reflexivity|].
  apply (STATE_CLASS_direction _ i Hok Hi).
Qed.

Lemma length_insertSorted {A : Type} (compare : A -> A -> JS.number) (x : A) (l : list A) :
  length (insertSorted compare x l) = S (length l).
Proof.
  induction l as [|y l IH]; simpl; [reflexivity|].
  destruct (goesAfter (compare x y)); simpl; congruence.
Qed.

Lemma length_sort {A : Type} (compare : A -> A -> JS.number) (l : list A) :
  length (sort compare l) = length l.
Proof.
  induction l as [|x l IH]; simpl; [reflexivity|].
  unfold sort in *. rewrite length_insertSorted. congruence.
Qed.

(** The sort loses no row and adds none. *)
Lemma insertSorted_Permutation {A : Type} (compare : A -> A -> JS.number) (x : A) (l : list A) :
  Permutation (insertSorted compare x l) (x :: l).
Proof.
  induction l as [|y l IH]; simpl; [reflexivity|].
  destruct (goesAfter (compare x y)); [|reflexivity].
  rewrite IH. apply perm_swap.
Qed.

Lemma sort_Permutation {A : Type} (compare : A -> A -> JS.number) (l : list A) :
  Permutation (sort compare l) l.
Proof.
  induction l as [|x l IH]; simpl; [reflexivity|].
  unfold sort in *. simpl. rewrite insertSorted_Permutation, IH. reflexivity.
Qed.

(** *** The table body under [after] *)

Lemma existsb_insertAfter (id origin new : nat) (row : list nat) :
  existsb (Nat.eqb id) row = true ->
  existsb (Nat.eqb id) (insertAfter origin new row) = true.
Proof.
  induction row as [|x row IH]; simpl; [discriminate|].
  intros H. destruct (x =? origin)%nat; simpl.
  - apply orb_true_iff in H as [H|H]; rewrite H, ?orb_true_r; reflexivity.
  - apply orb_true_iff in H as [H|H]; [rewrite H; reflexivity|].
    rewrite (IH H). apply orb_true_r.
Qed.

Lemma existsb_inserted (origin new : nat) (row : list nat) (i : nat) :
  indexOf origin row = Some i ->
  existsb (Nat.eqb new) (insertAfter origin new row) = true.
Proof.
  revert i. induction row as [|x row IH]; intros i; simpl; [discriminate|].
  destruct (x =? origin)%nat; simpl.
  - intros _. rewrite Nat.eqb_refl. apply orb_true_r.
  - destruct (indexOf origin row) as [j|]; [|discriminate].
    intros _. rewrite (IH j eq_refl). apply orb_true_r.
Qed.

Lemma hasParent_after_old (id origin new : nat) (g : State) :
  hasParent g id = true -> hasParent (after origin new g) id = true.
Proof.
  unfold hasParent, after. cbn [tbody setTbody].
  induction (tbody g) as [|row rows IH]; simpl; [discriminate|].
  intros H. apply orb_true_iff in H as [H|H].
  - rewrite (existsb_insertAfter _ _ _ _ H). reflexivity.
  - rewrite (IH H). apply orb_true_r.
Qed.

Lemma hasParent_after_new (origin new : nat) (g : State) (i : nat) :
  cellIndex g origin = Some i -> hasParent (after origin new g) new = true.
Proof.
  unfold hasParent, after, cellIndex. cbn [tbody setTbody].
  induction (tbody g) as [|row rows IH]; simpl; [discriminate|].
  destruct (indexOf origin row) as [j|] eqn:E.
  - intros _. rewrite (existsb_inserted _ _ _ _ E). reflexivity.
  - intros H. rewrite (IH H). apply orb_true_r.
Qed.

Section ControllerProperties.

Variable localeCompare : string -> string -> JS.number.
Variable formatCurrency : JS.number -> string.
Variable customComparators : list (Z * Comparator).

Local Abbreviation sortByColumn := (_sortByColumn localeCompare customComparators).
Local Abbreviation sortByColumnHandler := (_sortByColumnHandler localeCompare customComparators).
Local Abbreviation handleEvent := (handle localeCompare formatCurrency customComparators).
Local Abbreviation reachableState := (reachable localeCompare formatCurrency customComparators).

Lemma header_sortByColumn (columnIndex : option Z) (g : State) :
  header (sortByColumn columnIndex g) = imap (markHeader (_sorterState g)) (header g).
Proof. reflexivity. Qed.

Lemma length_tbody_sortByColumn (columnIndex : option Z) (g : State) :
  length (tbody (sortByColumn columnIndex g)) = length (tbody g).
Proof. unfold _sortByColumn. cbn. apply length_sort. Qed.

Lemma tbody_sortByColumn (columnIndex : option Z) (g : State) :
  Permutation (tbody (sortByColumn columnIndex g)) (tbody g).
Proof. unfold _sortByColumn. cbn. apply sort_Permutation. Qed.

(** C4, amended.  After a sort operation, on a page whose sort state is
    the initial one or a column with a direction (as it is at every call
    of the sort): a header cell carries one of the three sort classes
    exactly when it is the header cell of the active column and the class
    is the class of the current direction, which is [sorted-asc] or
    [sorted-desc].  So the active column's header cell carries its
    direction class and no other sort class, and every other header cell
    carries none of the three, [sorted-none] included. *)
Theorem sort_header_classes (columnIndex : option Z) (g : State)
    (i : nat) (classes : list string) (c : string) :
  sortStateOk (_sorterState g) ->
  header (sortByColumn columnIndex g) !! i = Some classes ->
  In c sortClasses ->
  (In c classes
   <-> Z.of_nat i = COLUMN_INDEX (_sorterState g)
       /\ c = STATE_CLASS (SORT (_sorterState g))
       /\ (c = "sorted-asc" \/ c = "sorted-desc")).
Proof.
  intros Hok. rewrite header_sortByColumn, list_lookup_imap.
  destruct (header g !! i) as [old|]; [|discriminate].
  intros [= <-] Hc. apply In_markHeader_ok; assumption.
Qed.


(** ** The sort state *)

Lemma sorterState_onCompleteCallback (g : State) :
  _sorterState (onCompleteCallback localeCompare customComparators g) = _sorterState g.
Proof.
  unfold onCompleteCallback. cbn.
  destruct (0 <=? COLUMN_INDEX (_sorterState g))%Z; reflexivity.
Qed.

Lemma sorterState_commit (ed : Editor.t) (target : nat) (v : string) (g : State) :
  _sorterState (stateOf (commit localeCompare customComparators ed target v g))
  = _sorterState g.
Proof.
  unfold commit. destruct (Editor.originElement ed) as [origin|]; [|reflexivity].
  cbn [stateOf]. destruct (Editor.onComplete ed);
    rewrite ?sorterState_onCompleteCallback; cbn; case_match; reflexivity.
Qed.

Lemma sorterState_complete (ed : Editor.t) (g : State) :
  _sorterState (stateOf (complete localeCompare customComparators ed g))
  = _sorterState g.
Proof.
  unfold complete.
  destruct (Editor.targetElement ed) as [target|]; [|reflexivity].
  destruct (firstChild g target) as [| |k]; try reflexivity.
  - apply sorterState_commit.
  - destruct (controls g !! k ≫= Control.validator) as [v|].
    + destruct (success (validateObject g v)); [apply sorterState_commit|reflexivity].
    + apply sorterState_commit.
Qed.

Lemma sorterState_newInlineEditor (target : option nat) (fields : list Field.t) (g : State) :
  _sorterState (stateOf (newInlineEditor target fields g)) = _sorterState g.
Proof.
  unfold newInlineEditor.
  destruct (configurationOf g fields target) as [[origin cfg]|]; [|reflexivity].
  destruct (buildTargetElement cfg) as [element|text]; [|reflexivity].
  cbn [stateOf]. destruct (Field.validator cfg); reflexivity.
Qed.

Lemma sorterState_onDblClick (target : option nat) (g : State) :
  _sorterState (stateOf (onDblClick localeCompare customComparators target g))
  = _sorterState g.
Proof.
  unfold onDblClick.
  assert (H : forall r : Result unit,
             _sorterState (stateOf r) = _sorterState g ->
             _sorterState (stateOf (bind r (fun _ g1 =>
                bind (newInlineEditor target FIELDS g1)
                  (fun ed g2 => Done tt (setActiveEditor (Some ed) g2)))))
             = _sorterState g).
  { intros [[] g1|t g1] Hr; cbn [bind stateOf] in *; [|exact Hr].
    pose proof (sorterState_newInlineEditor target FIELDS g1) as Hn.
    destruct (newInlineEditor target FIELDS g1) as [ed g2|t g2];
      cbn [bind stateOf setActiveEditor _sorterState] in *; congruence. }
  apply H. destruct (_activeEditor g) as [ed|]; [apply sorterState_complete|reflexivity].
Qed.


(** ** The form submission *)

Lemma fieldResults_setNotifications (n : list Notification) (g : State) (fields : list nat) :
  fieldResults (setNotifications n g) fields = fieldResults g fields.
Proof. reflexivity. Qed.

Lemma fieldResults_pushNotification (t d : string) (k : NotificationType)
    (g : State) (fields : list nat) :
  fieldResults (pushNotification t d k g) fields = fieldResults g fields.
Proof. reflexivity. Qed.

Lemma setNotifications_id (g : State) : setNotifications (notifications g) g = g.
Proof. destruct g; reflexivity. Qed.

Lemma fieldResults_cons (g : State) (field : nat) (fields : list nat) :
  fieldResults g (field :: fields) =
    match controls g !! field with
    | Some c =>
        match Control.validator c with
        | Some v => validateObject g v :: fieldResults g fields
        | None => fieldResults g fields
        end
    | None => fieldResults g fields
    end.
Proof.
  unfold fieldResults. simpl.
  destruct (controls g !! field) as [c|]; [|reflexivity].
  destruct (Control.validator c); reflexivity.
Qed.

Lemma fold_validateField (fields : list nat) (ok : bool) (g : State) :
  fold_left validateField fields (ok, g) =
    (ok && forallb success (fieldResults g fields),
     setNotifications (notifications g ++ failureNotices (fieldResults g fields)) g).
Proof.
  revert ok g. induction fields as [|field fields IH]; intros ok g.
  - cbn. rewrite andb_true_r, app_nil_r, setNotifications_id. reflexivity.
  - cbn [fold_left]. unfold validateField at 2. rewrite fieldResults_cons.
    destruct (controls g !! field) as [c|]; cbn [mbind option_bind];
      [destruct (Control.validator c) as [v|]|].
    + rewrite IH. unfold failureNotices. cbn [forallb List.filter].
      destruct (success (validateObject g v)) eqn:Hs; cbn [negb map].
      * rewrite andb_true_r. reflexivity.
      * unfold pushNotification. rewrite fieldResults_setNotifications.
        cbn [notifications setNotifications]. rewrite <- app_assoc.
        f_equal. destruct ok; reflexivity.
    + apply IH.
    + apply IH.
Qed.

Lemma failureNotices_none (results : list BaseValidationResult) :
  forallb success results = true -> failureNotices results = [].
Proof.
  unfold failureNotices. induction results as [|r rs IH]; cbn; [reflexivity|].
  intros [Hr Hrs]%andb_true_iff. rewrite Hr. cbn. apply IH, Hrs.
Qed.

Lemma failureNotices_some (results : list BaseValidationResult) :
  forallb success results = false -> failureNotices results <> [].
Proof.
  unfold failureNotices. induction results as [|r rs IH]; cbn; [discriminate|].
  destruct (success r); cbn; [exact IH|discriminate].
Qed.

(** Submitting the form, with [results] the outcomes of the validator
    objects that the form's fields carry, in field order; each outcome
    is that of the element the object is bound to at the time, which is
    the form's field only as long as no editor of the column was opened.
    When one of them fails, the page stays as it was but for the notifications: one
    [Validation failed] notice for every failing field, in field order,
    whatever the fields before it gave; no row is added.  When all
    succeed, one row is appended, built from the fields' values, and the
    success notice is shown. *)
Theorem saveEmployee_validates_all (g : State) :
  let results := fieldResults g (form g) in
  let g' := _saveEmployee localeCompare formatCurrency customComparators g in
  (forallb success results = false ->
   g' = setNotifications (notifications g ++ failureNotices results) g
   /\ failureNotices results <> []
   /\ tbody g' = tbody g
   /\ length (tbody g') = length (tbody g))
  /\ (forallb success results = true ->
      length (tbody g') = S (length (tbody g))
      /\ notifications g' = (notifications g ++ [successNotice])%list
      /\ cells g' =
           (cells g ++ map (fun t => {| Cell.text := t; Cell.classList := [];
                                        Cell.child := None |})
                           (_buildEmployeeRow formatCurrency g (form g)))%list).
Proof.
  cbv zeta. unfold _saveEmployee, validateEmployee.
  rewrite fold_validateField. cbn [andb].
  destruct (forallb success (fieldResults g (form g))) eqn:Hall; split;
    try discriminate; intros _.
  - rewrite (failureNotices_none _ Hall), app_nil_r.
    split; [|split].
    + cbn [reset setControls tbody]. rewrite length_tbody_sortByColumn.
      cbn. rewrite length_app. cbn. lia.
    + reflexivity.
    + reflexivity.
  - split; [reflexivity|]. split; [apply failureNotices_some, Hall|].
    split; reflexivity.
Qed.


(** ** Header clicks *)

Lemma sorterState_saveEmployee (g : State) :
  _sorterState (_saveEmployee localeCompare formatCurrency customComparators g)
  = _sorterState g.
Proof.
  unfold _saveEmployee, validateEmployee. rewrite fold_validateField.
  destruct (true && forallb success (fieldResults g (form g))); reflexivity.
Qed.

Lemma sorterState_handle (e : Event) (g : State) :
  _sorterState (stateOf (handleEvent e g)) =
    match e with
    | HeaderClick colIndex =>
        if (colIndex <? length (header g))%nat
        then clicked (_sorterState g) (Z.of_nat colIndex)
        else _sorterState g
    | _ => _sorterState g
    end.
Proof.
  destruct e as [colIndex|target|ctl v|ctl|ctl|]; cbn [handle].
  - destruct (colIndex <? length (header g))%nat; reflexivity.
  - apply sorterState_onDblClick.
  - reflexivity.
  - unfold onFocusOut. repeat case_match; try reflexivity.
    apply sorterState_complete.
  - unfold onKeydownEnter. repeat case_match; try reflexivity.
    rewrite sorterState_complete. reflexivity.
  - apply sorterState_saveEmployee.
Qed.

Lemma sortStateOk_clicked (st : SorterState) (colIndex : nat) :
  sortStateOk st -> sortStateOk (clicked st (Z.of_nat colIndex)).
Proof.
  intros H. right. unfold clicked.
  destruct (Z.eqb_spec (COLUMN_INDEX st) (Z.of_nat colIndex)) as [E|E]; cbn.
  - destruct H as [[H _]|[_ [H|H]]]; [lia| |]; rewrite H; split; try lia;
      [right|left]; reflexivity.
  - split; [lia|left; reflexivity].
Qed.

Lemma sorterState_addFormControl (acc : Built State) (field : Field.t) (g' : State) :
  addFormControl acc field = Ok g' ->
  exists g, acc = Ok g /\ _sorterState g' = _sorterState g.
Proof.
  unfold addFormControl. destruct acc as [g|t]; [|discriminate].
  destruct (formControl field) as [element|t]; [|discriminate].
  intros [= <-]. exists g. split; [reflexivity|].
  destruct (Field.validator field); reflexivity.
Qed.

Lemma sorterState_formControls (fields : list Field.t) (acc : Built State) (g' : State) :
  fold_left addFormControl fields acc = Ok g' ->
  exists g, acc = Ok g /\ _sorterState g' = _sorterState g.
Proof.
  revert acc. induction fields as [|field fields IH]; intros acc; cbn [fold_left].
  - intros ->. exists g'. split; reflexivity.
  - intros H. apply IH in H as (g1 & H1 & E1).
    apply sorterState_addFormControl in H1 as (g & -> & E).
    exists g. split; [reflexivity|congruence].
Qed.

Lemma sorterState_rows (rows : list (list string)) (g : State) :
  _sorterState (fold_left (fun g texts => appendRow texts g) rows g) = _sorterState g.
Proof.
  revert g. induction rows as [|r rows IH]; intros g; cbn [fold_left]; [reflexivity|].
  rewrite IH. reflexivity.
Qed.

Lemma sorterState_construct (headerClasses : list (list string))
    (rows : list (list string)) (g : State) :
  construct headerClasses rows = Ok g -> _sorterState g = initialState.
Proof.
  unfold construct. intros H.
  apply sorterState_formControls in H as (g0 & [= <-] & ->).
  apply sorterState_rows.
Qed.

Lemma reachable_sortStateOk (g : State) :
  reachableState g -> sortStateOk (_sorterState g).
Proof.
  induction 1 as [hs rows g H|e g Hg IH].
  - rewrite (sorterState_construct _ _ _ H). left. split; reflexivity.
  - rewrite sorterState_handle. destruct e; try exact IH.
    destruct (_ <? _)%nat; [apply sortStateOk_clicked|]; exact IH.
Qed.

Lemma COLUMN_INDEX_clicked (st : SorterState) (colIndex : Z) :
  COLUMN_INDEX (clicked st colIndex) = colIndex.
Proof.
  unfold clicked. destruct (Z.eqb_spec (COLUMN_INDEX st) colIndex); cbn; congruence.
Qed.

(** The header after a click on the header cell [colIndex] of a page the
    constructor built and events changed: that cell, and no other,
    carries a sort class, the class of the direction. *)
Lemma header_after_click (g : State) (colIndex i : nat)
    (classes : list string) (c : string) :
  reachableState g ->
  (colIndex < length (header g))%nat ->
  let g' := stateOf (handleEvent (HeaderClick colIndex) g) in
  header g' !! i = Some classes ->
  In c sortClasses ->
  (In c classes
   <-> i = colIndex
       /\ c = STATE_CLASS (SORT (_sorterState g'))
       /\ (c = "sorted-asc" \/ c = "sorted-desc")).
Proof.
  intros Hg Hc. cbv zeta. cbn [handle].
  apply Nat.ltb_lt in Hc. rewrite Hc. cbn [stateOf].
  unfold _sortByColumnHandler. rewrite header_sortByColumn, list_lookup_imap.
  cbn [_sorterState setSorterState header setSorterState].
  destruct (header g !! i) as [old|]; [|discriminate].
  intros [= <-] Hin.
  rewrite (In_markHeader_ok _ i old c
             (sortStateOk_clicked _ colIndex (reachable_sortStateOk g Hg)) Hin).
  rewrite COLUMN_INDEX_clicked.
  split; intros (Hi & H1 & H2); (split; [lia|split; assumption]).
Qed.

(** C7.  On a page the constructor built and any events changed since, a
    click on a header cell makes its column the active one; when the
    column was active already the direction flips between ascending and
    descending, otherwise it is ascending; the direction after a click is
    never [NONE]; and an active column never has the direction [NONE]. *)
Theorem header_click_cycle (g : State) (colIndex : nat) :
  reachableState g ->
  (colIndex < length (header g))%nat ->
  let st := _sorterState g in
  let st' := _sorterState (stateOf (handleEvent (HeaderClick colIndex) g)) in
  COLUMN_INDEX st' = Z.of_nat colIndex
  /\ (COLUMN_INDEX st = Z.of_nat colIndex ->
      (SORT st = ASC /\ SORT st' = DESC) \/ (SORT st = DESC /\ SORT st' = ASC))
  /\ (COLUMN_INDEX st <> Z.of_nat colIndex -> SORT st' = ASC)
  /\ (SORT st' = ASC \/ SORT st' = DESC)
  /\ SORT st' <> NONE
  /\ ((0 <= COLUMN_INDEX st)%Z -> SORT st = ASC \/ SORT st = DESC).
Proof.
  intros Hg Hc. cbv zeta.
  pose proof (reachable_sortStateOk g Hg) as Hok.
  rewrite sorterState_handle.
  apply Nat.ltb_lt in Hc. rewrite Hc. unfold clicked.
  destruct (Z.eqb_spec (COLUMN_INDEX (_sorterState g)) (Z.of_nat colIndex)) as [E|E];
    cbn [COLUMN_INDEX SORT].
  - destruct Hok as [[H _]|[_ [H|H]]]; [lia| |]; rewrite H;
      (repeat split; try assumption; try discriminate; try tauto;
       try (intros _; auto); auto).
  - repeat split; try reflexivity; try discriminate; try tauto; auto.
    intros H0. destruct Hok as [[H _]|[_ H]]; [lia|exact H].
Qed.


(** ** The inline editor *)

Lemma cells_onCompleteCallback (g : State) :
  cells (onCompleteCallback localeCompare customComparators g) = cells g.
Proof.
  unfold onCompleteCallback. cbn.
  destruct (0 <=? COLUMN_INDEX (_sorterState g))%Z; reflexivity.
Qed.

Lemma textContent_committed (ed : Editor.t) (target origin : nat) (v : string) (g : State) :
  Editor.originElement ed = Some origin ->
  is_Some (cells g !! origin) ->
  textContent (stateOf (commit localeCompare customComparators ed target v g)) origin = v.
Proof.
  intros Ho [c Hc]. unfold commit. rewrite Ho. cbn [stateOf].
  unfold textContent.
  assert (H : forall g', cells g' =
              alter (fun c => {| Cell.text := Cell.text c;
                                 Cell.classList := classRemove "hidden" (Cell.classList c);
                                 Cell.child := Cell.child c |}) origin
                (alter (fun c => {| Cell.text := v;
                                    Cell.classList := Cell.classList c;
                                    Cell.child := None |}) origin (cells g)) ->
              match cells g' !! origin with
              | Some c0 =>
                  match Cell.child c0 with
                  | Some k =>
                      match controls g' !! k with
                      | Some ctl => String.concat "" (Control.options ctl)
                      | None => ""
                      end
                  | None => Cell.text c0
                  end
              | None => ""
              end = v).
  { intros g' ->. rewrite !list_lookup_alter_eq, Hc. reflexivity. }
  apply H. destruct (Editor.onComplete ed);
    rewrite ?cells_onCompleteCallback; cbn; case_match; reflexivity.
Qed.

(** The early return of [complete()]: the validator of the target's
    control rejects. *)
Lemma complete_rejected
    (ed : Editor.t) (g : State) (target k v : nat) (ctl : Control.t) :
  Editor.targetElement ed = Some target ->
  firstChild g target = Element k ->
  controls g !! k = Some ctl ->
  Control.validator ctl = Some v ->
  success (validateObject g v) = false ->
  complete localeCompare customComparators ed g =
    Done tt (pushNotification "Validation failed" (message (validateObject g v))
               NOTIFICATION_TYPE_ERROR g).
Proof.
  intros Ht Hf Hk Hv Hs. unfold complete.
  rewrite Ht, Hf, Hk. cbn [mbind option_bind]. rewrite Hv, Hs. reflexivity.
Qed.

(** C6.  A completion attempt whose validator fails: the failure is
    pushed as a [Validation failed] notification and nothing else of the
    page changes; the control still sits in its container at its place in
    the table, every cell keeps its text, the active editor stays; a
    second attempt meets the same state; and once the control's value is
    edited so that the validator passes, completing writes that value to
    the origin cell. *)
Theorem complete_keeps_editing
    (ed : Editor.t) (g : State) (target k v : nat) (ctl : Control.t) :
  Editor.targetElement ed = Some target ->
  firstChild g target = Element k ->
  controls g !! k = Some ctl ->
  Control.validator ctl = Some v ->
  success (validateObject g v) = false ->
  let g' :=
    pushNotification "Validation failed" (message (validateObject g v))
      NOTIFICATION_TYPE_ERROR g in
  complete localeCompare customComparators ed g = Done tt g'
  /\ (header g' = header g /\ tbody g' = tbody g /\ cells g' = cells g
      /\ controls g' = controls g /\ form g' = form g
      /\ validators g' = validators g /\ _sorterState g' = _sorterState g
      /\ _activeEditor g' = _activeEditor g)
  /\ notifications g' = (notifications g ++ [failureNotice (validateObject g v)])%list
  /\ (firstChild g' target = Element k /\ hasParent g' target = hasParent g target)
  /\ (forall origin, textContent g' origin = textContent g origin)
  /\ complete localeCompare customComparators ed g' =
       Done tt (pushNotification "Validation failed" (message (validateObject g v))
                  NOTIFICATION_TYPE_ERROR g')
  /\ (forall (v' : string) (origin : nat),
        Editor.originElement ed = Some origin ->
        is_Some (cells g !! origin) ->
        let g'' := stateOf (handleEvent (Edit k v') g') in
        success (validateObject g'' v) = true ->
        textContent (stateOf (complete localeCompare customComparators ed g'')) origin = v').
Proof.
  intros Ht Hf Hk Hv Hs. cbv zeta.
  split; [apply (complete_rejected ed g target k v ctl); assumption|].
  split; [repeat split|].
  split; [reflexivity|].
  split; [split; [exact Hf|reflexivity]|].
  split; [reflexivity|].
  split.
  { exact (complete_rejected ed
             (pushNotification "Validation failed" (message (validateObject g v))
                NOTIFICATION_TYPE_ERROR g) target k v ctl Ht Hf Hk Hv Hs). }
  intros v' origin Ho Hcell. cbn [handle stateOf].
  set (g1 := pushNotification "Validation failed" (message (validateObject g v))
               NOTIFICATION_TYPE_ERROR g).
  set (g2 := setControls (alter (setValue v') k (controls g1)) g1).
  intros Hs'.
  assert (Hf2 : firstChild g2 target = Element k) by exact Hf.
  assert (Hk2 : controls g2 !! k = Some (setValue v' ctl)).
  { unfold g2, g1. cbn [controls setControls pushNotification setNotifications].
    rewrite list_lookup_alter_eq, Hk. reflexivity. }
  unfold complete. rewrite Ht, Hf2, Hk2.
  cbn [mbind option_bind fmap option_fmap option_map default].
  change (Control.validator (setValue v' ctl)) with (Control.validator ctl).
  rewrite Hv, Hs'.
  change (Control.value (setValue v' ctl)) with v'.
  apply textContent_committed; [exact Ho|exact Hcell].
Qed.

(** The validators read the controls' values only: taking the
    [focusout] listener off a control changes no outcome. *)
Lemma validateObject_setFocusout (b : bool) (k : nat) (g : State) (v : nat) :
  validateObject (setControls (alter (setFocusout b) k (controls g)) g) v
  = validateObject g v.
Proof.
  unfold validateObject. cbn [validators controls setControls].
  destruct (validators g !! v) as [o|]; [|reflexivity].
  destruct (BaseValidator._field o) as [c|]; [|reflexivity].
  f_equal. destruct (decide (k = c)) as [->|Hne].
  - rewrite list_lookup_alter_eq. destruct (controls g !! c); reflexivity.
  - rewrite list_lookup_alter_ne by exact Hne. reflexivity.
Qed.

(** The control loses focus and the validator rejects: the page is left
    as it was, with the failure notified. *)
Lemma focusout_rejected
    (ed : Editor.t) (g : State) (target k v : nat) (ctl : Control.t) :
  Control.editor ctl = Some ed ->
  Control.focusout ctl = true ->
  Editor.targetElement ed = Some target ->
  firstChild g target = Element k ->
  controls g !! k = Some ctl ->
  Control.validator ctl = Some v ->
  success (validateObject g v) = false ->
  handleEvent (FocusOut k) g =
    Done tt (pushNotification "Validation failed" (message (validateObject g v))
               NOTIFICATION_TYPE_ERROR g).
Proof.
  intros He Hfo Ht Hf Hk Hv Hs. cbn [handle]. unfold onFocusOut.
  rewrite Hk, He, Hfo.
  apply (complete_rejected ed g target k v ctl); assumption.
Qed.

(** [Enter] is pressed and the validator rejects: the control stays open
    and the failure is notified; the [focusout] listener, taken off
    before [complete()] ran, stays off, so the next attempt is by [Enter]
    again (the [keydown] listener stays). *)
Lemma enter_rejected
    (ed : Editor.t) (g : State) (target k v : nat) (ctl : Control.t) :
  Control.editor ctl = Some ed ->
  Editor.targetElement ed = Some target ->
  firstChild g target = Element k ->
  controls g !! k = Some ctl ->
  Control.validator ctl = Some v ->
  success (validateObject g v) = false ->
  let g1 := setControls (alter (setFocusout false) k (controls g)) g in
  handleEvent (KeydownEnter k) g =
    Done tt (pushNotification "Validation failed" (message (validateObject g v))
               NOTIFICATION_TYPE_ERROR g1)
  /\ Control.focusout <$> controls g1 !! k = Some false
  /\ Control.editor <$> controls g1 !! k = Some (Some ed)
  /\ tbody g1 = tbody g /\ cells g1 = cells g.
Proof.
  intros He Ht Hf Hk Hv Hs. cbv zeta.
  assert (Hk1 : controls (setControls (alter (setFocusout false) k (controls g)) g) !! k
                = Some (setFocusout false ctl)).
  { cbn [controls setControls]. rewrite list_lookup_alter_eq, Hk. reflexivity. }
  split; [|rewrite Hk1; cbn; rewrite He; repeat split].
  cbn [handle]. unfold onKeydownEnter. rewrite Hk, He.
  rewrite <- (validateObject_setFocusout false k g v).
  apply (complete_rejected ed _ target k v (setFocusout false ctl)); try assumption.
  rewrite validateObject_setFocusout. exact Hs.
Qed.

Lemma firstChild_alter_classList (f : list string -> list string) (origin id : nat) (g : State) :
  firstChild (setClassList origin f g) id = firstChild g id.
Proof.
  unfold firstChild, setClassList. cbn [cells setCells].
  destruct (decide (origin = id)) as [->|Hne].
  - rewrite list_lookup_alter_eq. destruct (cells g !! id); reflexivity.
  - rewrite list_lookup_alter_ne by exact Hne. reflexivity.
Qed.

Lemma firstChild_ext (g g' : State) (id : nat) :
  cells g' = cells g -> firstChild g' id = firstChild g id.
Proof. unfold firstChild. intros ->. reflexivity. Qed.

Lemma hasParent_ext (g g' : State) (id : nat) :
  tbody g' = tbody g -> hasParent g' id = hasParent g id.
Proof. unfold hasParent. intros ->. reflexivity. Qed.

(** What a successful [new InlineEditor] leaves: the editor object, the
    new container and its control, the origin hidden, the container
    behind the origin. *)
Lemma newInlineEditor_built
    (g : State) (fields : list Field.t) (origin : nat) (cfg : Field.t)
    (element : Control.t) :
  configurationOf g fields (Some origin) = Some (origin, cfg) ->
  buildTargetElement cfg = Ok element ->
  exists g',
    newInlineEditor (Some origin) fields g =
      Done {| Editor.originElement := Some origin;
              Editor.targetElement := Some (length (cells g));
              Editor.validator := Field.validator cfg;
              Editor.onComplete := true |} g'
    /\ cells g' =
         cells (setClassList origin (classAdd "hidden")
                  (setCells (cells g ++ [{| Cell.text := "";
                                            Cell.classList := ["container--cell-input"];
                                            Cell.child := Some (length (controls g)) |}]) g))
    /\ tbody g' = tbody (after origin (length (cells g)) g)
    /\ notifications g' = notifications g
    /\ _activeEditor g' = _activeEditor g.
Proof.
  intros Hcfg Hb. unfold newInlineEditor. rewrite Hcfg, Hb.
  eexists. split; [reflexivity|].
  destruct (Field.validator cfg); repeat split.
Qed.

(** The defect behind C1, in general: the active editor's validator
    rejects, and the double click hits a cell that has a field
    configuration.  The first container stays where it was, wrapping its
    control; the new container is put in as well; the active editor is
    the new one. *)
Lemma dblclick_after_rejection
    (ed : Editor.t) (g : State) (target k v : nat) (ctl : Control.t)
    (origin : nat) (cfg : Field.t) (element : Control.t) :
  _activeEditor g = Some ed ->
  Editor.targetElement ed = Some target ->
  firstChild g target = Element k ->
  controls g !! k = Some ctl ->
  Control.validator ctl = Some v ->
  success (validateObject g v) = false ->
  hasParent g target = true ->
  configurationOf g FIELDS (Some origin) = Some (origin, cfg) ->
  buildTargetElement cfg = Ok element ->
  let g' := stateOf (handleEvent (DblClick (Some origin)) g) in
  let target' := length (cells g) in
  (firstChild g' target = Element k /\ hasParent g' target = true)
  /\ (firstChild g' target' = Element (length (controls g))
      /\ hasParent g' target' = true)
  /\ target' <> target
  /\ _activeEditor g' =
       Some {| Editor.originElement := Some origin;
               Editor.targetElement := Some target';
               Editor.validator := Field.validator cfg;
               Editor.onComplete := true |}.
Proof.
  intros Ha Ht Hf Hk Hv Hs Hp Hcfg Hb. cbv zeta.
  assert (Hlt : (target < length (cells g))%nat).
  { unfold firstChild in Hf. destruct (cells g !! target) eqn:E; [|discriminate].
    apply lookup_lt_Some in E. exact E. }
  assert (Hidx : exists i, cellIndex g origin = Some i).
  { unfold configurationOf in Hcfg.
    destruct (cellIndex g origin) as [i|]; [eauto|discriminate]. }
  destruct Hidx as [i Hi].
  cbn [handle]. unfold onDblClick. rewrite Ha.
  rewrite (complete_rejected ed g target k v ctl Ht Hf Hk Hv Hs).
  cbn [bind].
  destruct (newInlineEditor_built
              (pushNotification "Validation failed" (message (validateObject g v))
                 NOTIFICATION_TYPE_ERROR g)
              FIELDS origin cfg element Hcfg Hb)
    as (g2 & -> & Hcells & Htbody & _ & _).
  cbn [bind stateOf].
  match type of Hcells with _ = cells ?x => set (gc := x) in Hcells end.
  match type of Htbody with _ = tbody ?x => set (gt := x) in Htbody end.
  split; [split|split; [split|split]].
  - transitivity (firstChild gc target); [apply firstChild_ext; exact Hcells|].
    unfold gc. rewrite firstChild_alter_classList.
    unfold firstChild in *. cbn [cells setCells pushNotification setNotifications].
    rewrite lookup_app_l by exact Hlt. exact Hf.
  - transitivity (hasParent gt target); [apply hasParent_ext; exact Htbody|].
    apply hasParent_after_old. exact Hp.
  - transitivity (firstChild gc (length (cells g)));
      [apply firstChild_ext; exact Hcells|].
    unfold gc. rewrite firstChild_alter_classList.
    unfold firstChild. cbn [cells setCells pushNotification setNotifications].
    rewrite lookup_app_r by lia. rewrite Nat.sub_diag. reflexivity.
  - transitivity (hasParent gt (length (cells g)));
      [apply hasParent_ext; exact Htbody|].
    eapply hasParent_after_new. exact Hi.
  - cbn [cells pushNotification setNotifications]. lia.
  - reflexivity.
Qed.
(** A double click on an element for which [FIELDS] has no entry, on a
    page without active editor: nothing is thrown and nothing changes but
    the active editor, which becomes the blank editor object. *)
Lemma dblclick_without_schema (g : State) (target : option nat) :
  _activeEditor g = None ->
  configurationOf g FIELDS target = None ->
  handleEvent (DblClick target) g = Done tt (setActiveEditor (Some blankEditor) g).
Proof.
  intros Ha Hc. cbn [handle]. unfold onDblClick, newInlineEditor.
  rewrite Ha. cbn [bind]. rewrite Hc. reflexivity.
Qed.

(** Completing the blank editor object pushes an [Error] notification. *)
Lemma complete_blankEditor (g : State) :
  complete localeCompare customComparators blankEditor g =
    Done tt (pushNotification "Error"
               "Cannot read properties of undefined (reading 'firstChild')"
               NOTIFICATION_TYPE_ERROR g).
Proof. reflexivity. Qed.

End ControllerProperties.

(** ** The pages of the examples *)

Lemma formControls_succeed (fields : list Field.t) (g : State) :
  Forall (fun field => exists c, formControl field = Ok c) fields ->
  exists g', fold_left addFormControl fields (Ok g) = Ok g'.
Proof.
  intros H. revert g. induction H as [|field fields [c Hc] _ IH]; intros g.
  - exists g. reflexivity.
  - cbn [fold_left]. unfold addFormControl at 2. rewrite Hc. apply IH.
Qed.

Lemma construct_succeeds (headerClasses : list (list string)) (rows : list (list string)) :
  construct headerClasses rows = Ok (built (construct headerClasses rows)).
Proof.
  destruct (formControls_succeed FIELDS
              (fold_left (fun g texts => appendRow texts g) rows
                 {| header := headerClasses; tbody := []; cells := []; controls := [];
                    form := []; validators := VALIDATORS; _sorterState := initialState;
                    _activeEditor := None; notifications := [] |})) as [g Hg].
  - unfold FIELDS. repeat constructor; eexists; reflexivity.
  - unfold construct. rewrite Hg. reflexivity.
Qed.

Lemma reachable_page :
  reachable refCollator Example.currency ourComparators Example.page.
Proof. eapply reach_construct. apply construct_succeeds. Qed.

Lemma reachable_events (es : list Event) (g : State) :
  reachable refCollator Example.currency ourComparators g ->
  reachable refCollator Example.currency ourComparators (Example.events es g).
Proof.
  revert g. induction es as [|e es IH]; intros g Hg; [exact Hg|].
  apply IH. apply reach_event. exact Hg.
Qed.

(** Salary column clicked, then the name column twice. *)
Lemma header_click_cycle_witness :
  let g := Example.events [HeaderClick 3; HeaderClick 0; HeaderClick 0] Example.page in
  COLUMN_INDEX (_sorterState g) = 0%Z /\ SORT (_sorterState g) = DESC.
Proof.
  cbv zeta.
  destruct (header_click_cycle refCollator Example.currency ourComparators
              (Example.events [HeaderClick 3; HeaderClick 0] Example.page) 0
              (reachable_events _ _ reachable_page)
              ltac:(vm_compute; lia)) as (Hc & Hflip & _).
  split; [exact Hc|].
  destruct Hflip as [[_ H]|[H _]]; [vm_compute; reflexivity|exact H|].
  vm_compute in H. discriminate H.
Defined.

(** C1, on the code.  An editor is opened on the name cell of the first
    row (cell 0, control 5, container 10) and the name is cut to [ab];
    the control loses focus and the validator rejects; a double click on
    the position cell of the second row (cell 6) then runs the first
    editor's completion, rejected again, and opens the second editor
    (control 6, container 11) all the same: both containers sit in the
    table body, each wrapping its control, and the controller's active
    editor is the second one. *)
Theorem two_editor_controls_coexist :
  let g := Example.events
             [DblClick (Some 0%nat); Edit 5 "ab"; FocusOut 5; DblClick (Some 6%nat)]
             Example.page in
  openControls g = [10; 11]%nat
  /\ tbody g = [[0; 10; 1; 2; 3; 4]; [5; 6; 11; 7; 8; 9]]%nat
  /\ _activeEditor g =
       Some {| Editor.originElement := Some 6%nat;
               Editor.targetElement := Some 11%nat;
               Editor.validator := Some 1%nat;
               Editor.onComplete := true |}
  /\ notifications g =
       [ {| title := "Validation failed"; description := "Minimum name length is 4";
            kind := NOTIFICATION_TYPE_ERROR |};
         {| title := "Validation failed"; description := "Minimum name length is 4";
            kind := NOTIFICATION_TYPE_ERROR |} ]
  /\ (firstChild g 10 = Element 5 /\ firstChild g 11 = Element 6)
  /\ (Control.value <$> controls g !! 5%nat = Some "ab"
      /\ Control.value <$> controls g !! 6%nat = Some "Tester").
Proof. cbv zeta. repeat (match goal with |- _ /\ _ => split end); vm_compute; reflexivity. Qed.

(** C2, on the code.  On an idle page, a double click on a cell whose
    index has no entry in [FIELDS] throws nothing, adds no control and no
    notification -- but the controller keeps the editor object that the
    constructor left blank as its active editor; at the next double
    click its [complete()] fails on the missing target and an [Error]
    notification is shown. *)
Theorem blank_editor_is_kept :
  let g := Example.events [DblClick (Some 5%nat)] Example.widePage in
  (_activeEditor Example.widePage = None /\ openControls Example.widePage = [])
  /\ (cellIndex Example.widePage 5 = Some 5%nat /\ FIELDS !! 5%nat = None)
  /\ (tbody g = tbody Example.widePage /\ openControls g = [] /\ notifications g = [])
  /\ _activeEditor g = Some blankEditor
  /\ notifications (Example.events [DblClick (Some 0%nat)] g) =
       [ {| title := "Error";
            description := "Cannot read properties of undefined (reading 'firstChild')";
            kind := NOTIFICATION_TYPE_ERROR |} ].
Proof. cbv zeta. repeat (match goal with |- _ /\ _ => split end); vm_compute; reflexivity. Qed.

(** C4, as stated, fails: on a page whose header cells all start with
    [sorted-none], a click on the first header cell leaves the other four
    without any sort class. *)
Lemma other_headers_lose_sorted_none :
  let g := Example.events [HeaderClick 0] Example.taggedPage in
  ~ headerAsStated (_sorterState g) (header g).
Proof.
  cbv zeta. intros H.
  specialize (H 1%nat [] ltac:(vm_compute; reflexivity)).
  vm_compute in H. exact H.
Qed.

(** The header after a click on the first header cell. *)
Lemma sort_header_classes_witness :
  let g := Example.events [HeaderClick 0] Example.taggedPage in
  header g = [["sorted-asc"]; []; []; []; []]
  /\ COLUMN_INDEX (_sorterState g) = 0%Z
  /\ "sorted-asc" = STATE_CLASS (SORT (_sorterState g)).
Proof.
  cbv zeta. split; [vm_compute; reflexivity|].
  destruct (sort_header_classes refCollator ourComparators (Some 0%Z)
              (setSorterState (clicked (_sorterState Example.taggedPage) 0)
                 Example.taggedPage)
              0 ["sorted-asc"] "sorted-asc") as [H _].
  - right. split; [vm_compute; discriminate|left; vm_compute; reflexivity].
  - vm_compute. reflexivity.
  - simpl. auto.
  - destruct (H (or_introl eq_refl)) as (Hi & Hc & _).
    split; [vm_compute; reflexivity|exact Hc].
Defined.

(** The name cut to [ab] in the editor of the first name cell. *)
Lemma complete_keeps_editing_witness :
  let g := Example.events [DblClick (Some 0%nat); Edit 5 "ab"] Example.page in
  let ed := {| Editor.originElement := Some 0%nat;
               Editor.targetElement := Some 10%nat;
               Editor.validator := Some 0%nat;
               Editor.onComplete := true |} in
  _activeEditor g = Some ed
  /\ notifications (stateOf (complete refCollator ourComparators ed g)) =
       [ {| title := "Validation failed"; description := "Minimum name length is 4";
            kind := NOTIFICATION_TYPE_ERROR |} ]
  /\ tbody (stateOf (complete refCollator ourComparators ed g)) = tbody g
  /\ tbody g = [[0; 10; 1; 2; 3; 4]; [5; 6; 7; 8; 9]]%nat.
Proof.
  cbv zeta. split; [vm_compute; reflexivity|].
  edestruct (complete_keeps_editing refCollator Example.currency ourComparators
               {| Editor.originElement := Some 0%nat;
                  Editor.targetElement := Some 10%nat;
                  Editor.validator := Some 0%nat;
                  Editor.onComplete := true |}
               (Example.events [DblClick (Some 0%nat); Edit 5 "ab"] Example.page)
               10 5 0) as (H & _).
  - reflexivity.
  - vm_compute. reflexivity.
  - vm_compute. reflexivity.
  - reflexivity.
  - vm_compute. reflexivity.
  - rewrite H. cbn [stateOf]. repeat (match goal with |- _ /\ _ => split end); vm_compute; reflexivity.
Defined.

(** A form with a short name and an age of 17, and a form that passes. *)
Lemma saveEmployee_validates_all_witness :
  let g := Example.events [Edit 0 "ab"; Edit 1 "Developer"; Edit 3 "17"; Edit 4 "900"]
             Example.page in
  let ok := Example.events [Edit 0 "Carol White"; Edit 1 "Manager"; Edit 3 "41"; Edit 4 "900"]
              Example.page in
  notifications (_saveEmployee refCollator Example.currency ourComparators g) =
    [ {| title := "Validation failed"; description := "Minimum name length is 4";
         kind := NOTIFICATION_TYPE_ERROR |};
      {| title := "Validation failed"; description := "Minimum age is 18";
         kind := NOTIFICATION_TYPE_ERROR |} ]
  /\ length (tbody (_saveEmployee refCollator Example.currency ourComparators g)) = 2%nat
  /\ length (tbody (_saveEmployee refCollator Example.currency ourComparators ok)) = 3%nat.
Proof.
  cbv zeta.
  destruct (saveEmployee_validates_all refCollator Example.currency ourComparators
              (Example.events [Edit 0 "ab"; Edit 1 "Developer"; Edit 3 "17"; Edit 4 "900"]
                 Example.page)) as [Hfail _].
  destruct (saveEmployee_validates_all refCollator Example.currency ourComparators
              (Example.events [Edit 0 "Carol White"; Edit 1 "Manager"; Edit 3 "41"; Edit 4 "900"]
                 Example.page)) as [_ Hok].
  destruct Hfail as (E & _ & _ & L); [vm_compute; reflexivity|].
  destruct Hok as (L' & _); [vm_compute; reflexivity|].
  split; [rewrite E; vm_compute; reflexivity|].
  split; [rewrite L; vm_compute; reflexivity|].
  rewrite L'. vm_compute. reflexivity.
Defined.

(** ** One validator object, two elements

    [FIELDS] holds one validator object per column; the form binds it to
    the form's control and every editor of that column binds it again, to
    the editor's control, and nothing binds it back. *)

(** C8.  An invalid field of the form that does not block the row.  On
    the page of the examples an editor is opened on a name cell and
    closed again, its name passing; then the form is filled in, with the
    name [ab]: two letters, where the name rule asks for four.  The
    form's name field carries the name validator, but the validator
    object is still bound to the editor's control, which has left the
    page: on submit the name rule reads [Bob Smith], no field fails, and
    a row with the name [ab] is added under the success notice. *)
Theorem invalid_form_name_is_saved :
  let g := Example.events
             [DblClick (Some 0%nat); FocusOut 5;
              Edit 0 "ab"; Edit 1 "Developer"; Edit 3 "30"; Edit 4 "900"]
             Example.page in
  let g' := Example.events [Submit] g in
  _activeEditor g = None
  /\ map (valueOf g) (form g) = ["ab"; "Developer"; "Tokyo"; "30"; "900"]
  /\ map Control.validator (take 5 (controls g)) =
       [Some 0; Some 1; None; Some 2; Some 3]%nat
  /\ success (validate (MinStrLenValidator "name" 4) (Some "ab")) = false
  /\ BaseValidator._field <$> validators g !! 0%nat = Some (Some 5%nat)
  /\ valueOf g 5 = "Bob Smith"
  /\ map success (fieldResults g (form g)) = [true; true; true; true]
  /\ tbody g = [[0; 1; 2; 3; 4]; [5; 6; 7; 8; 9]]%nat
  /\ tbody g' = [[0; 1; 2; 3; 4]; [5; 6; 7; 8; 9]; [11; 12; 13; 14; 15]]%nat
  /\ map (textContent g') [11; 12; 13; 14; 15]%nat =
       ["ab"; "Developer"; "Tokyo"; "30"; "$"]
  /\ notifications g' = (notifications g ++ [successNotice])%list.
Proof.
  cbv zeta. repeat (match goal with |- _ /\ _ => split end); vm_compute; reflexivity.
Qed.

(** The other way round: an editor on a name cell holds the rejected
    name [ab] and stays open; the form is filled in with values that all
    pass their rules.  On submit the name rule reads the editor's [ab]:
    the form is turned down with the name's message and no row is
    added. *)
Lemma valid_form_is_blocked_by_an_editor :
  let g := Example.events
             [DblClick (Some 0%nat); Edit 5 "ab"; FocusOut 5;
              Edit 0 "Carol White"; Edit 1 "Manager"; Edit 3 "41"; Edit 4 "900"]
             Example.page in
  let g' := Example.events [Submit] g in
  map (valueOf g) (form g) = ["Carol White"; "Manager"; "Tokyo"; "41"; "900"]
  /\ success (validate (MinStrLenValidator "name" 4) (Some "Carol White")) = true
  /\ BaseValidator._field <$> validators g !! 0%nat = Some (Some 5%nat)
  /\ valueOf g 5 = "ab"
  /\ tbody g' = tbody g
  /\ notifications g' =
       (notifications g ++
        [{| title := "Validation failed";
            description := "Minimum name length is 4";
            kind := NOTIFICATION_TYPE_ERROR |}])%list.
Proof.
  cbv zeta. repeat (match goal with |- _ /\ _ => split end); vm_compute; reflexivity.
Qed.

(** The same with the editor still open: the form's name field holds
    [ab], the name validator reads the editor's control, passes, and the
    submitted row carries the name [ab]. *)
Lemma rebound_validator_reads_the_editor :
  let g := Example.events
             [Edit 0 "ab"; Edit 1 "Developer"; Edit 3 "30"; Edit 4 "900";
              DblClick (Some 0%nat)] Example.page in
  let g' := Example.events [Submit] g in
  Control.value <$> controls g !! 0%nat = Some "ab"
  /\ BaseValidator._field <$> validators g !! 0%nat = Some (Some 5%nat)
  /\ Control.value <$> controls g !! 5%nat = Some "Bob Smith"
  /\ success (validateObject g 0) = true
  /\ tbody g' = [[0; 10; 1; 2; 3; 4]; [5; 6; 7; 8; 9]; [11; 12; 13; 14; 15]]%nat
  /\ map (textContent g') [11; 12; 13; 14; 15]%nat = ["ab"; "Developer"; "Tokyo"; "30"; "$"].
Proof.
  cbv zeta. repeat (match goal with |- _ /\ _ => split end); vm_compute; reflexivity.
Qed.

(** * Further properties

    What the scripts show beyond the statements above: the validators
    one by one, the money formatter and its settings, the comparators,
    row selection, and what the events keep and change. *)

(** ** Strings: trimming, stripping, scanning *)

Lemma trimEnd_idem (s : string) : JS.trimEnd (JS.trimEnd s) = JS.trimEnd s.
Proof.
  induction s as [|c r IH]; [reflexivity|].
  cbn [JS.trimEnd].
  destruct (JS.isWhiteSpace c && JS.isEmpty (JS.trimEnd r)) eqn:E; [reflexivity|].
  cbn [JS.trimEnd]. rewrite IH, E. reflexivity.
Qed.

Lemma trimStart_head (s : string) :
  JS.trimStart s = "" \/
  exists c r, JS.trimStart s = String c r /\ JS.isWhiteSpace c = false.
Proof.
  induction s as [|c r IH]; [left; reflexivity|].
  cbn [JS.trimStart]. destruct (JS.isWhiteSpace c) eqn:E; [exact IH|].
  right. exists c, r. split; [reflexivity|exact E].
Qed.

(** Trimming twice is trimming once. *)
Lemma trim_idem (s : string) : JS.trim (JS.trim s) = JS.trim s.
Proof.
  unfold JS.trim.
  destruct (trimStart_head s) as [->|(c & r & -> & Hc)]; [reflexivity|].
  cbn [JS.trimEnd]. rewrite Hc. cbn [andb JS.trimStart]. rewrite Hc.
  cbn [JS.trimEnd]. rewrite Hc. cbn [andb]. rewrite trimEnd_idem. reflexivity.
Qed.

(** ** Strings *)
Lemma append_empty_right (s : string) : s ++ "" = s.
Proof. induction s as [|c r IH]; [reflexivity|]. rewrite append_cons, IH. reflexivity. Qed.

Lemma append_associative (s t u : string) : (s ++ t) ++ u = s ++ (t ++ u).
Proof.
  induction s as [|c r IH]; [reflexivity|]. rewrite !append_cons, IH. reflexivity.
Qed.

Lemma every_app (p : ascii -> bool) (s t : string) :
  JS.every p (s ++ t) = JS.every p s && JS.every p t.
Proof.
  induction s as [|c r IH]; [reflexivity|].
  rewrite append_cons. cbn [JS.every]. rewrite IH, andb_assoc. reflexivity.
Qed.

Lemma every_impl (p q : ascii -> bool) (s : string) :
  (forall c, p c = true -> q c = true) -> JS.every p s = true -> JS.every q s = true.
Proof.
  intros Hpq. induction s as [|c r IH]; [reflexivity|].
  cbn [JS.every]. intros [Hc Hr]%andb_true_iff. rewrite (Hpq c Hc), (IH Hr). reflexivity.
Qed.

Lemma removeAll_app (cls : ascii -> bool) (s t : string) :
  JS.removeAll cls (s ++ t) = JS.removeAll cls s ++ JS.removeAll cls t.
Proof.
  induction s as [|c r IH]; [reflexivity|].
  rewrite append_cons. cbn [JS.removeAll]. destruct (cls c); [exact IH|].
  rewrite append_cons, IH. reflexivity.
Qed.

Lemma removeAll_kept (cls : ascii -> bool) (s : string) :
  JS.every (fun c => negb (cls c)) s = true -> JS.removeAll cls s = s.
Proof.
  induction s as [|c r IH]; [reflexivity|].
  cbn [JS.every JS.removeAll]. intros [Hc Hr]%andb_true_iff.
  apply negb_true_iff in Hc. rewrite Hc, (IH Hr). reflexivity.
Qed.

Lemma removeAll_dropped (cls : ascii -> bool) (s : string) :
  JS.every cls s = true -> JS.removeAll cls s = "".
Proof.
  induction s as [|c r IH]; [reflexivity|].
  cbn [JS.every JS.removeAll]. intros [Hc Hr]%andb_true_iff.
  rewrite Hc. exact (IH Hr).
Qed.

Lemma every_removeAll (cls : ascii -> bool) (s : string) :
  JS.every (fun c => negb (cls c)) (JS.removeAll cls s) = true.
Proof.
  induction s as [|c r IH]; [reflexivity|].
  cbn [JS.removeAll]. destruct (cls c) eqn:E; [exact IH|].
  cbn [JS.every]. rewrite E, IH. reflexivity.
Qed.

Lemma trimEnd_kept (s : string) :
  JS.every (fun c => negb (JS.isWhiteSpace c)) s = true -> JS.trimEnd s = s.
Proof.
  induction s as [|c r IH]; [reflexivity|].
  cbn [JS.every JS.trimEnd]. intros [Hc Hr]%andb_true_iff.
  apply negb_true_iff in Hc. rewrite Hc, (IH Hr). reflexivity.
Qed.

Lemma trim_kept (s : string) :
  JS.every (fun c => negb (JS.isWhiteSpace c)) s = true -> JS.trim s = s.
Proof.
  intros H. unfold JS.trim.
  replace (JS.trimStart s) with s; [apply trimEnd_kept, H|].
  destruct s as [|c r]; [reflexivity|].
  cbn [JS.every] in H. apply andb_true_iff in H as [Hc _].
  apply negb_true_iff in Hc. cbn [JS.trimStart]. rewrite Hc. reflexivity.
Qed.

(** ** Scanning *)
Lemma digit_notComma (c : ascii) : JS.isDigit c = true -> notComma c = true.
Proof.
  unfold notComma. destruct (Ascii.eqb_spec c ",") as [->|]; [discriminate|reflexivity].
Qed.

Lemma digit_kept (c : ascii) : JS.isDigit c = true -> negb (spaceOrComma c) = true.
Proof.
  destruct c as [[] [] [] [] [] [] [] []]; intros H; vm_compute in H |- *;
    first [reflexivity|discriminate H].
Qed.

Lemma digit_not_space (c : ascii) : JS.isDigit c = true -> negb (JS.isWhiteSpace c) = true.
Proof.
  destruct c as [[] [] [] [] [] [] [] []]; intros H; vm_compute in H |- *;
    first [reflexivity|discriminate H].
Qed.

Lemma amount_not_space (c : ascii) :
  negb (notAmountChar c) = true -> negb (JS.isWhiteSpace c) = true.
Proof.
  destruct c as [[] [] [] [] [] [] [] []]; intros H; vm_compute in H |- *;
    first [reflexivity|discriminate H].
Qed.

Lemma spanDigits_spec (s : string) :
  s = fst (JS.spanDigits s) ++ snd (JS.spanDigits s)
  /\ JS.every JS.isDigit (fst (JS.spanDigits s)) = true.
Proof.
  induction s as [|c r [IH1 IH2]]; [split; reflexivity|].
  cbn [JS.spanDigits]. destruct (JS.isDigit c) eqn:E.
  - destruct (JS.spanDigits r) as [d t]. cbn [fst snd] in *.
    rewrite append_cons, <- IH1. cbn [JS.every]. rewrite E, IH2. split; reflexivity.
  - split; reflexivity.
Qed.

Lemma spanDigits_app (d t : string) :
  JS.every JS.isDigit d = true ->
  match t with String c _ => JS.isDigit c = false | EmptyString => True end ->
  JS.spanDigits (d ++ t) = (d, t).
Proof.
  intros Hd Ht. induction d as [|c r IH].
  - rewrite append_empty_l. destruct t as [|c r]; [reflexivity|].
    cbn [JS.spanDigits]. rewrite Ht. reflexivity.
  - cbn [JS.every] in Hd. apply andb_true_iff in Hd as [Hc Hr].
    rewrite append_cons. cbn [JS.spanDigits]. rewrite Hc, (IH Hr). reflexivity.
Qed.

Lemma stripPrefix_app (p s r : string) :
  JS.stripPrefix p s = Some r -> s = p ++ r.
Proof.
  revert s. induction p as [|a p IH]; intros s; cbn [JS.stripPrefix].
  - intros [= ->]. reflexivity.
  - destruct s as [|b s]; [discriminate|].
    destruct (Ascii.eqb_spec a b) as [->|]; [|discriminate].
    intros H. rewrite append_cons, <- (IH s H). reflexivity.
Qed.

(** The sign in front of a literal. *)
Lemma sign_consumed (s : string) :
  exists (sg : bool) (p s1 : string),
    match s with
    | String "+" r => (false, r)
    | String "-" r => (true, r)
    | _ => (false, s)
    end = (sg, s1)
    /\ s = p ++ s1 /\ JS.every notComma p = true.
Proof.
  destruct s as [|c r]; [exists false, "", ""; repeat split|].
  destruct (Ascii.eqb_spec c "+") as [->|Hp];
    [exists false, "+", r; repeat split|].
  destruct (Ascii.eqb_spec c "-") as [->|Hm];
    [exists true, "-", r; repeat split|].
  exists false, "", (String c r). split; [|split; reflexivity].
  destruct c as [[] [] [] [] [] [] [] []]; try reflexivity;
    exfalso; first [apply Hp; reflexivity|apply Hm; reflexivity].
Qed.

(** The fraction of a literal. *)
Lemma fraction_consumed (ip r1 : string) :
  exists (fp r2 p : string),
    match r1 with
    | String "." t =>
        let '(f, t') := JS.spanDigits t in
        if JS.isEmpty ip && JS.isEmpty f then (EmptyString, r1) else (f, t')
    | _ => (EmptyString, r1)
    end = (fp, r2)
    /\ r1 = p ++ r2 /\ JS.every notComma p = true.
Proof.
  destruct r1 as [|c t]; [exists "", "", ""; repeat split|].
  destruct (Ascii.eqb_spec c ".") as [->|Hne].
  - destruct (spanDigits_spec t) as [H1 H2].
    destruct (JS.spanDigits t) as [f t'] eqn:E. cbn [fst snd] in *.
    destruct (JS.isEmpty ip && JS.isEmpty f) eqn:B.
    + exists "", (String "." t), "". repeat split.
    + exists f, t', (String "." f). split; [reflexivity|]. split.
      * rewrite append_cons, <- H1. reflexivity.
      * cbn [JS.every]. rewrite (every_impl _ _ _ digit_notComma H2). reflexivity.
  - exists "", (String c t), "".
    split; [|split; reflexivity].
    destruct c as [[] [] [] [] [] [] [] []]; try reflexivity. contradiction Hne. reflexivity.
Qed.

Lemma scanExponent_consumed (s : string) :
  exists p : string,
    s = p ++ snd (JS.scanExponent s) /\ JS.every notComma p = true.
Proof.
  unfold JS.scanExponent. destruct s as [|c r]; [exists ""; repeat split|].
  destruct (Ascii.eqb c "e" || Ascii.eqb c "E") eqn:E; [|exists ""; repeat split].
  assert (Hc : notComma c = true).
  { unfold notComma. destruct (Ascii.eqb_spec c ",") as [->|]; [discriminate|reflexivity]. }
  assert (Hs : exists (sg : bool) (p r1 : string),
             match r with
             | String "+" t => (false, t)
             | String "-" t => (true, t)
             | _ => (false, r)
             end = (sg, r1) /\ r = p ++ r1 /\ JS.every notComma p = true).
  { destruct r as [|k t]; [exists false, "", ""; repeat split|].
    destruct (Ascii.eqb_spec k "+") as [->|Hp];
      [exists false, "+", t; repeat split|].
    destruct (Ascii.eqb_spec k "-") as [->|Hm];
      [exists true, "-", t; repeat split|].
    exists false, "", (String k t). split; [|split; reflexivity].
    destruct k as [[] [] [] [] [] [] [] []]; try reflexivity;
      exfalso; first [apply Hp; reflexivity|apply Hm; reflexivity]. }
  destruct Hs as (sg & p & r1 & -> & Hr & Hp).
  destruct (spanDigits_spec r1) as [H1 H2].
  destruct (JS.spanDigits r1) as [d r2]. cbn [fst snd] in *.
  destruct (JS.isEmpty d); cbn [snd].
  - exists "". repeat split.
  - exists (String c (p ++ d)). split.
    + rewrite append_cons, append_associative, <- H1, <- Hr. reflexivity.
    + cbn [JS.every]. rewrite Hc, every_app, Hp, (every_impl _ _ _ digit_notComma H2).
      reflexivity.
Qed.

(** What [scanDecimal] consumes holds no comma. *)
Lemma scanDecimal_consumed (s : string) (v : JS.number) (r : string) :
  JS.scanDecimal s = Some (v, r) ->
  exists p : string, s = p ++ r /\ JS.every notComma p = true.
Proof.
  unfold JS.scanDecimal.
  destruct (sign_consumed s) as (sg & p0 & s1 & -> & Hs & Hp0).
  destruct (JS.stripPrefix "Infinity" s1) as [r'|] eqn:Einf.
  - intros [= _ <-]. apply stripPrefix_app in Einf.
    exists (p0 ++ "Infinity"). split.
    + rewrite append_associative, <- Einf. exact Hs.
    + rewrite every_app, Hp0. reflexivity.
  - destruct (spanDigits_spec s1) as [H1 H2].
    destruct (JS.spanDigits s1) as [ip r1]. cbn [fst snd] in *.
    destruct (fraction_consumed ip r1) as (fp & r2 & p2 & -> & Hr1 & Hp2).
    destruct (JS.isEmpty ip && JS.isEmpty fp); [discriminate|].
    destruct (scanExponent_consumed r2) as (p3 & Hr2 & Hp3).
    destruct (JS.scanExponent r2) as [ex r3]. cbn [snd] in *.
    intros [= _ <-].
    exists (p0 ++ ip ++ p2 ++ p3). split.
    + rewrite !append_associative, <- Hr2, <- Hr1, <- H1. exact Hs.
    + rewrite !every_app, Hp0, (every_impl _ _ _ digit_notComma H2), Hp2, Hp3. reflexivity.
Qed.

Lemma scanRadix_amount (s : string) :
  JS.every (fun c => negb (notAmountChar c)) s = true -> JS.scanRadix s = None.
Proof.
  destruct s as [|c [|k r]]; intros H.
  - reflexivity.
  - destruct c as [[] [] [] [] [] [] [] []]; reflexivity.
  - cbn [JS.every] in H. apply andb_true_iff in H as [_ H].
    apply andb_true_iff in H as [Hk _].
    assert (E : (if Ascii.eqb k "x" || Ascii.eqb k "X" then Some 16%Z
                 else if Ascii.eqb k "o" || Ascii.eqb k "O" then Some 8%Z
                 else if Ascii.eqb k "b" || Ascii.eqb k "B" then Some 2%Z
                 else None) = None).
    { destruct k as [[] [] [] [] [] [] [] []]; vm_compute in Hk |- *;
        first [reflexivity|discriminate Hk]. }
    unfold JS.scanRadix.
    destruct c as [[] [] [] [] [] [] [] []]; try reflexivity.
    rewrite E. reflexivity.
Qed.

(** A text of digits, commas, dots and minus signs that holds a comma
    is no number. *)
Lemma Number_with_comma (a b : string) :
  JS.every (fun c => negb (notAmountChar c)) (a ++ "," ++ b) = true ->
  JS.Number (a ++ "," ++ b) = JS.NaN.
Proof.
  intros H. unfold JS.Number.
  rewrite (trim_kept _ (every_impl _ _ _ amount_not_space H)).
  assert (Hne : JS.isEmpty (a ++ "," ++ b) = false).
  { destruct a; reflexivity. }
  rewrite Hne, (scanRadix_amount _ H).
  destruct (JS.scanDecimal (a ++ "," ++ b)) as [[v r]|] eqn:E; [|reflexivity].
  destruct r as [|c r]; [|reflexivity].
  apply scanDecimal_consumed in E as (p & Hp & Hc).
  rewrite append_empty_right in Hp. rewrite <- Hp, every_app in Hc.
  apply andb_true_iff in Hc as [_ Hc]. rewrite append_cons in Hc. discriminate Hc.
Qed.

Lemma digit_head (c : ascii) (r : string) :
  JS.isDigit c = true ->
  match String c r with
  | String "+" t => (false, t)
  | String "-" t => (true, t)
  | _ => (false, String c r)
  end = (false, String c r)
  /\ JS.stripPrefix "Infinity" (String c r) = None
  /\ JS.isWhiteSpace c = false.
Proof.
  destruct c as [[] [] [] [] [] [] [] []]; intros H; vm_compute in H;
    first [discriminate H|repeat split].
Qed.

(** A run of digits followed by a comma: the literal ends at the
    comma. *)
Lemma parseFloat_until_comma (d r : string) :
  d <> "" -> JS.every JS.isDigit d = true ->
  JS.parseFloat (d ++ "," ++ r) = JS.parseFloat d.
Proof.
  intros Hne Hd. destruct d as [|c d']; [contradiction Hne; reflexivity|].
  assert (Hc : JS.isDigit c = true).
  { cbn [JS.every] in Hd. apply andb_true_iff in Hd as [Hc _]. exact Hc. }
  unfold JS.parseFloat.
  rewrite append_cons.
  destruct (digit_head c (d' ++ "," ++ r) Hc) as (Hs1 & Hi1 & Hw).
  destruct (digit_head c d' Hc) as (Hs2 & Hi2 & _).
  cbn [JS.trimStart]. rewrite Hw.
  unfold JS.scanDecimal. rewrite Hs1, Hs2, Hi1, Hi2.
  rewrite <- append_cons.
  rewrite (spanDigits_app (String c d') ("," ++ r) Hd eq_refl).
  pose proof (spanDigits_app (String c d') "" Hd I) as E.
  rewrite append_empty_right in E. rewrite E.
  reflexivity.
Qed.

(** ** Decimal comma *)
Lemma accepts_digits (d : string) :
  d <> "" -> JS.every JS.isDigit d = true ->
  JS.accepts (JS.Plus (JS.Class JS.isDigit)) d.
Proof.
  intros Hne Hd. destruct d as [|c r]; [contradiction Hne; reflexivity|].
  cbn [JS.every] in Hd. apply andb_true_iff in Hd as [Hc Hr].
  unfold JS.Plus. change (String c r) with (String c "" ++ r).
  apply JS.acc_seq; [apply JS.acc_class; exact Hc|].
  clear Hne c Hc. induction r as [|c r IH]; [apply JS.acc_star_nil|].
  cbn [JS.every] in Hr. apply andb_true_iff in Hr as [Hc Hr].
  change (String c r) with (String c "" ++ r).
  apply JS.acc_star_more; [apply JS.acc_class; exact Hc|apply IH, Hr].
Qed.

Lemma matches_digits (d : string) :
  d <> "" -> JS.every JS.isDigit d = true -> JS.matches signedDecimal d = true.
Proof.
  intros Hne Hd. apply matches_accepts. unfold signedDecimal.
  rewrite <- (append_empty_l d). apply JS.acc_seq; [apply JS.acc_alt_r, JS.acc_eps|].
  rewrite <- (append_empty_right d). apply JS.acc_seq; [apply accepts_digits; assumption|].
  apply JS.acc_alt_r, JS.acc_eps.
Qed.

Lemma matches_decimal_comma (i f : string) :
  i <> "" -> JS.every JS.isDigit i = true ->
  f <> "" -> JS.every JS.isDigit f = true ->
  JS.matches signedDecimal (i ++ "," ++ f) = true.
Proof.
  intros Hi Hdi Hf Hdf. apply matches_accepts. unfold signedDecimal.
  rewrite <- (append_empty_l (i ++ "," ++ f)).
  apply JS.acc_seq; [apply JS.acc_alt_r, JS.acc_eps|].
  apply JS.acc_seq; [apply accepts_digits; assumption|].
  apply JS.acc_alt_l. apply JS.acc_seq; [|apply accepts_digits; assumption].
  apply JS.acc_alt_r. apply JS.acc_class. reflexivity.
Qed.

(** ** The validators one by one *)




(** X2.  [validate()] sees the trimmed value only: a field whose value
    is already trimmed gives the same result as the field with white
    space around that value. *)
Theorem validate_reads_trimmed (rules : list Rule) (v : string) :
  validate rules (Some (JS.trim v)) = validate rules (Some v).
Proof. unfold validate. rewrite trim_idem. reflexivity. Qed.

Lemma isEmpty_length (s : string) :
  JS.isEmpty s = (String.length s =? 0)%nat.
Proof. destruct s; reflexivity. Qed.

(** X3.  The minimum-length validator accepts a field exactly when its
    trimmed value has at least [minLenValue] code units and at least one:
    white space around the value does not count, and an empty value is
    rejected whatever the minimum.  A rejection carries the text
    [Minimum <field> length is <minimum>]. *)
Theorem minStrLen_accepts (fieldName : string) (minLenValue : Z) (v : string) :
  validate (MinStrLenValidator fieldName minLenValue) (Some v) =
    if (Z.max 1 minLenValue <=? Z.of_nat (String.length (JS.trim v)))%Z
    then {| success := true; message := "" |}
    else {| success := false;
            message := "Minimum " ++ fieldName ++ " length is " ++ JS.showZ minLenValue |}.
Proof.
  unfold validate, runRules, MinStrLenValidator.
  cbn [fold_left loopBody func name].
  rewrite isEmpty_length.
  destruct (String.length (JS.trim v)) as [|n] eqn:E.
  - cbn [Nat.eqb orb]. destruct (Z.leb_spec (Z.max 1 minLenValue) (Z.of_nat 0)); [lia|].
    reflexivity.
  - cbn [Nat.eqb orb].
    destruct (Z.ltb_spec (Z.of_nat (S n)) minLenValue),
             (Z.leb_spec (Z.max 1 minLenValue) (Z.of_nat (S n))); try lia; reflexivity.
Qed.

(** X4.  The not-empty validator accepts a field exactly when its value
    is not blank (the rule trims what [validate()] has trimmed already);
    a rejection carries the text [Field ' <field> should not be empty]. *)
Theorem notEmpty_accepts (fieldName : string) (v : string) :
  validate (NotEmptyValidator fieldName) (Some v) =
    if JS.isEmpty (JS.trim v)
    then {| success := false;
            message := "Field ' " ++ fieldName ++ " should not be empty" |}
    else {| success := true; message := "" |}.
Proof.
  unfold validate, runRules, NotEmptyValidator.
  cbn [fold_left loopBody func name notEmpty].
  rewrite trim_idem. destruct (JS.isEmpty (JS.trim v)); reflexivity.
Qed.

Lemma age_validator_checked :
  forallb (fun n =>
             Bool.eqb
               (success (validate (NumScopeValidator "age" 18 90)
                           (Some (JS.showZ (Z.of_nat n - 50)))))
               ((18 <=? Z.of_nat n - 50)%Z && (Z.of_nat n - 50 <=? 90)%Z))
          (seq 0 251) = true.
Proof. vm_compute. reflexivity. Qed.

(** X5.  The age validator on whole numbers written in decimal, from -50
    to 200: it accepts exactly those from 18 to 90. *)
Theorem age_validator_on_whole_numbers (z : Z) :
  (-50 <= z <= 200)%Z ->
  success (validate (NumScopeValidator "age" 18 90) (Some (JS.showZ z))) =
    ((18 <=? z)%Z && (z <=? 90)%Z).
Proof.
  intros Hz. pose proof age_validator_checked as H.
  rewrite forallb_forall in H.
  specialize (H (Z.to_nat (z + 50))).
  replace (Z.of_nat (Z.to_nat (z + 50)) - 50)%Z with z in H by lia.
  apply Bool.eqb_prop, H, in_seq. lia.
Qed.

(** The age 42. *)
Lemma age_validator_on_whole_numbers_witness :
  success (validate (NumScopeValidator "age" 18 90) (Some "42")) = true.
Proof. apply (age_validator_on_whole_numbers 42). lia. Defined.

(** ** The money formatter *)

(** X6.  A text that holds a comma is returned as it is: the comma stays
    in what is handed to [Number], which reads [NaN].  So [1,000] is not
    formatted. *)
Theorem format_keeps_value_with_comma
    (formatCurrency : JS.number -> string) (a b : string) :
  format formatCurrency (a ++ "," ++ b) = a ++ "," ++ b.
Proof.
  unfold format.
  assert (Hne : JS.isEmpty (a ++ "," ++ b) = false) by (destruct a; reflexivity).
  rewrite Hne, !removeAll_app.
  change (JS.removeAll notAmountChar ",") with ",".
  rewrite Number_with_comma; [reflexivity|].
  rewrite !every_app, !every_removeAll. reflexivity.
Qed.

(** X7.  A text that is not empty and holds no digit, comma, dot or
    minus sign is formatted as the number zero: nothing is left of it for
    [Number], and the empty text reads as zero. *)
Theorem format_without_amount_is_zero
    (formatCurrency : JS.number -> string) (value : string) :
  value <> "" -> JS.every notAmountChar value = true ->
  format formatCurrency value = formatCurrency JS.zero.
Proof.
  intros Hne H. unfold format.
  destruct value as [|c r]; [contradiction Hne; reflexivity|].
  cbn [JS.isEmpty]. rewrite (removeAll_dropped _ _ H). reflexivity.
Qed.

(** The text [n/a]. *)
Lemma format_without_amount_is_zero_witness :
  format Example.currency "n/a" = Example.currency JS.zero.
Proof.
  apply format_without_amount_is_zero; [discriminate|reflexivity].
Defined.

(** ** The money formatter's settings *)
Lemma get_set (k k' : string) (v : Money.Value) (o : Money.Options) :
  Money.get k (Money.set k' v o) = if String.eqb k' k then v else Money.get k o.
Proof.
  induction o as [|[k0 v0] o IH]; cbn [Money.set Money.get].
  - destruct (String.eqb k' k); reflexivity.
  - destruct (String.eqb_spec k0 k') as [->|Hne]; cbn [Money.get].
    + destruct (String.eqb k' k); reflexivity.
    + rewrite IH. destruct (String.eqb_spec k0 k) as [->|Hk]; [|reflexivity].
      apply String.eqb_neq in Hne. rewrite String.eqb_sym, Hne. reflexivity.
Qed.

Lemma get_app (k : string) (a b : Money.Options) :
  Money.get k (a ++ b)%list = if Money.has k a then Money.get k a else Money.get k b.
Proof.
  induction a as [|[k0 v0] a IH]; [reflexivity|].
  cbn [app Money.get Money.has]. destruct (String.eqb k0 k); [reflexivity|exact IH].
Qed.

Lemma has_app (k : string) (a b : Money.Options) :
  Money.has k (a ++ b)%list = Money.has k a || Money.has k b.
Proof.
  induction a as [|[k0 v0] a IH]; [reflexivity|].
  cbn [app Money.has]. rewrite IH, orb_assoc. reflexivity.
Qed.

Lemma has_rev (k : string) (o : Money.Options) :
  Money.has k (rev o) = Money.has k o.
Proof.
  induction o as [|[k0 v0] o IH]; [reflexivity|].
  cbn [rev Money.has]. rewrite has_app, IH. cbn [Money.has].
  rewrite orb_false_r, orb_comm. reflexivity.
Qed.

Lemma get_spread (k : string) (a b : Money.Options) :
  Money.get k (Money.spread a b) =
    if Money.has k b then Money.get k (rev b) else Money.get k a.
Proof.
  unfold Money.spread. revert a.
  induction b as [|[k0 v0] b IH]; intros a; [reflexivity|].
  cbn [fold_left fst snd rev Money.has]. rewrite IH, get_app, has_rev, get_set.
  cbn [Money.get]. destruct (Money.has k b); [rewrite orb_true_r; reflexivity|].
  rewrite orb_false_r. destruct (String.eqb k0 k); reflexivity.
Qed.

(** X8.  After [setConfig]: an option the argument names reads as the
    argument gives it (for a string argument that is [currency] alone),
    every other option reads as before; but [style], when it would read
    falsy after the merge, reads [currency].  So [style] is truthy after
    every call; the cache key is reset and the locale is kept. *)
Theorem setConfig_options (configOrCurrency : Money.ConfigArg) (st : Money.Statics)
    (k : string) :
  let o := Money.given configOrCurrency in
  let merged := fun k =>
    if Money.has k o then Money.get k (rev o) else Money.get k (Money.config st) in
  let st' := Money.setConfig configOrCurrency st in
  Money.get k (Money.config st') =
    (if String.eqb k "style" && negb (Money.truthy (merged "style"))
     then Money.Str "currency" else merged k)
  /\ Money.truthy (Money.get "style" (Money.config st')) = true
  /\ Money._cacheKey st' = ""
  /\ Money.locale st' = Money.locale st.
Proof.
  cbv zeta.
  set (c1 := match configOrCurrency with
             | Money.Currency c => Money.set "currency" (Money.Str c) (Money.config st)
             | Money.Partial o => Money.spread (Money.config st) o
             | Money.Neither => Money.config st
             end).
  assert (H1 : forall k, Money.get k c1 =
            if Money.has k (Money.given configOrCurrency)
            then Money.get k (rev (Money.given configOrCurrency))
            else Money.get k (Money.config st)).
  { intros k'. unfold c1. destruct configOrCurrency as [c|o|]; cbn [Money.given].
    - rewrite get_set. cbn [rev app Money.has Money.get].
      destruct (String.eqb "currency" k'); reflexivity.
    - apply get_spread.
    - reflexivity. }
  unfold Money.setConfig. fold c1. cbn [Money.config Money._cacheKey Money.locale].
  rewrite <- !H1.
  destruct (Money.truthy (Money.get "style" c1)) eqn:T; cbn [negb].
  - rewrite andb_false_r, T. repeat split.
  - rewrite andb_true_r, !get_set. rewrite (String.eqb_sym k).
    split; [reflexivity|]. repeat split.
Qed.

Section Cache.

Variable stringify : Money.Options -> string.
Variable rangeError : string -> Money.Options -> option string.
Variable formatNumber : Money.NumberFormat -> JS.number -> string.

Local Abbreviation getFormatter := (Money._getFormatter stringify rangeError).
Local Abbreviation cacheOk := (Money.cacheOk stringify rangeError).

(** A cache key is never the empty text, to which the setters reset
    [_cacheKey]. *)
Lemma keyOf_not_empty (st : Money.Statics) : "" <> Money.keyOf stringify st.
Proof.
  unfold Money.keyOf. destruct (Money.locale st); discriminate.
Qed.

Lemma cacheOk_reset (l : string) (c : Money.Options) (f : option Money.NumberFormat) :
  cacheOk {| Money.locale := l; Money.config := c;
             Money._formatter := f; Money._cacheKey := "" |}.
Proof. intros H. contradiction (keyOf_not_empty _ H). Qed.

Lemma cacheOk_getFormatter (st : Money.Statics) :
  cacheOk st -> cacheOk (Money.fieldsAfter (getFormatter st)).
Proof.
  intros H. unfold Money._getFormatter.
  destruct (String.eqb_spec (Money._cacheKey st) (Money.keyOf stringify st)) as [E|E];
    cbn [negb]; [exact H|].
  destruct (rangeError (Money.locale st) (Money.config st)) eqn:R; [exact H|].
  intros _. split; [reflexivity|exact R].
Qed.

Lemma cacheOk_formatted (number : JS.number) (st : Money.Statics) :
  cacheOk st ->
  cacheOk (Money.fieldsAfter (Money.formatted stringify rangeError formatNumber number st)).
Proof.
  intros H. apply cacheOk_getFormatter in H. unfold Money.formatted.
  destruct (getFormatter st) as [[f|] st'|t st']; exact H.
Qed.

Lemma cacheOk_call (c : Money.Call) (st : Money.Statics) :
  cacheOk st -> cacheOk (Money.call stringify rangeError formatNumber c st).
Proof.
  intros H. destruct c as [l|a|value]; cbn [Money.call].
  - apply cacheOk_reset.
  - apply cacheOk_reset.
  - unfold Money.format. destruct value as [| |b|x|s]; try exact H.
    + destruct (JS.isFinite x); [apply cacheOk_formatted, H|exact H].
    + destruct (JS.isEmpty s); [exact H|].
      destruct (JS.isFinite _); [apply cacheOk_formatted, H|exact H].
Qed.

Lemma cacheOk_calls (cs : list Money.Call) (st : Money.Statics) :
  cacheOk st -> cacheOk (Money.calls stringify rangeError formatNumber cs st).
Proof.
  revert st. induction cs as [|c cs IH]; intros st H; [exact H|].
  apply IH, cacheOk_call, H.
Qed.

Lemma getFormatter_cacheOk (st : Money.Statics) :
  cacheOk st ->
  getFormatter st =
    match rangeError (Money.locale st) (Money.config st) with
    | Some text => Money.Throws text st
    | None =>
        Money.Returns
          (Some {| Money.nfLocale := Money.locale st; Money.nfOptions := Money.config st |})
          {| Money.locale := Money.locale st; Money.config := Money.config st;
             Money._formatter :=
               Some {| Money.nfLocale := Money.locale st;
                       Money.nfOptions := Money.config st |};
             Money._cacheKey := Money.keyOf stringify st |}
    end.
Proof.
  intros H. unfold Money._getFormatter.
  destruct (String.eqb_spec (Money._cacheKey st) (Money.keyOf stringify st)) as [E|E];
    cbn [negb]; [|reflexivity].
  destruct (H E) as [Hf Hr]. rewrite Hr, Hf, <- E. destruct st; cbn in *. congruence.
Qed.

(** X9.  Whatever calls of [setLocale], [setConfig] and [format] came
    before, [_getFormatter()] gives the number format of the current
    locale and configuration, and leaves it in the cache under the
    current key; or it throws what the host throws for these settings.
    A formatter built for earlier settings is never handed out. *)
Theorem formatter_is_never_stale (cs : list Money.Call) :
  let st := Money.calls stringify rangeError formatNumber cs Money.initial in
  let f := {| Money.nfLocale := Money.locale st; Money.nfOptions := Money.config st |} in
  getFormatter st =
    match rangeError (Money.locale st) (Money.config st) with
    | Some text => Money.Throws text st
    | None =>
        Money.Returns (Some f)
          {| Money.locale := Money.locale st; Money.config := Money.config st;
             Money._formatter := Some f; Money._cacheKey := Money.keyOf stringify st |}
    end.
Proof.
  cbv zeta. apply getFormatter_cacheOk, cacheOk_calls, cacheOk_reset.
Qed.

(** X10.  When the host accepts the current settings, [format] of a text
    returns what the table's formatter gives with the number format of
    the current locale and configuration, and changes neither. *)
Theorem format_uses_current_settings (cs : list Money.Call) (v : string) :
  let st := Money.calls stringify rangeError formatNumber cs Money.initial in
  let f := {| Money.nfLocale := Money.locale st; Money.nfOptions := Money.config st |} in
  rangeError (Money.locale st) (Money.config st) = None ->
  exists st' : Money.Statics,
    Money.format stringify rangeError formatNumber (Money.Str v) st =
      Money.Returns (Grid.format (formatNumber f) v) st'
    /\ Money.locale st' = Money.locale st
    /\ Money.config st' = Money.config st.
Proof.
  cbv zeta. intros Hr.
  pose proof (getFormatter_cacheOk _ (cacheOk_calls cs Money.initial (cacheOk_reset _ _ _)))
    as H.
  set (st := Money.calls stringify rangeError formatNumber cs Money.initial) in *.
  rewrite Hr in H. unfold Money.format, Grid.format.
  destruct (JS.isEmpty v); [exists st; repeat split|].
  destruct (JS.isFinite _); [|exists st; repeat split].
  unfold Money.formatted. rewrite H. eexists. repeat split.
Qed.

End Cache.

(** The locale set twice, with a [format] call in between: the text is
    formatted for the second locale. *)
Lemma format_uses_current_settings_witness :
  exists st' : Money.Statics,
    Money.format Example.stringify Example.noError Example.localeOf (Money.Str "12")
      (Money.calls Example.stringify Example.noError Example.localeOf
         [Money.SetLocale "de-DE"; Money.Format (Money.Str "1"); Money.SetLocale "fr-FR"]
         Money.initial) =
      Money.Returns "fr-FR" st'.
Proof.
  destruct (format_uses_current_settings Example.stringify Example.noError
              Example.localeOf
              [Money.SetLocale "de-DE"; Money.Format (Money.Str "1"); Money.SetLocale "fr-FR"]
              "12" eq_refl) as (st' & H & _).
  exists st'. rewrite H. reflexivity.
Defined.

(** ** The comparators *)

(** X11.  The salary comparator reads a text up to its first comma:
    what stands in front of the digits (a currency sign, a minus sign) is
    stripped, and [parseFloat] stops at the comma, which is not stripped.
    So [$1,999] is compared as the number 1. *)
Theorem salaryComparator_stops_at_comma (p d r b : string) (sortType : JS.number) :
  JS.every notDigitDotComma p = true ->
  d <> "" -> JS.every JS.isDigit d = true ->
  salaryComparator (p ++ d ++ "," ++ r) b sortType = salaryComparator d b sortType.
Proof.
  intros Hp Hne Hd. unfold salaryComparator.
  rewrite !removeAll_app, (removeAll_dropped _ _ Hp), append_empty_l.
  assert (Hk : JS.removeAll notDigitDotComma d = d).
  { apply removeAll_kept. revert Hd. apply every_impl.
    intros c Hc. unfold notDigitDotComma. rewrite Hc. reflexivity. }
  rewrite Hk. change (JS.removeAll notDigitDotComma ",") with ",".
  rewrite (parseFloat_until_comma d _ Hne Hd). reflexivity.
Qed.

(** [$1,999] and [$1,000] compare as equal. *)
Lemma salaryComparator_stops_at_comma_witness :
  salaryComparator "$1,999" "$1,000" (JS.ofZ ASC) = JS.zero.
Proof.
  transitivity (salaryComparator "1" "$1,000" (JS.ofZ ASC)).
  - exact (salaryComparator_stops_at_comma "$" "1" "999" "$1,000" (JS.ofZ ASC)
             eq_refl ltac:(discriminate) eq_refl).
  - vm_compute. reflexivity.
Defined.

(** X12.  The default comparator takes a decimal comma for a separator
    of thousands: a text [i,f] of digits matches the pattern, its number
    is that of [if], and against a numeric text it compares as [if]
    does.  So [1,5] is compared as 15. *)
Theorem decimal_comma_is_dropped
    (localeCompare : string -> string -> JS.number)
    (i f b : string) (sortType : JS.number) :
  i <> "" -> JS.every JS.isDigit i = true ->
  f <> "" -> JS.every JS.isDigit f = true ->
  JS.isFinite (numberOf (i ++ f)) = true ->
  numeric (JS.trim b) = true ->
  numeric (i ++ "," ++ f) = true
  /\ numberOf (i ++ "," ++ f) = numberOf (i ++ f)
  /\ _defaultComparator localeCompare (i ++ "," ++ f) b sortType =
       _defaultComparator localeCompare (i ++ f) b sortType.
Proof.
  intros Hi Hdi Hf Hdf Hfin Hb.
  assert (Hn : numberOf (i ++ "," ++ f) = numberOf (i ++ f)).
  { unfold numberOf. rewrite !removeAll_app.
    rewrite (removeAll_kept spaceOrComma i), (removeAll_kept spaceOrComma f)
      by (eapply every_impl; [apply digit_kept|eassumption]).
    reflexivity. }
  assert (Hm : numeric (i ++ "," ++ f) = true).
  { unfold numeric. rewrite Hn, Hfin, matches_decimal_comma by assumption. reflexivity. }
  assert (Hm' : numeric (i ++ f) = true).
  { unfold numeric. rewrite Hfin, matches_digits; [reflexivity| |].
    - destruct i; [contradiction Hi; reflexivity|discriminate].
    - rewrite every_app, Hdi, Hdf. reflexivity. }
  split; [exact Hm|]. split; [exact Hn|].
  pose proof (every_impl _ _ _ digit_not_space Hdi) as Wi.
  pose proof (every_impl _ _ _ digit_not_space Hdf) as Wf.
  assert (Ht : JS.trim (i ++ "," ++ f) = i ++ "," ++ f).
  { apply trim_kept. rewrite !every_app, Wi, Wf. reflexivity. }
  assert (Ht' : JS.trim (i ++ f) = i ++ f).
  { apply trim_kept. rewrite !every_app, Wi, Wf. reflexivity. }
  unfold _defaultComparator. rewrite Ht, Ht', !bothNumeric_numeric, Hm, Hm', Hb.
  fold (numberOf (i ++ "," ++ f)). fold (numberOf (i ++ f)). rewrite Hn.
  assert (E1 : JS.isEmpty (i ++ "," ++ f) = false) by (destruct i; reflexivity).
  assert (E2 : JS.isEmpty (i ++ f) = false).
  { destruct i; [contradiction Hi; reflexivity|reflexivity]. }
  rewrite E1, E2. reflexivity.
Qed.

(** [1,5] against [2]. *)
Lemma decimal_comma_is_dropped_witness :
  _defaultComparator refCollator "1,5" "2" (JS.ofZ ASC) =
    _defaultComparator refCollator "15" "2" (JS.ofZ ASC).
Proof.
  destruct (decimal_comma_is_dropped refCollator "1" "5" "2" (JS.ofZ ASC))
    as (_ & _ & H);
    [discriminate|reflexivity|discriminate|reflexivity
    |vm_compute; reflexivity|vm_compute; reflexivity|exact H].
Defined.

Lemma whole_numbers_checked (localeCompare : string -> string -> JS.number) :
  forallb (fun a =>
    forallb (fun b =>
      Z.eqb (signOf (_defaultComparator localeCompare
                       (JS.showZ (Z.of_nat a)) (JS.showZ (Z.of_nat b)) (JS.ofZ ASC)))
            (Z.sgn (Z.of_nat a - Z.of_nat b))
      && Z.eqb (signOf (_defaultComparator localeCompare
                          (JS.showZ (Z.of_nat a)) (JS.showZ (Z.of_nat b)) (JS.ofZ DESC)))
               (Z.sgn (Z.of_nat b - Z.of_nat a)))
      (seq 0 101)) (seq 0 101) = true.
Proof. vm_compute. reflexivity. Qed.

(** X13.  Whole numbers from 0 to 100 written in decimal are compared by
    their value, whatever the collator: ascending, the result is above
    zero, zero or below zero as the first number is the greater, the same
    or the smaller one; descending it is the other way round. *)
Theorem whole_numbers_sort_by_value
    (localeCompare : string -> string -> JS.number) (a b : Z) :
  (0 <= a <= 100)%Z -> (0 <= b <= 100)%Z ->
  signOf (_defaultComparator localeCompare (JS.showZ a) (JS.showZ b) (JS.ofZ ASC))
    = Z.sgn (a - b)
  /\ signOf (_defaultComparator localeCompare (JS.showZ a) (JS.showZ b) (JS.ofZ DESC))
       = Z.sgn (b - a).
Proof.
  intros Ha Hb. pose proof (whole_numbers_checked localeCompare) as H.
  rewrite forallb_forall in H. specialize (H (Z.to_nat a)).
  rewrite forallb_forall in H. specialize (H ltac:(apply in_seq; lia) (Z.to_nat b)).
  rewrite !Z2Nat.id in H by lia.
  specialize (H ltac:(apply in_seq; lia)).
  apply andb_true_iff in H as [H1 H2]. split; apply Z.eqb_eq; assumption.
Qed.

(** [10] against [9], ascending. *)
Lemma whole_numbers_sort_by_value_witness :
  signOf (_defaultComparator refCollator "10" "9" (JS.ofZ ASC)) = 1%Z.
Proof.
  destruct (whole_numbers_sort_by_value refCollator 10 9) as [H _]; [lia|lia|exact H].
Defined.

(** ** Direction *)
Lemma opp_binary_round_aux (sx : bool) (mx ex : Z) (lx : location) :
  SFopp (binary_round_aux JS.prec JS.emax sx mx ex lx) =
    binary_round_aux JS.prec JS.emax (negb sx) mx ex lx.
Proof.
  unfold binary_round_aux.
  destruct (shr_fexp JS.prec JS.emax mx ex lx) as [mrs' e'].
  destruct (shr_fexp JS.prec JS.emax _ e' loc_Exact) as [mrs'' e''].
  destruct (shr_m mrs''); [reflexivity| |reflexivity].
  destruct (e'' <=? JS.emax - JS.prec)%Z; reflexivity.
Qed.

Lemma mul_DESC (x : JS.number) :
  JS.mul x (JS.ofZ DESC) = JS.neg (JS.mul x (JS.ofZ ASC)).
Proof.
  unfold JS.mul, JS.neg.
  replace (JS.ofZ DESC) with (S754_finite true 4503599627370496 (-52))
    by (vm_compute; reflexivity).
  replace (JS.ofZ ASC) with (S754_finite false 4503599627370496 (-52))
    by (vm_compute; reflexivity).
  destruct x as [s|s| |s m e];
    [destruct s; reflexivity|destruct s; reflexivity|reflexivity|].
  unfold SFmul. rewrite opp_binary_round_aux. destruct s; reflexivity.
Qed.

(** X14.  Descending is ascending negated: for the sort type -1 both
    comparators give the negation of what they give for the sort type 1;
    but for two blank texts, where the default comparator gives zero
    either way. *)
Theorem descending_negates_ascending
    (localeCompare : string -> string -> JS.number) (a b : string) :
  _defaultComparator localeCompare a b (JS.ofZ DESC) =
    (if JS.isEmpty (JS.trim a) && JS.isEmpty (JS.trim b) then JS.zero
     else JS.neg (_defaultComparator localeCompare a b (JS.ofZ ASC)))
  /\ salaryComparator a b (JS.ofZ DESC) = JS.neg (salaryComparator a b (JS.ofZ ASC)).
Proof.
  split; [|apply mul_DESC].
  unfold _defaultComparator.
  destruct (JS.isEmpty (JS.trim a)), (JS.isEmpty (JS.trim b)); cbn [andb];
    try reflexivity.
  destruct (bothNumeric (JS.trim a) (JS.trim b)); apply mul_DESC.
Qed.

(** ** Custom comparators *)
Lemma fold_customComparators (cs : list (Z * Comparator)) (m : gmap Z Comparator) (i : Z) :
  fold_left (fun m p => <[fst p := snd p]> m) cs m !! i =
    match last (List.filter (fun p => (fst p =? i)%Z) cs) with
    | Some p => Some (snd p)
    | None => m !! i
    end.
Proof.
  revert m. induction cs as [|[k f] cs IH]; intros m; [reflexivity|].
  cbn [fold_left List.filter fst snd]. rewrite IH.
  destruct (Z.eqb_spec k i) as [->|Hne].
  - rewrite (last_cons (i, f)).
    destruct (last (List.filter (fun p => (fst p =? i)%Z) cs)); [reflexivity|].
    apply lookup_insert_eq.
  - destruct (last _); [reflexivity|]. apply lookup_insert_ne. exact Hne.
Qed.

(** X15.  The comparator kept for a column is that of the last entry
    for its index among the comparators handed to the constructor; a
    column without entry has none, and is sorted with the default
    comparator. *)
Theorem customComparators_last_wins (customComparators : list (Z * Comparator)) (i : Z) :
  _customComparators customComparators !! i =
    snd <$> last (List.filter (fun p => (fst p =? i)%Z) customComparators).
Proof.
  unfold _customComparators. rewrite fold_customComparators.
  destruct (last _); [reflexivity|]. apply lookup_empty.
Qed.

(** ** Row selection *)

(** X16.  After a click in a row of the table, that row carries the
    class [active] and no other row of the table does; no other class of
    any row changes; the rows outside the table are exactly as they
    were, the class [active] included; and the document has the rows it
    had. *)
Theorem one_active_row (rows : list Selection.Row) (i : nat) (r : Selection.Row) :
  rows !! i = Some r -> Selection.inTable r = true ->
  length (Selection.onClick (Some i) rows) = length rows
  /\ forall (j : nat) (old : Selection.Row),
       rows !! j = Some old ->
       exists new : Selection.Row,
         Selection.onClick (Some i) rows !! j = Some new
         /\ Selection.inTable new = Selection.inTable old
         /\ (Selection.inTable old = true ->
             (In "active" (Selection.classList new) <-> j = i))
         /\ (Selection.inTable old = false -> new = old)
         /\ (forall c, c <> "active" ->
             (In c (Selection.classList new) <-> In c (Selection.classList old))).
Proof.
  intros Hi Hr. split.
  { unfold Selection.onClick. rewrite length_alter, length_map. reflexivity. }
  intros j old Hj. unfold Selection.onClick, Selection.ACTIVE_ROW_CLASS.
  set (cleared := map _ rows).
  assert (Hc : cleared !! j =
               Some (if Selection.inTable old
                     then Selection.withClasses (classRemove "active") old else old)).
  { unfold cleared. rewrite list_lookup_fmap, Hj. reflexivity. }
  destruct (decide (i = j)) as [->|Hne].
  - assert (old = r) by congruence. subst old. rewrite Hr in Hc.
    rewrite list_lookup_alter_eq, Hc. cbn [fmap option_fmap option_map].
    eexists. split; [reflexivity|].
    cbn [Selection.withClasses Selection.inTable Selection.classList].
    split; [reflexivity|]. split; [|split].
    + intros _. rewrite In_classAdd. tauto.
    + rewrite Hr. discriminate.
    + intros c Hc'. rewrite In_classAdd, In_classRemove. tauto.
  - rewrite list_lookup_alter_ne by exact Hne. rewrite Hc.
    eexists. split; [reflexivity|].
    destruct (Selection.inTable old) eqn:T;
      cbn [Selection.withClasses Selection.inTable Selection.classList].
    + split; [exact T|]. split; [|split].
      * intros _. rewrite In_classRemove. split; [tauto|]. intros ->. contradiction.
      * discriminate.
      * intros c Hc'. rewrite In_classRemove. tauto.
    + split; [exact T|]. split; [discriminate|]. split; [reflexivity|]. tauto.
Qed.

(** The third row clicked while the second is selected: the second row
    loses the class, the selected row of the other table keeps it. *)
Lemma one_active_row_witness :
  (exists new : Selection.Row,
     Selection.onClick (Some 2%nat) Example.trs !! 1%nat = Some new
     /\ ~ In "active" (Selection.classList new))
  /\ Selection.onClick (Some 2%nat) Example.trs !! 3%nat =
       Some {| Selection.classList := ["active"]; Selection.inTable := false |}.
Proof.
  destruct (one_active_row Example.trs 2
              {| Selection.classList := ["odd"]; Selection.inTable := true |}
              eq_refl eq_refl) as [_ H].
  split.
  - destruct (H 1%nat {| Selection.classList := ["active"]; Selection.inTable := true |}
                eq_refl) as (new & Hnew & _ & Hact & _).
    exists new. split; [exact Hnew|].
    intros Hin. apply Hact in Hin; [discriminate Hin|reflexivity].
  - destruct (H 3%nat {| Selection.classList := ["active"]; Selection.inTable := false |}
                eq_refl) as (new & Hnew & _ & _ & Hout & _).
    rewrite Hnew, (Hout eq_refl). reflexivity.
Defined.

(** ** Rows in order *)

Lemma sort_keeps_order {A : Type} (compare : A -> A -> JS.number) (l : list A) :
  (forall x y, goesAfter (compare x y) = false) -> sort compare l = l.
Proof.
  intros H. induction l as [|x l IH]; [reflexivity|].
  unfold sort in *. cbn [fold_right]. rewrite IH.
  destruct l as [|y r]; [reflexivity|]. cbn [insertSorted]. rewrite H. reflexivity.
Qed.

(** ** The sort puts the rows in order *)
Lemma inOrder_insertSorted {A : Type} (compare : A -> A -> JS.number) (x : A) (l : list A) :
  (forall y, In y l -> goesAfter (compare x y) = true -> goesAfter (compare y x) = false) ->
  inOrder compare l = true -> inOrder compare (insertSorted compare x l) = true.
Proof.
  induction l as [|y r IH]; intros Hx Hl; [reflexivity|].
  cbn [insertSorted]. destruct (goesAfter (compare x y)) eqn:Exy.
  - assert (Hr : inOrder compare r = true).
    { cbn [inOrder] in Hl. destruct r as [|z r']; [reflexivity|].
      apply andb_true_iff in Hl as [_ Hl]. exact Hl. }
    specialize (IH (fun z Hz => Hx z (or_intror Hz)) Hr).
    destruct r as [|z r'].
    + cbn [insertSorted inOrder]. rewrite (Hx y (or_introl eq_refl) Exy). reflexivity.
    + cbn [insertSorted] in IH |- *. destruct (goesAfter (compare x z)) eqn:Exz.
      * cbn [inOrder] in Hl |- *. apply andb_true_iff in Hl as [Hyz _].
        rewrite Hyz. exact IH.
      * change (inOrder compare (y :: x :: z :: r'))
          with (negb (goesAfter (compare y x)) && inOrder compare (x :: z :: r')).
        rewrite (Hx y (or_introl eq_refl) Exy). exact IH.
  - change (inOrder compare (x :: y :: r))
      with (negb (goesAfter (compare x y)) && inOrder compare (y :: r)).
    rewrite Exy. exact Hl.
Qed.

Lemma consistentOn_asymmetric {A : Type} (compare : A -> A -> JS.number) (l : list A) :
  consistentOn compare l = true ->
  forall x y, In x l -> In y l ->
    goesAfter (compare x y) = true -> goesAfter (compare y x) = false.
Proof.
  unfold consistentOn. rewrite forallb_forall. intros H x y Hx Hy Hxy.
  specialize (H x Hx). rewrite forallb_forall in H. specialize (H y Hy).
  apply andb_true_iff in H as [H _]. apply Z.eqb_eq in H.
  unfold signOf, goesAfter in *. rewrite Hxy in H.
  destruct (JS.lt JS.zero (compare y x)); [|reflexivity].
  discriminate H.
Qed.

Lemma sort_inOrder {A : Type} (compare : A -> A -> JS.number) (l : list A) :
  (forall x y, In x l -> In y l ->
     goesAfter (compare x y) = true -> goesAfter (compare y x) = false) ->
  inOrder compare (sort compare l) = true.
Proof.
  induction l as [|x l IH]; intros H; [reflexivity|].
  unfold sort in *. cbn [fold_right]. apply inOrder_insertSorted.
  - intros y Hy. apply H; [left; reflexivity|right].
    apply (Permutation_in _ (sort_Permutation compare l)). exact Hy.
  - apply IH. intros a b Ha Hb. apply H; right; assumption.
Qed.

Lemma existsb_Permutation {A : Type} (f : A -> bool) (l l' : list A) :
  Permutation l l' -> existsb f l = existsb f l'.
Proof.
  induction 1 as [|x l l' _ IH|x y l|l l' l'' _ IH1 _ IH2]; cbn [existsb].
  - reflexivity.
  - rewrite IH. reflexivity.
  - rewrite !orb_assoc, (orb_comm (f y)). reflexivity.
  - congruence.
Qed.

Lemma hasParent_Permutation (g g' : State) (id : nat) :
  Permutation (tbody g') (tbody g) -> hasParent g' id = hasParent g id.
Proof. unfold hasParent. apply existsb_Permutation. Qed.

Lemma existsb_removed (id : nat) (row : list nat) :
  existsb (Nat.eqb id) (List.filter (fun x => negb (x =? id)%nat) row) = false.
Proof.
  induction row as [|x row IH]; [reflexivity|].
  cbn [List.filter]. destruct (Nat.eqb_spec x id) as [->|Hne]; cbn [negb]; [exact IH|].
  cbn [existsb]. rewrite IH, orb_false_r. apply Nat.eqb_neq. congruence.
Qed.

Lemma hasParent_removeChild (id : nat) (g : State) :
  hasParent (removeChild id g) id = false.
Proof.
  unfold hasParent, removeChild. cbn [tbody setTbody].
  induction (tbody g) as [|row rows IH]; [reflexivity|].
  cbn [map existsb]. rewrite existsb_removed, IH. reflexivity.
Qed.



Lemma filter_absent (id : nat) (row : list nat) :
  existsb (Nat.eqb id) row = false ->
  List.filter (fun x => negb (x =? id)%nat) row = row.
Proof.
  induction row as [|x row IH]; [reflexivity|].
  cbn [existsb List.filter]. intros [Hx Hr]%orb_false_iff.
  rewrite Nat.eqb_sym, Hx. cbn [negb]. rewrite (IH Hr). reflexivity.
Qed.

Lemma removeChild_absent (id : nat) (g : State) :
  hasParent g id = false -> tbody (removeChild id g) = tbody g.
Proof.
  unfold hasParent, removeChild. cbn [tbody setTbody].
  induction (tbody g) as [|row rows IH]; [reflexivity|].
  cbn [map existsb]. intros [Hx Hr]%orb_false_iff.
  rewrite (filter_absent _ _ Hx), (IH Hr). reflexivity.
Qed.

Lemma textContent_appended (g' : State) (old : list Cell.t) (texts : list string) :
  cells g' =
    (old ++ map (fun t => {| Cell.text := t; Cell.classList := []; Cell.child := None |})
                texts)%list ->
  map (textContent g') (seq (length old) (length texts)) = texts.
Proof.
  revert old. induction texts as [|t texts IH]; intros old H; [reflexivity|].
  cbn [length seq map]. f_equal.
  - unfold textContent. rewrite H, lookup_app_r by lia. rewrite Nat.sub_diag. reflexivity.
  - specialize (IH (old ++ [{| Cell.text := t; Cell.classList := []; Cell.child := None |}])%list).
    rewrite length_app in IH. cbn [length] in IH. rewrite Nat.add_1_r in IH.
    apply IH. rewrite H, <- app_assoc. reflexivity.
Qed.



(** ** What is kept from one state to the next *)

(** ** What every event keeps of the form *)
Lemma sameControls_refl (l : list Control.t) : sameControls l l.
Proof. intros i c H. exists c. repeat split. exact H. Qed.

Lemma sameControls_trans (l1 l2 l3 : list Control.t) :
  sameControls l1 l2 -> sameControls l2 l3 -> sameControls l1 l3.
Proof.
  intros H12 H23 i c H. destruct (H12 i c H) as (c2 & H2 & N2 & V2 & T2 & O2).
  destruct (H23 i c2 H2) as (c3 & H3 & N3 & V3 & T3 & O3).
  exists c3. split; [exact H3|]. repeat split; congruence.
Qed.

Lemma sameControls_app (l extra : list Control.t) : sameControls l (l ++ extra).
Proof.
  intros i c H. exists c. repeat split.
  rewrite lookup_app_l by (apply lookup_lt_Some in H; exact H). exact H.
Qed.

Lemma sameControls_alter (f : Control.t -> Control.t) (k : nat) (l : list Control.t) :
  (forall c, Control.name (f c) = Control.name c
             /\ Control.validator (f c) = Control.validator c
             /\ Control.tagName (f c) = Control.tagName c
             /\ Control.options (f c) = Control.options c) ->
  sameControls l (alter f k l).
Proof.
  intros Hf i c H. destruct (decide (k = i)) as [->|Hne].
  - exists (f c). rewrite list_lookup_alter_eq, H. split; [reflexivity|apply Hf].
  - exists c. rewrite list_lookup_alter_ne by exact Hne. repeat split. exact H.
Qed.

Lemma keeps_refl (g : State) : keeps g g.
Proof. split; [reflexivity|]. split; [apply sameControls_refl|reflexivity]. Qed.

Lemma keeps_trans (g1 g2 g3 : State) : keeps g1 g2 -> keeps g2 g3 -> keeps g1 g3.
Proof.
  intros (F12 & C12 & R12) (F23 & C23 & R23).
  split; [congruence|]. split; [eapply sameControls_trans; eassumption|congruence].
Qed.

Lemma keeps_eq (g g' : State) :
  form g' = form g -> controls g' = controls g -> validators g' = validators g ->
  keeps g g'.
Proof.
  intros F C V. split; [exact F|]. rewrite C, V.
  split; [apply sameControls_refl|reflexivity].
Qed.

Lemma rules_alter (f : BaseValidator.t -> BaseValidator.t) (k : nat)
    (l : list BaseValidator.t) :
  (forall o, BaseValidator._rules (f o) = BaseValidator._rules o) ->
  map BaseValidator._rules (alter f k l) = map BaseValidator._rules l.
Proof.
  intros Hf. revert k. induction l as [|o l IH]; intros k; [reflexivity|].
  destruct k as [|k]; cbn; [rewrite Hf; reflexivity|].
  f_equal. apply IH.
Qed.

Section EventProperties.

Variable localeCompare : string -> string -> JS.number.
Variable formatCurrency : JS.number -> string.
Variable customComparators : list (Z * Comparator).

Local Abbreviation sortByColumn := (_sortByColumn localeCompare customComparators).
Local Abbreviation handleEvent := (handle localeCompare formatCurrency customComparators).
Local Abbreviation completeEditor := (complete localeCompare customComparators).
Local Abbreviation callback := (onCompleteCallback localeCompare customComparators).
Local Abbreviation saveEmployee := (_saveEmployee localeCompare formatCurrency customComparators).
Local Abbreviation compareRows := (rowComparator localeCompare customComparators).
Local Abbreviation reachableState := (reachable localeCompare formatCurrency customComparators).

(** *** The completion callback and the commit *)

(** *** What the handlers leave alone *)
Lemma notifications_onCompleteCallback (g : State) :
  notifications (onCompleteCallback localeCompare customComparators g) = notifications g.
Proof.
  unfold onCompleteCallback. cbn.
  destruct (0 <=? COLUMN_INDEX (_sorterState g))%Z; reflexivity.
Qed.

Lemma controls_onCompleteCallback (g : State) :
  controls (onCompleteCallback localeCompare customComparators g) = controls g.
Proof.
  unfold onCompleteCallback. cbn.
  destruct (0 <=? COLUMN_INDEX (_sorterState g))%Z; reflexivity.
Qed.

Lemma length_tbody_onCompleteCallback (g : State) :
  length (tbody (onCompleteCallback localeCompare customComparators g)) = length (tbody g).
Proof.
  unfold onCompleteCallback.
  destruct (0 <=? COLUMN_INDEX (_sorterState (setActiveEditor None g)))%Z;
    [rewrite length_tbody_sortByColumn|]; reflexivity.
Qed.

Lemma tbody_onCompleteCallback (g : State) :
  Permutation (tbody (callback g)) (tbody g).
Proof.
  unfold onCompleteCallback.
  destruct (0 <=? COLUMN_INDEX (_sorterState (setActiveEditor None g)))%Z; [|reflexivity].
  etransitivity; [apply tbody_sortByColumn|reflexivity].
Qed.

Lemma activeEditor_onCompleteCallback (g : State) :
  _activeEditor (callback g) = None.
Proof.
  unfold onCompleteCallback.
  destruct (0 <=? COLUMN_INDEX (_sorterState (setActiveEditor None g)))%Z; reflexivity.
Qed.

Lemma notifications_commit (ed : Editor.t) (target : nat) (v : string) (g : State) :
  notifications (stateOf (commit localeCompare customComparators ed target v g)) =
    (notifications g ++ [successNotice])%list.
Proof.
  unfold commit. destruct (Editor.originElement ed) as [origin|]; [|reflexivity].
  cbn [stateOf]. destruct (Editor.onComplete ed);
    rewrite ?notifications_onCompleteCallback; cbn; case_match; reflexivity.
Qed.

Lemma controls_commit (ed : Editor.t) (target : nat) (v : string) (g : State) :
  controls (stateOf (commit localeCompare customComparators ed target v g)) = controls g.
Proof.
  unfold commit. destruct (Editor.originElement ed) as [origin|]; [|reflexivity].
  cbn [stateOf]. destruct (Editor.onComplete ed);
    rewrite ?controls_onCompleteCallback; cbn; case_match; reflexivity.
Qed.

Lemma length_tbody_commit (ed : Editor.t) (target : nat) (v : string) (g : State) :
  length (tbody (stateOf (commit localeCompare customComparators ed target v g))) =
    length (tbody g).
Proof.
  unfold commit. destruct (Editor.originElement ed) as [origin|]; [|reflexivity].
  cbn [stateOf]. destruct (Editor.onComplete ed);
    rewrite ?length_tbody_onCompleteCallback; case_match; cbn; rewrite ?length_map;
    reflexivity.
Qed.

Lemma controls_complete (ed : Editor.t) (g : State) :
  controls (stateOf (completeEditor ed g)) = controls g.
Proof.
  unfold complete.
  destruct (Editor.targetElement ed) as [target|]; [|reflexivity].
  destruct (firstChild g target) as [| |k]; try reflexivity.
  - apply controls_commit.
  - destruct (controls g !! k ≫= Control.validator) as [v|].
    + destruct (success (validateObject g v)); [apply controls_commit|reflexivity].
    + apply controls_commit.
Qed.

Lemma length_tbody_complete (ed : Editor.t) (g : State) :
  length (tbody (stateOf (completeEditor ed g))) = length (tbody g).
Proof.
  unfold complete.
  destruct (Editor.targetElement ed) as [target|]; [|reflexivity].
  destruct (firstChild g target) as [| |k]; try reflexivity.
  - apply length_tbody_commit.
  - destruct (controls g !! k ≫= Control.validator) as [v|].
    + destruct (success (validateObject g v)); [apply length_tbody_commit|reflexivity].
    + apply length_tbody_commit.
Qed.

Lemma length_tbody_newInlineEditor (target : option nat) (fields : list Field.t) (g : State) :
  length (tbody (stateOf (newInlineEditor target fields g))) = length (tbody g).
Proof.
  unfold newInlineEditor.
  destruct (configurationOf g fields target) as [[origin cfg]|]; [|reflexivity].
  destruct (buildTargetElement cfg) as [element|text]; [|reflexivity].
  cbn [stateOf]. destruct (Field.validator cfg); cbn; rewrite length_map; reflexivity.
Qed.

Lemma length_tbody_onDblClick (target : option nat) (g : State) :
  length (tbody (stateOf (onDblClick localeCompare customComparators target g))) =
    length (tbody g).
Proof.
  unfold onDblClick.
  assert (H : forall r : Result unit,
             length (tbody (stateOf r)) = length (tbody g) ->
             length (tbody (stateOf (bind r (fun _ g1 =>
                bind (newInlineEditor target FIELDS g1)
                  (fun ed g2 => Done tt (setActiveEditor (Some ed) g2))))))
             = length (tbody g)).
  { intros [[] g1|t g1] Hr; cbn [bind stateOf] in *; [|exact Hr].
    pose proof (length_tbody_newInlineEditor target FIELDS g1) as Hn.
    destruct (newInlineEditor target FIELDS g1) as [ed g2|t g2];
      cbn [bind stateOf setActiveEditor tbody] in *; congruence. }
  apply H. destruct (_activeEditor g) as [ed|]; [apply length_tbody_complete|reflexivity].
Qed.

Lemma length_buildEmployeeRow (g : State) (employeeFields : list nat) :
  length (_buildEmployeeRow formatCurrency g employeeFields) = length FIELDS.
Proof. unfold _buildEmployeeRow. apply length_map. Qed.

(** *** Sorting *)

(** X17.  A click on a header cell moves rows and marks the header, and
    touches nothing else: the body holds the rows it held, the header has
    as many cells, and the cells, the controls, the form, the validator
    objects, the active editor and the notifications are as they were. *)
Theorem header_click_moves_rows_only (colIndex : nat) (g : State) :
  let g' := stateOf (handleEvent (HeaderClick colIndex) g) in
  Permutation (tbody g') (tbody g)
  /\ length (header g') = length (header g)
  /\ cells g' = cells g /\ controls g' = controls g /\ form g' = form g
  /\ validators g' = validators g /\ _activeEditor g' = _activeEditor g
  /\ notifications g' = notifications g.
Proof.
  cbv zeta. cbn [handle].
  destruct (colIndex <? length (header g))%nat; cbn [stateOf].
  - unfold _sortByColumnHandler.
    split; [etransitivity; [apply tbody_sortByColumn|reflexivity]|].
    split; [|repeat split].
    rewrite header_sortByColumn, length_imap. reflexivity.
  - repeat split. reflexivity.
Qed.

(** X18.  When the comparison of rows orders the rows of the body
    consistently, the body is in order after the sort: no row stands right
    before a row it goes after.  The comparison is the same before and
    after, and the rows are those the body held. *)
Theorem sorted_body_is_in_order (colIndex : Z) (g : State) :
  consistentOn (compareRows g colIndex) (tbody g) = true ->
  let g' := sortByColumn (Some colIndex) g in
  inOrder (compareRows g colIndex) (tbody g') = true
  /\ compareRows g' colIndex = compareRows g colIndex
  /\ Permutation (tbody g') (tbody g).
Proof.
  intros H. cbv zeta. split; [|split; [reflexivity|apply tbody_sortByColumn]].
  apply (sort_inOrder (compareRows g colIndex) (tbody g)), consistentOn_asymmetric, H.
Qed.

(** X19.  On a table that was never sorted ([COLUMN_INDEX] is -1, and no
    comparator was handed in for that index), a form that passes puts its
    row last and leaves the rows before it in their order: the sort that
    follows compares two empty texts for every pair of rows. *)
Theorem submit_on_unsorted_table_appends (g : State) :
  COLUMN_INDEX (_sorterState g) = (-1)%Z ->
  _customComparators customComparators !! (-1)%Z = None ->
  forallb success (fieldResults g (form g)) = true ->
  tbody (saveEmployee g) = (tbody g ++ [seq (length (cells g)) (length FIELDS)])%list.
Proof.
  intros Hcol Hcmp Hok. unfold _saveEmployee, validateEmployee.
  rewrite fold_validateField. cbn [andb]. rewrite Hok.
  cbn [reset setControls tbody].
  unfold _sortByColumn.
  cbn [tbody setTbody setHeader _sorterState appendRow setCells pushNotification
       setNotifications cells default].
  unfold id. rewrite Hcol, Hcmp, length_buildEmployeeRow.
  apply sort_keeps_order. intros x y. reflexivity.
Qed.

(** X20.  No event takes a row out of the body, and no event but a form
    that passes adds one. *)
Theorem rows_are_never_removed (e : Event) (g : State) :
  length (tbody (stateOf (handleEvent e g))) =
    (length (tbody g) +
     match e with
     | Submit => if forallb success (fieldResults g (form g)) then 1 else 0
     | _ => 0
     end)%nat.
Proof.
  destruct e as [colIndex|target|ctl v|ctl|ctl|]; cbn [handle]; rewrite ?Nat.add_0_r.
  - destruct (colIndex <? length (header g))%nat; [|reflexivity].
    cbn [stateOf]. unfold _sortByColumnHandler. rewrite length_tbody_sortByColumn.
    reflexivity.
  - apply length_tbody_onDblClick.
  - reflexivity.
  - unfold onFocusOut. repeat case_match; try reflexivity. apply length_tbody_complete.
  - unfold onKeydownEnter. repeat case_match; try reflexivity.
    rewrite length_tbody_complete. reflexivity.
  - cbn [stateOf]. unfold _saveEmployee, validateEmployee.
    rewrite fold_validateField. cbn [andb].
    destruct (forallb success (fieldResults g (form g))).
    + cbn [reset setControls tbody]. rewrite length_tbody_sortByColumn.
      cbn. rewrite length_app. reflexivity.
    + cbn. lia.
Qed.

(** *** The inline editor *)

(** X21.  The inline editor hands the field's arguments to the generator
    one place too far to the left, so the select generator finds nothing
    under [options] and throws.  A double click on a cell of the office
    column, on a page without active editor, ends in that error and leaves
    the page as it was. *)
Theorem dblclick_on_select_column_throws (g : State) (origin : nat) :
  (forall cfg : Field.t,
     Field.GeneratorClass cfg = SelectFieldGenerator ->
     (length (Field.args cfg) <= 3)%nat ->
     buildTargetElement cfg =
       Throws "Cannot read properties of undefined (reading 'forEach')")
  /\ (_activeEditor g = None -> cellIndex g origin = Some 2%nat ->
      handleEvent (DblClick (Some origin)) g =
        Uncaught "Cannot read properties of undefined (reading 'forEach')" g).
Proof.
  split.
  - intros cfg Hg Hl. unfold buildTargetElement, generateElement. rewrite Hg.
    unfold createSelect, arg. rewrite (nth_overflow _ _ Hl). reflexivity.
  - intros Ha Hc. cbn [handle]. unfold onDblClick. rewrite Ha. cbn [bind].
    unfold newInlineEditor, configurationOf. rewrite Hc. reflexivity.
Qed.

(** X22.  For a field with the input generator and a name as its only
    argument, the control of the inline editor and the control of the form
    differ: the editor's is a text input named [undefined], required when
    the field's name is not empty, whatever the field's [type]; the form's
    has the field's name, type and [required]. *)
Theorem inline_control_ignores_type_and_name (cfg : Field.t) (n : string) :
  Field.GeneratorClass cfg = InputFieldGenerator ->
  Field.args cfg = [Text n] ->
  exists inline inForm : Control.t,
    buildTargetElement cfg = Ok inline
    /\ formControl cfg = Ok inForm
    /\ (Control.name inline = "undefined" /\ Control.name inForm = n)
    /\ (Control.type inline = "text" /\ Control.type inForm = Field.type cfg)
    /\ (Control.required inline = negb (JS.isEmpty n)
        /\ Control.required inForm = Field.required cfg).
Proof.
  intros Hg Ha. unfold buildTargetElement, formControl, generateElement.
  rewrite Hg, Ha. eexists _, _. repeat split.
Qed.

(** X23.  Every run of [complete()] shows exactly one notification,
    whichever way it ends; a success notification is the one with the
    text [New row was successfully added.]. *)
Theorem complete_notifies_once (ed : Editor.t) (g : State) :
  exists n : Notification,
    notifications (stateOf (completeEditor ed g)) = (notifications g ++ [n])%list
    /\ (kind n = NOTIFICATION_TYPE_SUCCESS -> n = successNotice).
Proof.
  unfold complete.
  destruct (Editor.targetElement ed) as [target|];
    [|eexists; split; [reflexivity|discriminate]].
  destruct (firstChild g target) as [| |k].
  - eexists; split; [reflexivity|discriminate].
  - exists successNotice. split; [apply notifications_commit|reflexivity].
  - destruct (controls g !! k ≫= Control.validator) as [v|].
    + destruct (success (validateObject g v)).
      * exists successNotice. split; [apply notifications_commit|reflexivity].
      * eexists; split; [reflexivity|discriminate].
    + exists successNotice. split; [apply notifications_commit|reflexivity].
Qed.

(** X24.  A completion whose validator passes (or whose control has
    none): the origin cell takes the control's value as it stands, the
    container leaves the table body, which holds the rows it held
    otherwise, the origin cell is no longer hidden, the controller has no
    active editor, the success notification is shown, and the controls
    are as they were. *)
Theorem complete_commits
    (ed : Editor.t) (g : State) (target origin k : nat) (ctl : Control.t) :
  Editor.targetElement ed = Some target ->
  Editor.originElement ed = Some origin ->
  Editor.onComplete ed = true ->
  firstChild g target = Element k ->
  controls g !! k = Some ctl ->
  (forall v, Control.validator ctl = Some v -> success (validateObject g v) = true) ->
  is_Some (cells g !! origin) ->
  exists g' : State,
    completeEditor ed g = Done tt g'
    /\ textContent g' origin = Control.value ctl
    /\ hasParent g' target = false
    /\ Permutation (tbody g') (tbody (removeChild target g))
    /\ (forall cell, cells g' !! origin = Some cell -> ~ In "hidden" (Cell.classList cell))
    /\ _activeEditor g' = None
    /\ notifications g' = (notifications g ++ [successNotice])%list
    /\ controls g' = controls g.
Proof.
  intros Ht Ho Hcb Hf Hk Hv Hcell.
  assert (Hc : completeEditor ed g =
               commit localeCompare customComparators ed target (Control.value ctl) g).
  { unfold complete. rewrite Ht, Hf, Hk. cbn [mbind option_bind].
    destruct (Control.validator ctl) as [v|] eqn:E; [|reflexivity].
    rewrite (Hv v eq_refl). reflexivity. }
  pose proof (textContent_committed localeCompare customComparators
                ed target origin (Control.value ctl) g Ho Hcell) as Htext.
  pose proof (notifications_commit ed target (Control.value ctl) g) as Hn.
  pose proof (controls_commit ed target (Control.value ctl) g) as Hctl.
  rewrite <- Hc in Htext, Hn, Hctl.
  rewrite Hc in *. unfold commit in *. rewrite Ho, Hcb in *. cbn [stateOf] in *.
  eexists. split; [reflexivity|].
  split; [exact Htext|].
  set (g1 := pushNotification "Success" "New row was successfully added."
               NOTIFICATION_TYPE_SUCCESS g) in *.
  set (g2 := setTextContent origin (Control.value ctl) g1) in *.
  set (g3 := if hasParent g2 target then removeChild target g2 else g2) in *.
  set (g4 := setClassList origin (classRemove "hidden") g3) in *.
  assert (H3 : tbody g3 = tbody (removeChild target g)).
  { unfold g3. destruct (hasParent g2 target) eqn:E; [reflexivity|].
    symmetry. apply (removeChild_absent target g). exact E. }
  assert (H3' : hasParent g3 target = false).
  { unfold g3. destruct (hasParent g2 target) eqn:E; [|exact E].
    apply hasParent_removeChild. }
  split; [|split; [|split; [|split; [|split]]]].
  - rewrite (hasParent_Permutation g4 _ _ (tbody_onCompleteCallback g4)). exact H3'.
  - rewrite <- H3. apply (tbody_onCompleteCallback g4).
  - intros cell. rewrite cells_onCompleteCallback. unfold g4, setClassList.
    cbn [cells setCells]. rewrite list_lookup_alter_eq.
    destruct (cells g3 !! origin) as [c0|]; [|discriminate].
    intros [= <-]. cbn [Cell.classList]. rewrite In_classRemove. tauto.
  - apply activeEditor_onCompleteCallback.
  - exact Hn.
  - exact Hctl.
Qed.







(** X26.  After [Enter] met a rejection, the control no longer listens
    to [focusout]: when it loses focus nothing happens, and the control
    stays in its container in the table, the editor stays the active
    one. *)
Theorem focusout_after_rejected_enter
    (ed : Editor.t) (g : State) (target k v : nat) (ctl : Control.t) :
  Control.editor ctl = Some ed ->
  Editor.targetElement ed = Some target ->
  firstChild g target = Element k ->
  controls g !! k = Some ctl ->
  Control.validator ctl = Some v ->
  success (validateObject g v) = false ->
  let g' := stateOf (handleEvent (KeydownEnter k) g) in
  handleEvent (FocusOut k) g' = Done tt g'
  /\ firstChild g' target = Element k
  /\ hasParent g' target = hasParent g target
  /\ _activeEditor g' = _activeEditor g.
Proof.
  intros He Ht Hf Hk Hv Hs. cbv zeta.
  destruct (enter_rejected localeCompare formatCurrency customComparators
              ed g target k v ctl He Ht Hf Hk Hv Hs) as (-> & _).
  cbn [stateOf].
  set (g1 := setControls (alter (setFocusout false) k (controls g)) g) in *.
  assert (Hk1 : controls g1 !! k = Some (setFocusout false ctl)).
  { unfold g1. cbn [controls setControls]. rewrite list_lookup_alter_eq, Hk. reflexivity. }
  split; [|split; [exact Hf|split; reflexivity]].
  cbn [handle]. unfold onFocusOut.
  cbn [controls pushNotification setNotifications].
  rewrite Hk1. cbn [Control.editor Control.focusout setFocusout]. rewrite He. reflexivity.
Qed.

(** X27.  Opening an editor binds the column's validator object to the
    editor's control.  From then on that validator reads the value the
    editor shows, also for every other control that carries it, such as
    the form's control of that column, whatever value that control
    holds. *)
Theorem editor_takes_over_validator
    (g : State) (fields : list Field.t) (origin : nat) (cfg : Field.t)
    (element : Control.t) (v : nat) (o : BaseValidator.t) :
  configurationOf g fields (Some origin) = Some (origin, cfg) ->
  buildTargetElement cfg = Ok element ->
  Field.validator cfg = Some v ->
  validators g !! v = Some o ->
  let g' := stateOf (newInlineEditor (Some origin) fields g) in
  let shown := assigned element (textContent g origin) in
  BaseValidator._field <$> validators g' !! v = Some (Some (length (controls g)))
  /\ Control.value <$> controls g' !! length (controls g) = Some shown
  /\ validateObject g' v = validate (BaseValidator._rules o) (Some shown)
  /\ (forall (field : nat) (c : Control.t),
        controls g !! field = Some c -> Control.validator c = Some v ->
        controls g' !! field = Some c
        /\ fieldResults g' [field] = [validate (BaseValidator._rules o) (Some shown)]).
Proof.
  intros Hcfg Hb Hv Ho. cbv zeta.
  unfold newInlineEditor. rewrite Hcfg, Hb, Hv. cbn [stateOf].
  set (input := {| Control.tagName := Control.tagName element;
                   Control.name := Control.name element;
                   Control.type := Control.type element;
                   Control.required := Control.required element;
                   Control.options := Control.options element;
                   Control.value := assigned element (textContent g origin);
                   Control.validator := Some v;
                   Control.editor := _;
                   Control.focusout := true |}).
  set (g' := bindField v (length (controls g)) _).
  assert (Hval : validators g' !! v =
                 Some {| BaseValidator._field := Some (length (controls g));
                         BaseValidator._rules := BaseValidator._rules o |}).
  { unfold g', bindField. cbn [validators setValidators after setTbody setClassList
                                setCells setControls].
    rewrite list_lookup_alter_eq, Ho. reflexivity. }
  assert (Hctl : controls g' = (controls g ++ [input])%list) by reflexivity.
  assert (Hnew : controls g' !! length (controls g) = Some input).
  { rewrite Hctl, lookup_app_r by lia. rewrite Nat.sub_diag. reflexivity. }
  assert (Hres : validateObject g' v =
                 validate (BaseValidator._rules o)
                   (Some (assigned element (textContent g origin)))).
  { unfold validateObject. rewrite Hval. cbn [BaseValidator._field BaseValidator._rules].
    rewrite Hnew. reflexivity. }
  split; [rewrite Hval; reflexivity|].
  split; [rewrite Hnew; reflexivity|].
  split; [exact Hres|].
  intros field c Hfield Hc.
  assert (Hsame : controls g' !! field = Some c).
  { rewrite Hctl. rewrite lookup_app_l by (apply lookup_lt_Some in Hfield; exact Hfield).
    exact Hfield. }
  split; [exact Hsame|].
  rewrite fieldResults_cons, Hsame, Hc, Hres. reflexivity.
Qed.

(** *** The form *)

Lemma keeps_onCompleteCallback (g : State) : keeps g (callback g).
Proof.
  unfold onCompleteCallback.
  destruct (0 <=? COLUMN_INDEX (_sorterState (setActiveEditor None g)))%Z;
    apply keeps_eq; reflexivity.
Qed.

Lemma keeps_commit (ed : Editor.t) (target : nat) (v : string) (g : State) :
  keeps g (stateOf (commit localeCompare customComparators ed target v g)).
Proof.
  unfold commit. destruct (Editor.originElement ed) as [origin|];
    [|apply keeps_eq; reflexivity].
  cbn [stateOf].
  set (g4 := setClassList _ _ _).
  assert (H4 : keeps g g4).
  { unfold g4. case_match; apply keeps_eq; reflexivity. }
  destruct (Editor.onComplete ed); [|exact H4].
  eapply keeps_trans; [exact H4|apply keeps_onCompleteCallback].
Qed.

Lemma keeps_complete (ed : Editor.t) (g : State) :
  keeps g (stateOf (completeEditor ed g)).
Proof.
  unfold complete.
  destruct (Editor.targetElement ed) as [target|]; [|apply keeps_eq; reflexivity].
  destruct (firstChild g target) as [| |k]; try (apply keeps_eq; reflexivity).
  - apply keeps_commit.
  - destruct (controls g !! k ≫= Control.validator) as [v|].
    + destruct (success (validateObject g v));
        [apply keeps_commit|apply keeps_eq; reflexivity].
    + apply keeps_commit.
Qed.

Lemma keeps_newInlineEditor (target : option nat) (fields : list Field.t) (g : State) :
  keeps g (stateOf (newInlineEditor target fields g)).
Proof.
  unfold newInlineEditor.
  destruct (configurationOf g fields target) as [[origin cfg]|]; [|apply keeps_refl].
  destruct (buildTargetElement cfg) as [element|text]; [|apply keeps_refl].
  cbn [stateOf]. split; [destruct (Field.validator cfg); reflexivity|].
  split.
  - destruct (Field.validator cfg); apply sameControls_app.
  - destruct (Field.validator cfg); [|reflexivity].
    apply rules_alter. reflexivity.
Qed.

Lemma keeps_onDblClick (target : option nat) (g : State) :
  keeps g (stateOf (onDblClick localeCompare customComparators target g)).
Proof.
  unfold onDblClick.
  assert (H : forall r : Result unit,
             keeps g (stateOf r) ->
             keeps g (stateOf (bind r (fun _ g1 =>
                bind (newInlineEditor target FIELDS g1)
                  (fun ed g2 => Done tt (setActiveEditor (Some ed) g2)))))).
  { intros [[] g1|t g1] Hr; cbn [bind stateOf] in *; [|exact Hr].
    pose proof (keeps_newInlineEditor target FIELDS g1) as Hn.
    destruct (newInlineEditor target FIELDS g1) as [ed g2|t g2];
      cbn [bind stateOf] in *.
    - eapply keeps_trans; [exact Hr|]. eapply keeps_trans; [exact Hn|].
      apply keeps_eq; reflexivity.
    - eapply keeps_trans; [exact Hr|exact Hn]. }
  apply H. destruct (_activeEditor g) as [ed|]; [apply keeps_complete|apply keeps_refl].
Qed.

Lemma sameControls_reset (ids : list nat) (l : list Control.t) :
  sameControls l (fold_left (fun l id => alter resetControl id l) ids l).
Proof.
  revert l. induction ids as [|id ids IH]; intros l; [apply sameControls_refl|].
  cbn [fold_left]. eapply sameControls_trans; [|apply IH].
  apply sameControls_alter. intros c. repeat split.
Qed.

Lemma keeps_saveEmployee (g : State) :
  keeps g (_saveEmployee localeCompare formatCurrency customComparators g).
Proof.
  unfold _saveEmployee, validateEmployee. rewrite fold_validateField. cbn [andb].
  destruct (forallb success (fieldResults g (form g))); [|apply keeps_eq; reflexivity].
  split; [reflexivity|]. split; [|reflexivity].
  apply (sameControls_reset (form g) (controls g)).
Qed.

Lemma keeps_handle (e : Event) (g : State) : keeps g (stateOf (handleEvent e g)).
Proof.
  destruct e as [colIndex|target|ctl v|ctl|ctl|]; cbn [handle].
  - destruct (colIndex <? length (header g))%nat; apply keeps_eq; reflexivity.
  - apply keeps_onDblClick.
  - split; [reflexivity|]. split; [|reflexivity].
    apply sameControls_alter. intros c. repeat split.
  - unfold onFocusOut. repeat case_match; try apply keeps_refl. apply keeps_complete.
  - unfold onKeydownEnter. repeat case_match; try apply keeps_refl.
    eapply keeps_trans; [|apply keeps_complete].
    split; [reflexivity|]. split; [|reflexivity].
    apply sameControls_alter. intros c. repeat split.
  - apply keeps_saveEmployee.
Qed.

(** *** The form the constructor builds *)
Lemma addFormControl_spec (g g' : State) (field : Field.t) :
  addFormControl (Ok g) field = Ok g' ->
  exists c : Control.t,
    formField field c
    /\ controls g' = (controls g ++ [c])%list
    /\ form g' = (form g ++ [length (controls g)])%list
    /\ map BaseValidator._rules (validators g') = map BaseValidator._rules (validators g).
Proof.
  unfold addFormControl. destruct (formControl field) as [element|t] eqn:E; [|discriminate].
  intros [= <-].
  exists {| Control.tagName := Control.tagName element;
            Control.name := Control.name element;
            Control.type := Control.type element;
            Control.required := Control.required element;
            Control.options := Control.options element;
            Control.value := Control.value element;
            Control.validator := Field.validator field;
            Control.editor := None;
            Control.focusout := false |}.
  split; [|split; [|split]].
  2: { destruct (Field.validator field); reflexivity. }
  - unfold formField.
    cbn [Control.name Control.validator Control.tagName Control.options].
    unfold formControl, generateElement in E.
    destruct (Field.GeneratorClass field).
    + injection E as <-. repeat split.
    + unfold createSelect in E. destruct (arg (Field.args field) 1); try discriminate.
      injection E as <-. repeat split.
  - destruct (Field.validator field); reflexivity.
  - destruct (Field.validator field); [|reflexivity]. apply rules_alter. reflexivity.
Qed.

Lemma formControls_Throws (fields : list Field.t) (t : string) :
  fold_left addFormControl fields (Throws t) = Throws t.
Proof. induction fields as [|f fields IH]; [reflexivity|exact IH]. Qed.

Lemma formControls_spec (fields : list Field.t) (g g' : State) :
  fold_left addFormControl fields (Ok g) = Ok g' ->
  exists cs : list Control.t,
    Forall2 formField fields cs
    /\ controls g' = (controls g ++ cs)%list
    /\ form g' = (form g ++ seq (length (controls g)) (length fields))%list
    /\ map BaseValidator._rules (validators g') = map BaseValidator._rules (validators g).
Proof.
  revert g. induction fields as [|field fields IH]; intros g; cbn [fold_left].
  - intros [= <-]. exists []. rewrite !app_nil_r. repeat split. constructor.
  - destruct (addFormControl (Ok g) field) as [g1|t] eqn:E;
      [|rewrite formControls_Throws; discriminate].
    intros H. apply addFormControl_spec in E as (c & Hc & C1 & F1 & R1).
    apply IH in H as (cs & Hcs & C2 & F2 & R2).
    exists (c :: cs). split; [constructor; assumption|].
    rewrite C2, F2, R2, C1, F1, R1, <- !app_assoc. cbn [app length seq].
    rewrite length_app. cbn [length]. rewrite Nat.add_1_r. repeat split.
Qed.

Lemma rows_static (rows : list (list string)) (g : State) :
  let g' := fold_left (fun g texts => appendRow texts g) rows g in
  controls g' = controls g /\ form g' = form g /\ validators g' = validators g.
Proof.
  revert g. induction rows as [|r rows IH]; intros g; cbn [fold_left]; [repeat split|].
  destruct (IH (appendRow r g)) as (C & F & V). cbv zeta. rewrite C, F, V. repeat split.
Qed.

Lemma construct_formOk (headerClasses : list (list string))
    (rows : list (list string)) (g : State) :
  construct headerClasses rows = Ok g -> formOk g /\ rulesOk g.
Proof.
  unfold construct. intros H. apply formControls_spec in H as (cs & Hcs & C & F & R).
  destruct (rows_static rows
              {| header := headerClasses; tbody := []; cells := []; controls := [];
                 form := []; validators := VALIDATORS; _sorterState := initialState;
                 _activeEditor := None; notifications := [] |}) as (C0 & F0 & V0).
  rewrite C0 in C, F. rewrite F0 in F. rewrite V0 in R. cbn in C, F, R.
  split; [split|exact R].
  - exact F.
  - rewrite C. rewrite firstn_all2; [exact Hcs|].
    apply Forall2_length in Hcs. lia.
Qed.

Lemma formOk_keeps (g g' : State) : keeps g g' -> formOk g -> formOk g'.
Proof.
  intros (F & C & _) (Hf & Hc). split; [congruence|].
  apply Forall2_lookup. intros i. rewrite Forall2_lookup in Hc. specialize (Hc i).
  rewrite lookup_take in Hc |- *.
  destruct (decide (i < length FIELDS)%nat) as [Hi|Hi]; [|exact Hc].
  destruct (lookup_lt_is_Some_2 FIELDS i Hi) as [field Hfield].
  rewrite Hfield in Hc |- *.
  inversion Hc as [f c Hfc E1 E2|]; subst.
  symmetry in E2. destruct (C i c E2) as (c' & -> & N & V & T & O).
  constructor. destruct Hfc as (H1 & H2 & H3 & H4). repeat split; congruence.
Qed.

Lemma rulesOk_keeps (g g' : State) : keeps g g' -> rulesOk g -> rulesOk g'.
Proof. intros (_ & _ & R) H. unfold rulesOk in *. congruence. Qed.

Lemma reachable_formOk (g : State) : reachableState g -> formOk g /\ rulesOk g.
Proof.
  induction 1 as [hs rows g H|e g Hg [IH1 IH2]].
  - apply (construct_formOk hs rows g H).
  - split; [eapply formOk_keeps|eapply rulesOk_keeps]; try eassumption;
      apply keeps_handle.
Qed.

Lemma formOk_controls (g : State) :
  formOk g ->
  exists c0 c1 c2 c3 c4 : Control.t,
    form g = [0; 1; 2; 3; 4]%nat
    /\ controls g !! 0%nat = Some c0 /\ controls g !! 1%nat = Some c1
    /\ controls g !! 2%nat = Some c2 /\ controls g !! 3%nat = Some c3
    /\ controls g !! 4%nat = Some c4
    /\ Control.name c0 = "name" /\ Control.name c1 = "position"
    /\ Control.name c2 = "office" /\ Control.name c3 = "age"
    /\ Control.name c4 = "salary".
Proof.
  intros [Hf Hc].
  assert (H : forall i field, FIELDS !! i = Some field ->
            exists c, controls g !! i = Some c /\ formField field c).
  { intros i field Hi. rewrite Forall2_lookup in Hc. specialize (Hc i).
    rewrite Hi, lookup_take in Hc.
    destruct (decide (i < length FIELDS)%nat) as [Hlt|Hlt];
      inversion Hc as [f c Hfc E1 E2|]; subst.
    exists c. split; [congruence|exact Hfc]. }
  destruct (H 0%nat _ eq_refl) as (c0 & H0 & N0 & _).
  destruct (H 1%nat _ eq_refl) as (c1 & H1 & N1 & _).
  destruct (H 2%nat _ eq_refl) as (c2 & H2 & N2 & _).
  destruct (H 3%nat _ eq_refl) as (c3 & H3 & N3 & _).
  destruct (H 4%nat _ eq_refl) as (c4 & H4 & N4 & _).
  exists c0, c1, c2, c3, c4. repeat split; assumption.
Qed.

Lemma buildEmployeeRow_formOk (g : State) :
  formOk g ->
  _buildEmployeeRow formatCurrency g (form g) =
    [ valueOf g 0; valueOf g 1; valueOf g 2; valueOf g 3;
      format formatCurrency (valueOf g 4) ].
Proof.
  intros H.
  destruct (formOk_controls g H)
    as (c0 & c1 & c2 & c3 & c4 & -> & H0 & H1 & H2 & H3 & H4 & N0 & N1 & N2 & N3 & N4).
  unfold _buildEmployeeRow, FIELDS, fieldByName, valueOf.
  cbn [map arg nth Field.args omap list_omap].
  rewrite H0, H1, H2, H3, H4.
  cbn [List.filter]. rewrite N0, N1, N2, N3, N4.
  reflexivity.
Qed.

(** X28.  On a page the constructor built and events changed, the form
    is the form of [FIELDS]: its controls are the first controls of the
    page, one for each field and in the fields' order, each with its
    field's name and validator; and the validator objects have the rules
    they were created with. *)
Theorem form_is_the_form_of_FIELDS (g : State) :
  reachableState g ->
  form g = seq 0 (length FIELDS)
  /\ (forall (i : nat) (field : Field.t),
        FIELDS !! i = Some field ->
        exists c : Control.t,
          controls g !! i = Some c
          /\ Control.name c = toText (arg (Field.args field) 0)
          /\ Control.validator c = Field.validator field)
  /\ map BaseValidator._rules (validators g) = map BaseValidator._rules VALIDATORS.
Proof.
  intros Hg.
  destruct (reachable_formOk g Hg)
    as [[Hf Hc] Hr].
  split; [exact Hf|]. split; [|exact Hr].
  intros i field Hi. rewrite Forall2_lookup in Hc. specialize (Hc i).
  rewrite Hi, lookup_take in Hc.
  destruct (decide (i < length FIELDS)%nat) as [Hlt|Hlt];
    inversion Hc as [f c Hfc E1 E2|]; subst.
  destruct Hfc as (N & V & _).
  exists c. split; [congruence|]. split; assumption.
Qed.

(** X29.  On such a page, the row a form that passes adds holds the
    values of the form's controls as they stand, in the order of
    [FIELDS], the salary run through the formatter: what was validated
    trimmed is stored untrimmed. *)
Theorem submitted_row_holds_form_values (g : State) :
  reachableState g ->
  forallb success (fieldResults g (form g)) = true ->
  let g' := stateOf (handleEvent Submit g) in
  map (textContent g') (seq (length (cells g)) (length FIELDS)) =
    [ valueOf g 0; valueOf g 1; valueOf g 2; valueOf g 3;
      format formatCurrency (valueOf g 4) ].
Proof.
  intros Hg Hok. cbv zeta.
  destruct (reachable_formOk g Hg)
    as [Hform _].
  rewrite <- (buildEmployeeRow_formOk g Hform).
  rewrite <- (length_buildEmployeeRow g (form g)).
  apply textContent_appended.
  cbn [handle stateOf]. unfold _saveEmployee, validateEmployee.
  rewrite fold_validateField. cbn [andb]. rewrite Hok. reflexivity.
Qed.

(** *** The reset of the form *)

Lemma controls_saveEmployee (g : State) :
  forallb success (fieldResults g (form g)) = true ->
  controls (saveEmployee g) =
    fold_left (fun l id => alter resetControl id l) (form g) (controls g)
  /\ form (saveEmployee g) = form g.
Proof.
  intros Hok. unfold _saveEmployee, validateEmployee.
  rewrite fold_validateField. cbn [andb]. rewrite Hok.
  split; reflexivity.
Qed.

Lemma lookup_reset (ids : list nat) (l : list Control.t) (k : nat) :
  ~ In k ids ->
  fold_left (fun l id => alter resetControl id l) ids l !! k = l !! k.
Proof.
  revert l. induction ids as [|id ids IH]; intros l Hk; [reflexivity|].
  cbn [fold_left]. rewrite IH by (intros H; apply Hk; right; exact H).
  apply list_lookup_alter_ne. intros ->. apply Hk. left. reflexivity.
Qed.

Lemma lookup_reset_once (ids : list nat) (l : list Control.t) (k : nat) :
  List.NoDup ids -> In k ids ->
  fold_left (fun l id => alter resetControl id l) ids l !! k = resetControl <$> l !! k.
Proof.
  revert l. induction ids as [|id ids IH]; intros l Hnd Hk; [destruct Hk|].
  inversion Hnd as [|? ? Hnot Hnd']; subst. cbn [fold_left].
  destruct Hk as [->|Hk].
  - rewrite lookup_reset by exact Hnot. apply list_lookup_alter_eq.
  - rewrite IH by assumption. rewrite list_lookup_alter_ne; [reflexivity|].
    intros ->. contradiction.
Qed.

Lemma formOk_lookup (g : State) (i : nat) (field : Field.t) :
  formOk g -> FIELDS !! i = Some field ->
  exists c : Control.t, controls g !! i = Some c /\ formField field c.
Proof.
  intros [_ Hctl] Hi. rewrite Forall2_lookup in Hctl. specialize (Hctl i).
  rewrite Hi, lookup_take in Hctl.
  destruct (decide (i < length FIELDS)%nat) as [Hlt|Hlt];
    inversion Hctl as [f c Hfc E1 E2|]; subst.
  exists c. split; [congruence|exact Hfc].
Qed.

(** X30.  On such a page, a form that passes is reset once its row is
    added: every input of the form is empty again and the office list
    shows its first option; the controls of the inline editors, which
    stand outside the form, keep what they held. *)
Theorem valid_submit_resets_form (g : State) :
  reachableState g ->
  forallb success (fieldResults g (form g)) = true ->
  let g' := stateOf (handleEvent Submit g) in
  map (valueOf g') (form g') = [""; ""; "Tokyo"; ""; ""]
  /\ forall k : nat, (length FIELDS <= k)%nat -> controls g' !! k = controls g !! k.
Proof.
  intros Hg Hok. cbv zeta. cbn [handle stateOf].
  destruct (controls_saveEmployee g Hok) as [Hc Hf].
  destruct (reachable_formOk g Hg) as [Hform _].
  pose proof Hform as [Hids _].
  split.
  - rewrite Hf, Hids. unfold valueOf. rewrite Hc, Hids.
    assert (Hnd : List.NoDup (seq 0 (length FIELDS))) by apply List.seq_NoDup.
    set (cs := fold_left _ (seq 0 (length FIELDS)) (controls g)).
    assert (Hv : forall i field, FIELDS !! i = Some field ->
              default "" (Control.value <$> cs !! i) =
              match Field.GeneratorClass field, arg (Field.args field) 1 with
              | InputFieldGenerator, _ => ""
              | SelectFieldGenerator, Items l => hd "" l
              | SelectFieldGenerator, _ => ""
              end).
    { intros i field Hi.
      destruct (formOk_lookup g i field Hform Hi) as (c & Hc' & _ & _ & T & O).
      unfold cs. rewrite lookup_reset_once;
        [|exact Hnd|apply in_seq; apply lookup_lt_Some in Hi; lia].
      rewrite Hc'. cbn [fmap option_fmap option_map default]. unfold id, resetControl.
      cbn [Control.value setValue]. rewrite T, O.
      destruct (Field.GeneratorClass field); [reflexivity|].
      destruct (arg (Field.args field) 1); reflexivity. }
    cbn [FIELDS length seq map].
    rewrite (Hv 0%nat _ eq_refl), (Hv 1%nat _ eq_refl), (Hv 2%nat _ eq_refl),
      (Hv 3%nat _ eq_refl), (Hv 4%nat _ eq_refl).
    reflexivity.
  - intros k Hk. rewrite Hc, Hids. apply lookup_reset. rewrite in_seq. lia.
Qed.

End EventProperties.

(** ** The further properties on the pages of the examples *)

(** The page sorted by age. *)
Lemma sorted_body_is_in_order_witness :
  inOrder (rowComparator refCollator ourComparators Example.byAge 3)
    (tbody (_sortByColumn refCollator ourComparators (Some 3%Z) Example.byAge)) = true.
Proof.
  destruct (sorted_body_is_in_order refCollator ourComparators 3 Example.byAge)
    as [H _]; [vm_compute; reflexivity|exact H].
Defined.

(** The filled form submitted on the page as built. *)
Lemma submit_on_unsorted_table_appends_witness :
  tbody (_saveEmployee refCollator Example.currency ourComparators Example.filled) =
    [[0; 1; 2; 3; 4]; [5; 6; 7; 8; 9]; [10; 11; 12; 13; 14]]%nat.
Proof.
  rewrite (submit_on_unsorted_table_appends refCollator Example.currency ourComparators
             Example.filled);
    vm_compute; reflexivity.
Defined.

(** A double click on the office cell of the first row. *)
Lemma dblclick_on_select_column_throws_witness :
  handle refCollator Example.currency ourComparators (DblClick (Some 2%nat)) Example.page =
    Uncaught "Cannot read properties of undefined (reading 'forEach')" Example.page.
Proof.
  destruct (dblclick_on_select_column_throws refCollator Example.currency ourComparators
              Example.page 2) as [_ H].
  apply H; vm_compute; reflexivity.
Defined.

(** The age field, a number input in the form. *)
Lemma inline_control_ignores_type_and_name_witness :
  exists inline inForm : Control.t,
    buildTargetElement Example.ageField = Ok inline
    /\ formControl Example.ageField = Ok inForm
    /\ (Control.name inline = "undefined" /\ Control.name inForm = "age")
    /\ (Control.type inline = "text" /\ Control.type inForm = "number").
Proof.
  destruct (inline_control_ignores_type_and_name Example.ageField "age" eq_refl eq_refl)
    as (inline & inForm & H1 & H2 & H3 & H4 & _).
  exists inline, inForm. repeat split; try assumption; [apply H3|apply H3|apply H4|apply H4].
Defined.

(** The name [Robert Smith] typed into the editor of the first name cell. *)
Lemma complete_commits_witness :
  exists g' : State,
    complete refCollator ourComparators Example.nameEditor Example.editing = Done tt g'
    /\ textContent g' 0 = "Robert Smith"
    /\ hasParent g' 10 = false.
Proof.
  edestruct (complete_commits refCollator ourComparators
               Example.nameEditor Example.editing 10 0 5) as (g' & H1 & H2 & H3 & _).
  - reflexivity.
  - reflexivity.
  - reflexivity.
  - vm_compute. reflexivity.
  - vm_compute. reflexivity.
  - intros v [= <-]. vm_compute. reflexivity.
  - eexists. vm_compute. reflexivity.
  - exists g'. split; [exact H1|]. split; [|exact H3].
    rewrite H2. reflexivity.
Defined.


(** The name cut to [ab], then [Enter]. *)
Lemma focusout_after_rejected_enter_witness :
  let g' := stateOf (handle refCollator Example.currency ourComparators
                       (KeydownEnter 5) Example.rejected) in
  handle refCollator Example.currency ourComparators (FocusOut 5) g' = Done tt g'.
Proof.
  cbv zeta.
  edestruct (focusout_after_rejected_enter refCollator Example.currency ourComparators
               Example.nameEditor Example.rejected 10 5 0) as (H & _);
    only 4: (vm_compute; reflexivity).
  - reflexivity.
  - reflexivity.
  - vm_compute. reflexivity.
  - reflexivity.
  - vm_compute. reflexivity.
  - exact H.
Defined.

(** The form's name field holds [ab]; an editor opens on the name
    [Bob Smith]: the form's name field now passes. *)
Lemma editor_takes_over_validator_witness :
  let g := Example.events [Edit 0 "ab"] Example.page in
  let g' := stateOf (newInlineEditor (Some 0%nat) FIELDS g) in
  Control.value <$> controls g' !! 0%nat = Some "ab"
  /\ fieldResults g' [0%nat] = [ {| success := true; message := "" |} ].
Proof.
  cbv zeta.
  edestruct (editor_takes_over_validator
               (Example.events [Edit 0 "ab"] Example.page) FIELDS 0
               Example.nameField (createInput Undefined (Text "name") Undefined) 0)
    as (_ & _ & _ & H).
  - vm_compute. reflexivity.
  - reflexivity.
  - reflexivity.
  - vm_compute. reflexivity.
  - edestruct (H 0%nat) as [H1 H2].
    + vm_compute. reflexivity.
    + reflexivity.
    + split; [rewrite H1; reflexivity|]. rewrite H2. vm_compute. reflexivity.
Defined.

(** The form while an editor is open. *)
Lemma form_is_the_form_of_FIELDS_witness :
  form Example.editing = [0; 1; 2; 3; 4]%nat.
Proof.
  destruct (form_is_the_form_of_FIELDS refCollator Example.currency ourComparators
              Example.editing (reachable_events _ _ reachable_page)) as [H _].
  exact H.
Defined.

(** The filled form submitted. *)
Lemma submitted_row_holds_form_values_witness :
  map (textContent (Example.events [Submit] Example.filled)) [10; 11; 12; 13; 14]%nat =
    ["Carol White"; "Manager"; "Tokyo"; "41"; "$"].
Proof.
  etransitivity.
  - exact (submitted_row_holds_form_values refCollator Example.currency ourComparators
             Example.filled (reachable_events _ _ reachable_page)
             ltac:(vm_compute; reflexivity)).
  - vm_compute. reflexivity.
Defined.

(** The filled form submitted: the form is as the constructor left it. *)
Lemma valid_submit_resets_form_witness :
  map (valueOf Example.filled) [0; 1; 2; 3; 4]%nat =
    ["Carol White"; "Manager"; "Tokyo"; "41"; "900"]
  /\ map (valueOf (Example.events [Submit] Example.filled)) [0; 1; 2; 3; 4]%nat =
       [""; ""; "Tokyo"; ""; ""].
Proof.
  split; [vm_compute; reflexivity|].
  destruct (valid_submit_resets_form refCollator Example.currency ourComparators
              Example.filled (reachable_events _ _ reachable_page)
              ltac:(vm_compute; reflexivity)) as [H _].
  etransitivity; [|exact H]. vm_compute. reflexivity.
Defined.
